(** * Asset service of the immich server: stacks, deletion, download archives

    A shallow embedding of [server/src/domain/asset/asset.service.ts]
    (class [AssetService]) and the properties of its stack mutation,
    asset deletion and download-archive operations.

    The service is an orchestration layer over injected repositories.
    Reads of the asset store are functions of a record of collaborators;
    every mutating repository call, job enqueue, notification and zip
    operation is recorded, in program order, in a call log (what the jest
    mocks of the repositories observe).  Exceptions cut the log short.
    Byte counts are integers, which the numbers of the code are up to
    2^53; the [console.log] lines of the service are left out. *)

From Stdlib Require Import ZArith QArith.QArith_base Lia DecimalString.
From Stdlib Require Import DecimalNat DecimalFacts Ascii.
From stdpp Require Import base option list strings gmap.

Local Open Scope string_scope.
Local Open Scope list_scope.
Local Open Scope Z_scope.

(** ** JavaScript truthiness of the values the service tests *)

(** [!!s] for a string: every string but the empty one. *)
Definition truthy_string (s : string) : bool := negb (String.eqb s "").

(** [!!x] for [x : string | null | undefined]. *)
Definition truthy_ostring (x : option string) : bool :=
  match x with
  | Some s => truthy_string s
  | None => false
  end.

(** [!!b] for [b : boolean | undefined]. *)
Definition truthy_obool (b : option bool) : bool :=
  match b with
  | Some v => v
  | None => false
  end.

(** ** Entities (infra/entities), restricted to the fields the service reads *)

Inductive LibraryType := UPLOAD | EXTERNAL.

Definition LibraryType_eqb (a b : LibraryType) : bool :=
  match a, b with
  | UPLOAD, UPLOAD | EXTERNAL, EXTERNAL => true
  | _, _ => false
  end.

Module LibraryEntity.
Record t := mk { type : LibraryType }.
End LibraryEntity.

Module ExifEntity.
(** [fileSizeInByte : number | null], a byte count. *)
Record t := mk { fileSizeInByte : option Z }.
End ExifEntity.

Module AssetStackEntity.
(** [assets] is the member relation; the service only ever reads the
    [id] of a member, so members are kept as their ids, in the order of
    the loaded array. *)
Record t := mk {
  id : string;
  primaryAssetId : string;
  assets : list string
}.
End AssetStackEntity.

Module AssetEntity.
Record t := mk {
  id : string;
  ownerId : string;
  library : option LibraryEntity.t;
  originalPath : string;
  originalFileName : string;
  resizePath : option string;
  webpPath : option string;
  encodedVideoPath : option string;
  sidecarPath : option string;
  isReadOnly : bool;
  isOffline : bool;
  livePhotoVideoId : option string;
  exifInfo : option ExifEntity.t;
  stackId : option string;
  stack : option AssetStackEntity.t
}.
End AssetEntity.

(** [Partial<AssetStackEntity>] as handed to the stack repository. *)
Module StackWrite.
Record t := mk {
  id : option string;
  primaryAssetId : option string;
  assets : option (list string)
}.
End StackWrite.

(** The [options] object handed to [assetRepository.updateAll]:
    the rest of [AssetBulkUpdateDto] plus what [updateAll] sets on it.
    [stack = Some tt] is [stack: null]. *)
Module AssetUpdate.
Record t := mk {
  isFavorite : option bool;
  isArchived : option bool;
  stackParentId : option string;
  stack : option unit;
  updatedAt : option Z
}.
End AssetUpdate.

(** ** Jobs, events and the call log *)

Module IAssetDeletionJob.
Record t := mk { id : string; fromExternal : option bool }.
End IAssetDeletionJob.

Module ISidecarWriteJob.
Record t := mk {
  id : string;
  description : option string;
  dateTimeOriginal : option string;
  latitude : option Q;
  longitude : option Q
}.
End ISidecarWriteJob.

Inductive JobItem :=
| ASSET_DELETION (data : IAssetDeletionJob.t)
| DELETE_FILES (files : list (option string))
| SIDECAR_WRITE (data : ISidecarWriteJob.t).

Inductive ClientEvent := ASSET_DELETE | ASSET_UPDATE.

(** The payload of a notification: one id or an id array. *)
Inductive Payload :=
| OneId (id : string)
| ManyIds (ids : list string).

Inductive Call :=
| StackCreate (e : StackWrite.t)               (* assetStackRepository.create *)
| StackSave (e : StackWrite.t)                 (* assetStackRepository.save *)
| StackDelete (id : string)                    (* assetStackRepository.delete *)
| AssetRemove (a : AssetEntity.t)              (* assetRepository.remove *)
| AssetUpdateAll (ids : list string) (o : AssetUpdate.t)
                                               (* assetRepository.updateAll *)
| AssetUpsertExif (e : ISidecarWriteJob.t)     (* assetRepository.upsertExif *)
| UserUpdateUsage (ownerId : string) (delta : Z)
                                               (* userRepository.updateUsage *)
| JobQueue (j : JobItem)                       (* jobRepository.queue *)
| Send (ev : ClientEvent) (ownerId : string) (p : Payload)
                                               (* communicationRepository.send *)
| ZipAddFile (path filename : string)          (* zip.addFile *)
| ZipFinalize.                                 (* zip.finalize *)

(** Calls that write to the asset, stack or user store. *)
Definition is_store_mutation (c : Call) : bool :=
  match c with
  | StackCreate _ | StackSave _ | StackDelete _
  | AssetRemove _ | AssetUpdateAll _ _ | AssetUpsertExif _
  | UserUpdateUsage _ _ => true
  | _ => false
  end.

Definition is_stack_delete (c : Call) : bool :=
  match c with
  | StackDelete _ => true
  | _ => false
  end.

Definition is_stack_write (c : Call) : bool :=
  match c with
  | StackCreate _ | StackSave _ => true
  | _ => false
  end.

Definition is_asset_update_all (c : Call) : bool :=
  match c with
  | AssetUpdateAll _ _ => true
  | _ => false
  end.

(** ** The monad of a service method: a call log and an outcome *)

Inductive Exception :=
| Forbidden          (* thrown by access.requirePermission *)
| AssetNotFound      (* new Error('Asset not found') *)
| BadRequest (msg : string).

Inductive Outcome (A : Type) :=
| Returned (a : A)
| Thrown (e : Exception).
Arguments Returned {A} a.
Arguments Thrown {A} e.

Definition Async (A : Type) : Type := (list Call * Outcome A)%type.

Definition ret {A} (a : A) : Async A := ([], Returned a).

Definition throw {A} (e : Exception) : Async A := ([], Thrown e).

Definition bind {A B} (m : Async A) (f : A -> Async B) : Async B :=
  match m with
  | (t, Returned a) => let (t', r) := f a in (t ++ t', r)
  | (t, Thrown e) => (t, Thrown e)
  end.

Definition call (c : Call) : Async unit := ([c], Returned tt).

Definition when (b : bool) (m : Async unit) : Async unit :=
  if b then m else ret tt.

Notation "'let*' x := m 'in' k" := (bind m (fun x => k))
  (at level 10, x name, m at level 99, k at level 200).
Notation "'await' m ;; k" := (bind m (fun _ => k))
  (at level 10, m at level 99, k at level 200).

Definition log {A} (m : Async A) : list Call := fst m.
Definition outcome {A} (m : Async A) : Outcome A := snd m.

(** ** The service and its collaborators *)

Module AuthDto.
Record t := mk { user_id : string }.
End AuthDto.

Inductive Permission :=
| PERM_ASSET_UPDATE
| PERM_ASSET_DOWNLOAD
| PERM_ALBUM_DOWNLOAD
| PERM_TIMELINE_DOWNLOAD.

(** The injected collaborators as far as they are read.
    - [hasPermission] is the access guard: [access.requirePermission]
      resolves when it is [true] and throws otherwise;
    - [getById], [getByIds] are the asset repository's lookups;
    - [getByAlbumId], [getByUserId] give the finite stream of pages that
      [usePagination] produces over the repository method of that name;
    - [now] is what [new Date()] returns. *)
Record AssetService := {
  hasPermission : AuthDto.t -> Permission -> list string -> bool;
  getById : string -> option AssetEntity.t;
  getByIds : list string -> list AssetEntity.t;
  getByAlbumId : string -> list (list AssetEntity.t);
  getByUserId : string -> list (list AssetEntity.t);
  now : Z
}.

Definition requirePermission (this : AssetService) (auth : AuthDto.t)
    (p : Permission) (ids : list string) : Async unit :=
  if hasPermission this auth p ids then ret tt else throw Forbidden.

(** ** handleAssetDeletion *)

(** [asset.exifInfo?.fileSizeInByte || 0] *)
Definition fileSize (asset : AssetEntity.t) : Z :=
  match AssetEntity.exifInfo asset with
  | Some e =>
      match ExifEntity.fileSizeInByte e with
      | Some n => n
      | None => 0
      end
  | None => 0
  end.

(** [!asset.library || asset.library.type === LibraryType.EXTERNAL] *)
Definition noLibraryOrExternal (asset : AssetEntity.t) : bool :=
  match AssetEntity.library asset with
  | None => true
  | Some l => LibraryType_eqb (LibraryEntity.type l) EXTERNAL
  end.

(** The stack step of the deletion: [asset.stack?.primaryAssetId === id]. *)
Definition replaceStackParent (asset : AssetEntity.t) (id : string) : Async unit :=
  match AssetEntity.stack asset with
  | Some stack =>
      if String.eqb (AssetStackEntity.primaryAssetId stack) id then
        let stackIds := AssetStackEntity.assets stack in
        if (2 <? Z.of_nat (length stackIds)) then
          let primaryAssetId := find (fun a => negb (String.eqb a id)) stackIds in
          call (StackSave {| StackWrite.id := Some (AssetStackEntity.id stack);
                             StackWrite.primaryAssetId := primaryAssetId;
                             StackWrite.assets := None |})
        else
          call (StackDelete (AssetStackEntity.id stack))
      else ret tt
  | None => ret tt
  end.

Definition deletionFiles (asset : AssetEntity.t) (fromExternal : option bool)
  : list (option string) :=
  let files := [AssetEntity.webpPath asset; AssetEntity.resizePath asset;
                AssetEntity.encodedVideoPath asset; AssetEntity.sidecarPath asset] in
  if negb (truthy_obool fromExternal)
  then files ++ [Some (AssetEntity.originalPath asset)]
  else files.

Definition handleAssetDeletion (this : AssetService) (job : IAssetDeletionJob.t)
  : Async bool :=
  let id := IAssetDeletionJob.id job in
  let fromExternal := IAssetDeletionJob.fromExternal job in
  match getById this id with
  | None => ret false
  | Some asset =>
      if negb (truthy_obool fromExternal) && noLibraryOrExternal asset then ret false
      else
        await replaceStackParent asset id ;;
        await call (AssetRemove asset) ;;
        await call (UserUpdateUsage (AssetEntity.ownerId asset) (- fileSize asset)) ;;
        await call (Send ASSET_DELETE (AssetEntity.ownerId asset) (OneId id)) ;;
        await when (truthy_ostring (AssetEntity.livePhotoVideoId asset))
          (call (JobQueue (ASSET_DELETION
             {| IAssetDeletionJob.id := default "" (AssetEntity.livePhotoVideoId asset);
                IAssetDeletionJob.fromExternal := None |}))) ;;
        let files := deletionFiles asset fromExternal in
        await when (negb (AssetEntity.isReadOnly asset))
          (call (JobQueue (DELETE_FILES files))) ;;
        ret true
  end.

(** ** getDownloadInfo *)

Module DownloadArchiveInfo.
Record t := mk { size : Z; assetIds : list string }.
End DownloadArchiveInfo.

Module DownloadInfoDto.
Record t := mk {
  assetIds : option (list string);
  albumId : option string;
  userId : option string;
  archiveSize : option Z
}.
End DownloadInfoDto.

Module DownloadResponseDto.
Record t := mk { totalSize : Z; archives : list DownloadArchiveInfo.t }.
End DownloadResponseDto.

(** Modelled from the spec: the constant [HumanReadableSize.GiB] of
    [domain.util], which is not part of the sources at hand; the spec
    names the default target as 4 GiB. *)
Definition HumanReadableSize_GiB : Z := 1024 * 1024 * 1024.

(** [dto.archiveSize || HumanReadableSize.GiB * 4] *)
Definition targetSizeOf (dto : DownloadInfoDto.t) : Z :=
  match DownloadInfoDto.archiveSize dto with
  | Some n => if n =? 0 then HumanReadableSize_GiB * 4 else n
  | None => HumanReadableSize_GiB * 4
  end.

(** The stream of pages of [getDownloadAssets]; an array is truthy even
    when empty, an id string only when non-empty. *)
Definition getDownloadAssets (this : AssetService) (auth : AuthDto.t)
    (dto : DownloadInfoDto.t) : Async (list (list AssetEntity.t)) :=
  match DownloadInfoDto.assetIds dto with
  | Some assetIds =>
      await requirePermission this auth PERM_ASSET_DOWNLOAD assetIds ;;
      ret [getByIds this assetIds]
  | None =>
      if truthy_ostring (DownloadInfoDto.albumId dto) then
        let albumId := default "" (DownloadInfoDto.albumId dto) in
        await requirePermission this auth PERM_ALBUM_DOWNLOAD [albumId] ;;
        ret (getByAlbumId this albumId)
      else if truthy_ostring (DownloadInfoDto.userId dto) then
        let userId := default "" (DownloadInfoDto.userId dto) in
        await requirePermission this auth PERM_TIMELINE_DOWNLOAD [userId] ;;
        ret (getByUserId this userId)
      else throw (BadRequest "assetIds, albumId, or userId is required")
  end.

(** The archive objects live in a heap, in allocation order; [archives]
    holds references to them and [archive] is the reference the loop
    currently writes through.  Pushing [archive] onto [archives] does not
    copy the object. *)
Record Batcher := {
  heap : list DownloadArchiveInfo.t;
  archives : list nat;
  archive : nat
}.

Definition emptyArchive : DownloadArchiveInfo.t :=
  {| DownloadArchiveInfo.size := 0; DownloadArchiveInfo.assetIds := [] |}.

Definition deref (h : list DownloadArchiveInfo.t) (r : nat) : DownloadArchiveInfo.t :=
  default emptyArchive (h !! r).

Definition initialBatcher : Batcher :=
  {| heap := [emptyArchive]; archives := []; archive := 0%nat |}.

(** [archive.size += Number(size || 0); archive.assetIds.push(asset.id)].
    Sizes are JavaScript numbers; their sums are the sums in [Z] as long
    as they stay within 2^53, beyond which the code's additions round. *)
Definition addToArchive (asset : AssetEntity.t) (a : DownloadArchiveInfo.t)
  : DownloadArchiveInfo.t :=
  {| DownloadArchiveInfo.size := DownloadArchiveInfo.size a + fileSize asset;
     DownloadArchiveInfo.assetIds :=
       DownloadArchiveInfo.assetIds a ++ [AssetEntity.id asset] |}.

(** One turn of the inner loop. *)
Definition addAsset (targetSize : Z) (st : Batcher) (asset : AssetEntity.t) : Batcher :=
  let heap1 := alter (addToArchive asset) (archive st) (heap st) in
  if targetSize <? DownloadArchiveInfo.size (deref heap1 (archive st)) then
    {| heap := heap1 ++ [emptyArchive];
       archives := archives st ++ [archive st];
       archive := length heap1 |}
  else
    {| heap := heap1; archives := archives st; archive := archive st |}.

(** [assets.map((asset) => asset.livePhotoVideoId).filter((id) => !!id)] *)
Definition motionIds (assets : list AssetEntity.t) : list string :=
  omap (fun x => if truthy_ostring x then x else None)
       (map AssetEntity.livePhotoVideoId assets).

(** The page after [assets.push(...(await getByIds(motionIds)))]. *)
Definition withMotion (this : AssetService) (assets : list AssetEntity.t)
  : list AssetEntity.t :=
  let ids := motionIds assets in
  if (0 <? length ids)%nat then assets ++ getByIds this ids else assets.

(** One turn of the [for await] loop, with the push that ends it. *)
Definition processPage (this : AssetService) (targetSize : Z) (st : Batcher)
    (assets : list AssetEntity.t) : Batcher :=
  let st1 := fold_left (addAsset targetSize) (withMotion this assets) st in
  if (0 <? length (DownloadArchiveInfo.assetIds (deref (heap st1) (archive st1))))%nat
  then {| heap := heap st1;
          archives := archives st1 ++ [archive st1];
          archive := archive st1 |}
  else st1.

Definition batchPages (this : AssetService) (targetSize : Z)
    (pages : list (list AssetEntity.t)) : Batcher :=
  fold_left (processPage this targetSize) pages initialBatcher.

(** The response built from the final state: the references are read
    through the heap as it is when the loop has ended. *)
Definition downloadResponse (st : Batcher) : DownloadResponseDto.t :=
  let out := map (deref (heap st)) (archives st) in
  {| DownloadResponseDto.totalSize :=
       fold_left (fun total item => total + DownloadArchiveInfo.size item) out 0;
     DownloadResponseDto.archives := out |}.

Definition getDownloadInfo (this : AssetService) (auth : AuthDto.t)
    (dto : DownloadInfoDto.t) : Async DownloadResponseDto.t :=
  let targetSize := targetSizeOf dto in
  let* assetPagination := getDownloadAssets this auth dto in
  ret (downloadResponse (batchPages this targetSize assetPagination)).

(** ** downloadArchive *)

Module AssetIdsDto.
Record t := mk { assetIds : list string }.
End AssetIdsDto.

(** The decimal digits of a count, as a template literal renders it. *)
Definition decimal (n : nat) : string := NilZero.string_of_uint (Nat.to_uint n).

(** The combined name [`${originalFileName}${ext}`]. *)
Definition combinedName (extname : string -> string) (a : AssetEntity.t) : string :=
  AssetEntity.originalFileName a +:+ extname (AssetEntity.originalPath a).

(** What [paths[filename]] can hold while the loop runs.  [paths] starts
    as the plain object [{}], whose prototype is [Object.prototype]: a
    read of a key the loop has not stored falls through to the
    prototype, where it finds a built-in function (under [constructor],
    [toString], ...) or, under [__proto__], the prototype object itself.
    Adding 1 to a function or to an object gives a text. *)
Inductive PathValue :=
| PathNumber (n : nat)
| PathText (s : string)
| PathBuiltIn (name : string)
| PathObjectPrototype.

(** The properties of [Object.prototype], by key; a built-in function is
    given by its [name]. *)
Definition objectPrototype : list (string * PathValue) :=
  [("constructor", PathBuiltIn "Object");
   ("__defineGetter__", PathBuiltIn "__defineGetter__");
   ("__defineSetter__", PathBuiltIn "__defineSetter__");
   ("hasOwnProperty", PathBuiltIn "hasOwnProperty");
   ("__lookupGetter__", PathBuiltIn "__lookupGetter__");
   ("__lookupSetter__", PathBuiltIn "__lookupSetter__");
   ("isPrototypeOf", PathBuiltIn "isPrototypeOf");
   ("propertyIsEnumerable", PathBuiltIn "propertyIsEnumerable");
   ("toString", PathBuiltIn "toString");
   ("valueOf", PathBuiltIn "valueOf");
   ("__proto__", PathObjectPrototype);
   ("toLocaleString", PathBuiltIn "toLocaleString")].

(** The value a key inherits from [Object.prototype], if any. *)
Definition inherited (key : string) : option PathValue :=
  match List.find (fun p => String.eqb (fst p) key) objectPrototype with
  | Some p => Some (snd p)
  | None => None
  end.

(** The text of a value, as [+] and a template literal render it. *)
Definition pathText (v : PathValue) : string :=
  match v with
  | PathNumber n => decimal n
  | PathText s => s
  | PathBuiltIn name => "function " +:+ name +:+ "() { [native code] }"
  | PathObjectPrototype => "[object Object]"
  end.

(** [paths[key]]: the value stored under [key], else the inherited one,
    else [undefined]. *)
Definition getPath (paths : gmap string PathValue) (key : string) : option PathValue :=
  match paths !! key with
  | Some v => Some v
  | None => inherited key
  end.

(** [v || 0] *)
Definition orZero (v : option PathValue) : PathValue :=
  match v with
  | None => PathNumber 0
  | Some (PathNumber O) => PathNumber 0
  | Some (PathText EmptyString) => PathNumber 0
  | Some v => v
  end.

(** [count + 1]: the next number, or, for a count that is no number, its
    text followed by [1]. *)
Definition plusOne (count : PathValue) : PathValue :=
  match count with
  | PathNumber n => PathNumber (n + 1)
  | _ => PathText (pathText count +:+ "1")
  end.

(** [paths[key] = v] for a number or a text [v]: the value is stored
    under [key], except that the setter of [__proto__] ignores a value
    that is no object. *)
Definition setPath (paths : gmap string PathValue) (key : string) (v : PathValue)
  : gmap string PathValue :=
  if String.eqb key "__proto__" then paths else <[key := v]> paths.

(** [count !== 0] *)
Definition notZero (count : PathValue) : bool :=
  match count with
  | PathNumber O => false
  | _ => true
  end.

(** The name under which an asset goes into the zip when the read of
    [paths] gave [count]. *)
Definition zipName (extname : string -> string) (a : AssetEntity.t) (count : PathValue)
  : string :=
  if notZero count
  then AssetEntity.originalFileName a +:+ "+" +:+ pathText count
       +:+ extname (AssetEntity.originalPath a)
  else combinedName extname a.

(** The loop over the assets; [paths] holds the properties the loop has
    stored in the object, keyed by combined name.  A stored number counts
    the assets that had the name so far (an array holds fewer than 2^32
    assets, so the count is exact).  [extname] is Node's [path.extname]. *)
Fixpoint addFiles (extname : string -> string) (paths : gmap string PathValue)
    (assets : list AssetEntity.t) : Async unit :=
  match assets with
  | [] => ret tt
  | a :: rest =>
      let filename := combinedName extname a in
      let count := orZero (getPath paths filename) in
      let paths := setPath paths filename (plusOne count) in
      await call (ZipAddFile (AssetEntity.originalPath a) (zipName extname a count)) ;;
      addFiles extname paths rest
  end.

Definition downloadArchive (extname : string -> string) (this : AssetService)
    (auth : AuthDto.t) (dto : AssetIdsDto.t) : Async unit :=
  await requirePermission this auth PERM_ASSET_DOWNLOAD (AssetIdsDto.assetIds dto) ;;
  let assets := getByIds this (AssetIdsDto.assetIds dto) in
  await addFiles extname ∅ assets ;;
  await call ZipFinalize ;;
  ret tt.

(** The names handed to [zip.addFile], in order. *)
Definition zipNames (t : list Call) : list string :=
  omap (fun c => match c with ZipAddFile _ n => Some n | _ => None end) t.

(** ** updateAll *)

Module AssetBulkUpdateDto.
Record t := mk {
  ids : list string;
  removeParent : option bool;
  stackParentId : option string;
  dateTimeOriginal : option string;
  latitude : option Q;
  longitude : option Q;
  isFavorite : option bool;
  isArchived : option bool
}.
End AssetBulkUpdateDto.

(** [[...new Set(xs)]]: the elements in order of first occurrence. *)
Definition Set_add (acc : list string) (x : string) : list string :=
  if existsb (String.eqb x) acc then acc else acc ++ [x].

Definition Set_new (xs : list string) : list string :=
  fold_left Set_add xs [].

(** [for (const x of xs) { await f(x) }], also the order in which
    [xs.map(f)] starts its calls. *)
Fixpoint forEach {A} (xs : list A) (f : A -> Async unit) : Async unit :=
  match xs with
  | [] => ret tt
  | x :: rest => await f x ;; forEach rest f
  end.

(** The number of keys a field contributes to an object once the
    undefined ones are omitted. *)
Definition keyCount {A} (field : option A) : nat :=
  match field with
  | Some _ => 1
  | None => 0
  end.

(** [updateMetadata]: the keys left by [_.omitBy(..., _.isUndefined)]
    are the fields of [dto] that are not [None]. *)
Definition updateMetadata (dto : ISidecarWriteJob.t) : Async unit :=
  let writes :=
    (keyCount (ISidecarWriteJob.description dto)
     + keyCount (ISidecarWriteJob.dateTimeOriginal dto)
     + keyCount (ISidecarWriteJob.latitude dto)
     + keyCount (ISidecarWriteJob.longitude dto))%nat in
  when (0 <? writes)%nat
    (await call (AssetUpsertExif dto) ;;
     call (JobQueue (SIDECAR_WRITE dto))).

(** [a.stackId!] of the assets that pass a filter requiring it. *)
Definition stackIdOf (a : AssetEntity.t) : string := default "" (AssetEntity.stackId a).

(** [stack?.id !== a.stackId] for a truthy [a.stackId]. *)
Definition otherStack (stack : option AssetStackEntity.t) (a : AssetEntity.t) : bool :=
  match stack with
  | Some s => negb (String.eqb (AssetStackEntity.id s) (stackIdOf a))
  | None => true
  end.

(** [!!a.stack?.primaryAssetId] *)
Definition hasPrimary (a : AssetEntity.t) : bool :=
  match AssetEntity.stack a with
  | Some s => truthy_string (AssetStackEntity.primaryAssetId s)
  | None => false
  end.

Definition primaryOf (a : AssetEntity.t) : string :=
  match AssetEntity.stack a with
  | Some s => AssetStackEntity.primaryAssetId s
  | None => ""
  end.

(** [a.stack && a.stack.assets.length > 0] *)
Definition hasChildren (a : AssetEntity.t) : bool :=
  match AssetEntity.stack a with
  | Some s => (0 <? length (AssetStackEntity.assets s))%nat
  | None => false
  end.

(** [child.stack!.assets.map((gChild) => gChild.id)] *)
Definition childrenOf (a : AssetEntity.t) : list string :=
  match AssetEntity.stack a with
  | Some s => AssetStackEntity.assets s
  | None => []
  end.

(** What the first part of [updateAll] hands to the second: the grown
    [ids], the [options] and [stackIdsToDelete]. *)
Record StackPlan := {
  plan_ids : list string;
  plan_options : AssetUpdate.t;
  stackIdsToDelete : list string
}.

Definition initialOptions (dto : AssetBulkUpdateDto.t) : AssetUpdate.t :=
  {| AssetUpdate.isFavorite := AssetBulkUpdateDto.isFavorite dto;
     AssetUpdate.isArchived := AssetBulkUpdateDto.isArchived dto;
     AssetUpdate.stackParentId := AssetBulkUpdateDto.stackParentId dto;
     AssetUpdate.stack := None;
     AssetUpdate.updatedAt := None |}.

(** The branch [if (removeParent)]. *)
Definition planRemoveParent (this : AssetService) (ids : list string)
    (options : AssetUpdate.t) : Async StackPlan :=
  let options :=
    {| AssetUpdate.isFavorite := AssetUpdate.isFavorite options;
       AssetUpdate.isArchived := AssetUpdate.isArchived options;
       AssetUpdate.stackParentId := AssetUpdate.stackParentId options;
       AssetUpdate.stack := Some tt;
       AssetUpdate.updatedAt := AssetUpdate.updatedAt options |} in
  let assets := getByIds this ids in
  let toDelete :=
    Set_new (map stackIdOf
      (List.filter (fun a => truthy_ostring (AssetEntity.stackId a)) assets)) in
  let ids := ids ++ Set_new (map primaryOf (List.filter hasPrimary assets)) in
  ret {| plan_ids := ids; plan_options := options; stackIdsToDelete := toDelete |}.

(** The branch [else if (options.stackParentId)]. *)
Definition planStackParent (this : AssetService) (auth : AuthDto.t)
    (ids : list string) (options : AssetUpdate.t) (stackParentId : string)
  : Async StackPlan :=
  await requirePermission this auth PERM_ASSET_UPDATE [stackParentId] ;;
  match getById this stackParentId with
  | None => throw AssetNotFound
  | Some primaryAsset =>
      let stack := AssetEntity.stack primaryAsset in
      let ids := ids ++ [stackParentId] in
      let assets := getByIds this ids in
      let toDelete :=
        Set_new (map stackIdOf
          (List.filter (fun a => truthy_ostring (AssetEntity.stackId a) && otherStack stack a)
                       assets)) in
      let assetsWithChildren := List.filter hasChildren assets in
      let ids := ids ++ flat_map childrenOf assetsWithChildren in
      await match stack with
            | None =>
                call (StackCreate
                  {| StackWrite.id := None;
                     StackWrite.primaryAssetId := Some (AssetEntity.id primaryAsset);
                     StackWrite.assets := Some ids |})
            | Some s =>
                call (StackSave
                  {| StackWrite.id := Some (AssetStackEntity.id s);
                     StackWrite.primaryAssetId := Some (AssetEntity.id primaryAsset);
                     StackWrite.assets := Some ids |})
            end ;;
      ret {| plan_ids := ids;
             plan_options :=
               {| AssetUpdate.isFavorite := AssetUpdate.isFavorite options;
                  AssetUpdate.isArchived := AssetUpdate.isArchived options;
                  AssetUpdate.stackParentId := None;
                  AssetUpdate.stack := AssetUpdate.stack options;
                  AssetUpdate.updatedAt := Some (now this) |};
             stackIdsToDelete := toDelete |}
  end.

Definition planStacks (this : AssetService) (auth : AuthDto.t)
    (dto : AssetBulkUpdateDto.t) : Async StackPlan :=
  let ids := AssetBulkUpdateDto.ids dto in
  let options := initialOptions dto in
  if truthy_obool (AssetBulkUpdateDto.removeParent dto) then
    planRemoveParent this ids options
  else if truthy_ostring (AssetUpdate.stackParentId options) then
    planStackParent this auth ids options (default "" (AssetUpdate.stackParentId options))
  else
    ret {| plan_ids := ids; plan_options := options; stackIdsToDelete := [] |}.

Definition updateAll (this : AssetService) (auth : AuthDto.t)
    (dto : AssetBulkUpdateDto.t) : Async unit :=
  await requirePermission this auth PERM_ASSET_UPDATE (AssetBulkUpdateDto.ids dto) ;;
  let* plan := planStacks this auth dto in
  let ids := plan_ids plan in
  await forEach ids (fun id =>
          updateMetadata
            {| ISidecarWriteJob.id := id;
               ISidecarWriteJob.description := None;
               ISidecarWriteJob.dateTimeOriginal := AssetBulkUpdateDto.dateTimeOriginal dto;
               ISidecarWriteJob.latitude := AssetBulkUpdateDto.latitude dto;
               ISidecarWriteJob.longitude := AssetBulkUpdateDto.longitude dto |}) ;;
  await call (AssetUpdateAll ids (plan_options plan)) ;;
  await forEach (stackIdsToDelete plan) (fun id => call (StackDelete id)) ;;
  call (Send ASSET_UPDATE (AuthDto.user_id auth) (ManyIds ids)).

(** ** Sample stores and assets *)

Module Sample.

Definition upload : option LibraryEntity.t := Some (LibraryEntity.mk UPLOAD).
Definition external : option LibraryEntity.t := Some (LibraryEntity.mk EXTERNAL).

(** An asset of an upload library with the given id, size, live-photo
    companion and stack; its original is [/upload/<id>.jpg]. *)
Definition asset (id : string) (lib : option LibraryEntity.t) (size : Z)
    (live : option string) (stack : option AssetStackEntity.t) (readOnly : bool)
  : AssetEntity.t :=
  {| AssetEntity.id := id;
     AssetEntity.ownerId := "owner";
     AssetEntity.library := lib;
     AssetEntity.originalPath := "/upload/" +:+ id +:+ ".jpg";
     AssetEntity.originalFileName := id;
     AssetEntity.resizePath := Some ("/thumbs/" +:+ id +:+ ".jpeg");
     AssetEntity.webpPath := Some ("/thumbs/" +:+ id +:+ ".webp");
     AssetEntity.encodedVideoPath := None;
     AssetEntity.sidecarPath := None;
     AssetEntity.isReadOnly := readOnly;
     AssetEntity.isOffline := false;
     AssetEntity.livePhotoVideoId := live;
     AssetEntity.exifInfo := Some (ExifEntity.mk (Some size));
     AssetEntity.stackId := option_map AssetStackEntity.id stack;
     AssetEntity.stack := stack |}.

Definition plain (id : string) (size : Z) : AssetEntity.t :=
  asset id upload size None None false.

(** A service over a table of assets and fixed page streams; the access
    guard grants a permission when every requested id is in [granted]. *)
Definition service (table : list AssetEntity.t) (granted : list string)
    (pages : list (list AssetEntity.t)) : AssetService :=
  {| hasPermission := fun _ _ ids =>
       forallb (fun i => existsb (String.eqb i) granted) ids;
     getById := fun id => find (fun a => String.eqb (AssetEntity.id a) id) table;
     getByIds := fun ids =>
       List.filter (fun a => existsb (String.eqb (AssetEntity.id a)) ids) table;
     getByAlbumId := fun _ => pages;
     getByUserId := fun _ => pages;
     now := 1704824219725 |}.

Definition auth : AuthDto.t := AuthDto.mk "owner".

Definition job (id : string) (fromExternal : option bool) : IAssetDeletionJob.t :=
  IAssetDeletionJob.mk id fromExternal.

(** A three-member and a two-member stack whose primary is [a]. *)
Definition stack3 : AssetStackEntity.t := AssetStackEntity.mk "s3" "a" ["a"; "b"; "c"].
Definition stack2 : AssetStackEntity.t := AssetStackEntity.mk "s2" "a" ["a"; "b"].

Definition primary3 : AssetService :=
  service [asset "a" upload 10 None (Some stack3) false] [] [].
Definition primary2 : AssetService :=
  service [asset "a" upload 10 None (Some stack2) false] [] [].

(** A read-only upload asset. *)
Definition readOnlyStore : AssetService :=
  service [asset "r" upload 10 None None true] [] [].

(** An external asset [p] with a live-photo companion [m] of the same
    external library. *)
Definition livePair : AssetService :=
  service [asset "p" external 10 (Some "m") None false;
           asset "m" external 7 None None false] [] [].

Definition emptyStore : AssetService := service [] ["x"] [].


(** An album whose assets arrive in two pages of one small asset each. *)
Definition twoPages : AssetService :=
  service [] ["album"] [[plain "a1" 5]; [plain "a2" 7]].
Definition albumDto : DownloadInfoDto.t :=
  DownloadInfoDto.mk None (Some "album") None None.

(** A live photo [A] with motion part [M], and a plain asset [B]. *)
Definition liveStore : AssetService :=
  service [asset "A" upload 5 (Some "M") None false; plain "B" 3; plain "M" 2]
          ["A"; "B"] [].
Definition liveDto : DownloadInfoDto.t :=
  DownloadInfoDto.mk (Some ["A"; "B"]) None None None.

(** Five assets of 1 GiB, 1 GiB, 1 GiB, 1.5 GiB and 0.6 GiB (in whole
    bytes), and four assets of 1 GiB. *)
Definition GiB : Z := HumanReadableSize_GiB.
Definition fiveIds : list string := ["1"; "2"; "3"; "4"; "5"].
Definition five : AssetService :=
  service [plain "1" GiB; plain "2" GiB; plain "3" GiB;
           plain "4" 1610612736; plain "5" 644245094] fiveIds [].
Definition fiveDto : DownloadInfoDto.t :=
  DownloadInfoDto.mk (Some fiveIds) None None None.

Definition fourIds : list string := ["1"; "2"; "3"; "4"].
Definition four : AssetService :=
  service [plain "1" GiB; plain "2" GiB; plain "3" GiB; plain "4" GiB] fourIds [].
Definition fourDto : DownloadInfoDto.t :=
  DownloadInfoDto.mk (Some fourIds) None None None.

(** Three uploads that were all called [IMG_1.jpg], and one [IMG_2.jpg]. *)
Definition named (id name : string) : AssetEntity.t :=
  {| AssetEntity.id := id;
     AssetEntity.ownerId := "owner";
     AssetEntity.library := upload;
     AssetEntity.originalPath := "/upload/" +:+ id +:+ ".jpg";
     AssetEntity.originalFileName := name;
     AssetEntity.resizePath := None;
     AssetEntity.webpPath := None;
     AssetEntity.encodedVideoPath := None;
     AssetEntity.sidecarPath := None;
     AssetEntity.isReadOnly := false;
     AssetEntity.isOffline := false;
     AssetEntity.livePhotoVideoId := None;
     AssetEntity.exifInfo := None;
     AssetEntity.stackId := None;
     AssetEntity.stack := None |}.
Definition sameNames : AssetService :=
  service [named "u1" "IMG_1"; named "u2" "IMG_1"; named "u3" "IMG_2"; named "u4" "IMG_1"]
          ["u1"; "u2"; "u3"; "u4"] [].
Definition sameNamesDto : AssetIdsDto.t := AssetIdsDto.mk ["u1"; "u2"; "u3"; "u4"].
(** An extension function for paths that all end in [.jpg]. *)
Definition jpg (path : string) : string := ".jpg".


(** A stack [sx] of [x] and [y] with primary [x], and a loose asset [p]:
    stacking [x] under [p] creates a stack for [p] and marks [sx]. *)
Definition stackX : AssetStackEntity.t := AssetStackEntity.mk "sx" "x" ["x"; "y"].
Definition merge : AssetService :=
  service [asset "x" upload 1 None (Some stackX) false; plain "p" 1] ["x"; "p"] [].
Definition mergeDto : AssetBulkUpdateDto.t :=
  AssetBulkUpdateDto.mk ["x"] None (Some "p") None None None None None.

(** An update of an id that no asset has; [emptyStore] grants the
    permission on it, [emptyStrict] grants nothing. *)
Definition missingDto : AssetBulkUpdateDto.t :=
  AssetBulkUpdateDto.mk ["x"] None None None None None None None.
Definition emptyStrict : AssetService := service [] [] [].

(** [removeParent] together with a [stackParentId] the caller has no
    update permission on. *)
Definition parentDenied : AssetService :=
  service [plain "t" 1; plain "p" 1] ["t"] [].
Definition removeParentDto : AssetBulkUpdateDto.t :=
  AssetBulkUpdateDto.mk ["t"] (Some true) (Some "p") None None None None None.
(** The same request without [removeParent]. *)
Definition stackUnderDeniedDto : AssetBulkUpdateDto.t :=
  AssetBulkUpdateDto.mk ["t"] None (Some "p") None None None None None.

(** The member [b] of the three-member stack whose primary is [a]. *)
Definition memberStore : AssetService :=
  service [asset "b" upload 4 None (Some stack3) false] [] [].

(** A stack [sp] of [p] and [q] with primary [p], and the stack [sx] of
    [x] and [y]: stacking [x] under [p] reuses [sp] and marks [sx]. *)
Definition stackP : AssetStackEntity.t := AssetStackEntity.mk "sp" "p" ["p"; "q"].
Definition reuse : AssetService :=
  service [asset "x" upload 1 None (Some stackX) false;
           asset "p" upload 1 None (Some stackP) false] ["x"; "p"] [].

(** Stacking [x] under [p] with a new capture date. *)
Definition mergeDatedDto : AssetBulkUpdateDto.t :=
  AssetBulkUpdateDto.mk ["x"] None (Some "p") (Some "2024-01-09T18:16:59Z")
    None None None None.

(** Taking [x] out of its stack. *)
Definition unstackDto : AssetBulkUpdateDto.t :=
  AssetBulkUpdateDto.mk ["x"] (Some true) None None None None None None.

End Sample.

(** ** Notions used to state the properties *)

(** [p] is the first element of [l] other than [id]. *)
Definition firstOther (id : string) (l : list string) (p : string) : Prop :=
  ∃ l1 l2, l = l1 ++ p :: l2 ∧ Forall (eq id) l1 ∧ p ≠ id.

(** The calls after the stack step of a deletion that goes through. *)
Definition purgeCalls (asset : AssetEntity.t) (job : IAssetDeletionJob.t) : list Call :=
  [AssetRemove asset;
   UserUpdateUsage (AssetEntity.ownerId asset) (- fileSize asset);
   Send ASSET_DELETE (AssetEntity.ownerId asset) (OneId (IAssetDeletionJob.id job))]
  ++ log (when (truthy_ostring (AssetEntity.livePhotoVideoId asset))
            (call (JobQueue (ASSET_DELETION
               {| IAssetDeletionJob.id := default "" (AssetEntity.livePhotoVideoId asset);
                  IAssetDeletionJob.fromExternal := None |}))))
  ++ log (when (negb (AssetEntity.isReadOnly asset))
            (call (JobQueue (DELETE_FILES
               (deletionFiles asset (IAssetDeletionJob.fromExternal job)))))).

(** The path lists of the file-removal jobs in a call log. *)
Definition fileRemovalJobs (t : list Call) : list (list (option string)) :=
  omap (fun c => match c with JobQueue (DELETE_FILES f) => Some f | _ => None end) t.

(** The asset-deletion jobs enqueued in a call log. *)
Definition deletionJobs (t : list Call) : list IAssetDeletionJob.t :=
  omap (fun c => match c with JobQueue (ASSET_DELETION d) => Some d | _ => None end) t.

(** All asset ids held by a list of archives, in order. *)
Definition allIds (h : list DownloadArchiveInfo.t) : list string :=
  concat (map DownloadArchiveInfo.assetIds h).

(** The companions fetched for a page: [getByIds(motionIds)] when some
    asset of the page has a [livePhotoVideoId]. *)
Definition companionsOf (this : AssetService) (page : list AssetEntity.t)
  : list AssetEntity.t :=
  if (0 <? length (motionIds page))%nat then getByIds this (motionIds page) else [].

(** The loop writes through the reference allocated last. *)
Definition writesLast (st : Batcher) : Prop :=
  ∃ h a, heap st = h ++ [a] ∧ archive st = length h.

(** Within the first page: every archive but the current one has been
    pushed, once, in allocation order. *)
Definition pushedOnce (st : Batcher) : Prop :=
  ∃ h a, heap st = h ++ [a] ∧ archive st = length h ∧ archives st = seq 0 (length h).

(** How many of the [earlier] assets have the combined name [N]. *)
Definition collisions (extname : string -> string) (N : string)
    (earlier : list AssetEntity.t) : nat :=
  length (List.filter (fun b => String.eqb (combinedName extname b) N) earlier).

(** [paths] counts the combined names of the [earlier] assets, for the
    names that [Object.prototype] does not hold. *)
Definition countsNames (extname : string -> string) (paths : gmap string PathValue)
    (earlier : list AssetEntity.t) : Prop :=
  ∀ N, inherited N = None →
       orZero (getPath paths N) = PathNumber (collisions extname N earlier).

(** The three ways the first part of [updateAll] can end. *)
Inductive PlanResult (this : AssetService) (auth : AuthDto.t)
    (dto : AssetBulkUpdateDto.t) : Async StackPlan → Prop :=
| plan_forbidden p :
    truthy_obool (AssetBulkUpdateDto.removeParent dto) = false →
    AssetBulkUpdateDto.stackParentId dto = Some p → p ≠ "" →
    hasPermission this auth PERM_ASSET_UPDATE [p] = false →
    PlanResult this auth dto ([], Thrown Forbidden)
| plan_not_found p :
    truthy_obool (AssetBulkUpdateDto.removeParent dto) = false →
    AssetBulkUpdateDto.stackParentId dto = Some p → p ≠ "" →
    hasPermission this auth PERM_ASSET_UPDATE [p] = true →
    getById this p = None →
    PlanResult this auth dto ([], Thrown AssetNotFound)
| plan_stacked p primaryAsset w plan :
    truthy_obool (AssetBulkUpdateDto.removeParent dto) = false →
    AssetBulkUpdateDto.stackParentId dto = Some p → p ≠ "" →
    hasPermission this auth PERM_ASSET_UPDATE [p] = true →
    getById this p = Some primaryAsset →
    is_stack_write w = true →
    (w = StackCreate {| StackWrite.id := None;
                        StackWrite.primaryAssetId := Some (AssetEntity.id primaryAsset);
                        StackWrite.assets := Some (plan_ids plan) |}
     ∨ ∃ sid, w = StackSave {| StackWrite.id := Some sid;
                               StackWrite.primaryAssetId := Some (AssetEntity.id primaryAsset);
                               StackWrite.assets := Some (plan_ids plan) |}) →
    PlanResult this auth dto ([w], Returned plan)
| plan_unstacked plan :
    (truthy_obool (AssetBulkUpdateDto.removeParent dto) = true
     ∨ (truthy_ostring (AssetBulkUpdateDto.stackParentId dto) = false
        ∧ stackIdsToDelete plan = [])) →
    PlanResult this auth dto ([], Returned plan).

(** ** The remaining operations of the service

    The operations below need collaborators, permissions, calls and
    failures that the operations above do not use; they get types of
    their own, beside [Permission], [Call] and [Exception]. *)

(** *** downloadFile *)

(** The one cache control the service uses. *)
Inductive CacheControl := CacheControl_NONE.

Module ImmichFileResponse.
Record t := mk { path : string; contentType : string; cacheControl : CacheControl }.
End ImmichFileResponse.

(** [lookup] is [mimeTypes.lookup]. *)
Definition downloadFile (lookup : string -> string) (this : AssetService)
    (auth : AuthDto.t) (id : string) : Async ImmichFileResponse.t :=
  await requirePermission this auth PERM_ASSET_DOWNLOAD [id] ;;
  match getByIds this [id] with
  | [] => throw (BadRequest "Asset not found")
  | asset :: _ =>
      if AssetEntity.isOffline asset then throw (BadRequest "Asset is offline")
      else ret {| ImmichFileResponse.path := AssetEntity.originalPath asset;
                  ImmichFileResponse.contentType := lookup (AssetEntity.originalPath asset);
                  ImmichFileResponse.cacheControl := CacheControl_NONE |}
  end.

(** *** Further collaborators *)

(** The permissions asked for below that [Permission] does not list. *)
Inductive AccessPermission :=
| PERM_ASSET_READ
| PERM_ASSET_DELETE
| PERM_ASSET_RESTORE
| PERM_ALBUM_READ
| PERM_TIMELINE_READ
| PERM_ARCHIVE_READ.

Module PartnerEntity.
(** [sharedBy] and [sharedWith] are relations, present when loaded. *)
Record t := mk {
  sharedById : string;
  sharedBy : option string;
  sharedWith : option string;
  inTimeline : bool
}.
End PartnerEntity.

(** - [mayAccess] is the access guard for the further permissions;
    - [getTrashedByUserId user before] is the stream of pages of
      [usePagination] over [getByUserId(_, user, { trashedBefore })];
    - [getAllTrashedBefore before] is the stream of pages over
      [getAll(_, { trashedBefore })];
    - [getPartners] is [partnerRepository.getAll];
    - [trashEnabled], [trashDays] are [config.trash];
    - [minusDays t d] is the date [d] days before [t], as luxon computes it. *)
Record Collaborators := {
  core : AssetService;
  mayAccess : AuthDto.t -> AccessPermission -> list string -> bool;
  getTrashedByUserId : string -> Z -> list (list AssetEntity.t);
  getAllTrashedBefore : Z -> list (list AssetEntity.t);
  getPartners : string -> list PartnerEntity.t;
  trashEnabled : bool;
  trashDays : Z;
  minusDays : Z -> Z -> Z
}.

(** *** updateStackParent *)

Module UpdateStackParentDto.
Record t := mk { oldParentId : string; newParentId : string }.
End UpdateStackParentDto.

(** How [updateStackParent] ends: it returns, a permission check
    throws, or it throws [new Error(msg)]. *)
Inductive StackParentOutcome :=
| StackParentUpdated
| StackParentForbidden
| StackParentError (msg : string).

Definition updateStackParent (c : Collaborators) (auth : AuthDto.t)
    (dto : UpdateStackParentDto.t) : list Call * StackParentOutcome :=
  let oldParentId := UpdateStackParentDto.oldParentId dto in
  let newParentId := UpdateStackParentDto.newParentId dto in
  if negb (mayAccess c auth PERM_ASSET_READ [oldParentId]) then ([], StackParentForbidden)
  else if negb (hasPermission (core c) auth PERM_ASSET_UPDATE [newParentId])
  then ([], StackParentForbidden)
  else
    match getById (core c) oldParentId with
    | None => ([], StackParentError "Asset not found or not in a stack")
    | Some oldParent =>
        if negb (truthy_ostring (AssetEntity.stackId oldParent))
        then ([], StackParentError "Asset not found or not in a stack")
        else
          let childIds :=
            [AssetEntity.id oldParent]
            ++ match AssetEntity.stack oldParent with
               | Some s => AssetStackEntity.assets s
               | None => []
               end in
          ([StackSave {| StackWrite.id := AssetEntity.stackId oldParent;
                         StackWrite.primaryAssetId := Some newParentId;
                         StackWrite.assets := None |};
            Send ASSET_UPDATE (AuthDto.user_id auth)
              (ManyIds (childIds ++ [newParentId; oldParentId]));
            AssetUpdateAll ([oldParentId; newParentId] ++ childIds)
              {| AssetUpdate.isFavorite := None;
                 AssetUpdate.isArchived := None;
                 AssetUpdate.stackParentId := None;
                 AssetUpdate.stack := None;
                 AssetUpdate.updatedAt := Some (now (core c)) |}],
           StackParentUpdated)
    end.

(** *** Trash: deleteAll, restoreAll, handleTrashAction, handleAssetDeletionCheck *)

Inductive TrashEvent := ASSET_TRASH | ASSET_RESTORE.

Inductive TrashCall :=
| SoftDeleteAll (ids : list string)            (* assetRepository.softDeleteAll *)
| RestoreAll (ids : list string)               (* assetRepository.restoreAll *)
| QueueAll (jobs : list JobItem)               (* jobRepository.queueAll *)
| Notify (ev : TrashEvent) (ownerId : string) (ids : list string).
                                               (* communicationRepository.send *)

(** [{ name: JobName.ASSET_DELETION, data: { id } }] *)
Definition deletionJobFor (id : string) : JobItem :=
  ASSET_DELETION {| IAssetDeletionJob.id := id; IAssetDeletionJob.fromExternal := None |}.

Module AssetBulkDeleteDto.
Record t := mk { ids : list string; force : option bool }.
End AssetBulkDeleteDto.

Definition deleteAll (c : Collaborators) (auth : AuthDto.t)
    (dto : AssetBulkDeleteDto.t) : list TrashCall * Outcome unit :=
  let ids := AssetBulkDeleteDto.ids dto in
  if negb (mayAccess c auth PERM_ASSET_DELETE ids) then ([], Thrown Forbidden)
  else if truthy_obool (AssetBulkDeleteDto.force dto)
  then ([QueueAll (map deletionJobFor ids)], Returned tt)
  else ([SoftDeleteAll ids; Notify ASSET_TRASH (AuthDto.user_id auth) ids], Returned tt).

Definition restoreAll (c : Collaborators) (auth : AuthDto.t) (ids : list string)
  : list TrashCall * Outcome unit :=
  if negb (mayAccess c auth PERM_ASSET_RESTORE ids) then ([], Thrown Forbidden)
  else ([RestoreAll ids; Notify ASSET_RESTORE (AuthDto.user_id auth) ids], Returned tt).

Inductive TrashAction := RESTORE_ALL | EMPTY_ALL.

Definition handleTrashAction (c : Collaborators) (auth : AuthDto.t)
    (action : TrashAction) : list TrashCall :=
  let assetPagination :=
    getTrashedByUserId c (AuthDto.user_id auth) (now (core c)) in
  match action with
  | RESTORE_ALL =>
      flat_map (fun assets =>
                  let ids := map AssetEntity.id assets in
                  [RestoreAll ids; Notify ASSET_RESTORE (AuthDto.user_id auth) ids])
        assetPagination
  | EMPTY_ALL =>
      map (fun assets =>
             QueueAll (map (fun asset => deletionJobFor (AssetEntity.id asset)) assets))
        assetPagination
  end.

Definition handleAssetDeletionCheck (c : Collaborators) : list TrashCall * bool :=
  let trashedDays := if trashEnabled c then trashDays c else 0 in
  let trashedBefore := minusDays c (now (core c)) trashedDays in
  (map (fun assets =>
          QueueAll (map (fun asset => deletionJobFor (AssetEntity.id asset)) assets))
     (getAllTrashedBefore c trashedBefore),
   true).

(** *** Time buckets: timeBucketChecks, buildTimeBucketOptions *)

Module TimeBucketDto.
Record t := mk {
  userId : option string;
  albumId : option string;
  isArchived : option bool;
  isFavorite : option bool;
  isTrashed : option bool;
  withPartners : option bool
}.
End TimeBucketDto.

Module TimeBucketOptions.
Record t := mk {
  albumId : option string;
  isArchived : option bool;
  isFavorite : option bool;
  isTrashed : option bool;
  withPartners : option bool;
  userIds : option (list string)
}.
End TimeBucketOptions.

Definition requireAccess (c : Collaborators) (auth : AuthDto.t)
    (p : AccessPermission) (ids : list string) : Async unit :=
  if mayAccess c auth p ids then ret tt else throw Forbidden.

(** [timeBucketChecks] assigns [dto.userId]; the checked request is
    returned. *)
Definition timeBucketChecks (c : Collaborators) (auth : AuthDto.t)
    (dto : TimeBucketDto.t) : Async TimeBucketDto.t :=
  let* userId :=
    if truthy_ostring (TimeBucketDto.albumId dto) then
      await requireAccess c auth PERM_ALBUM_READ [default "" (TimeBucketDto.albumId dto)] ;;
      ret (TimeBucketDto.userId dto)
    else
      ret (if truthy_ostring (TimeBucketDto.userId dto) then TimeBucketDto.userId dto
           else Some (AuthDto.user_id auth)) in
  await when (truthy_ostring userId)
          (await requireAccess c auth PERM_TIMELINE_READ [default "" userId] ;;
           when (negb match TimeBucketDto.isArchived dto with
                      | Some false => true
                      | _ => false
                      end)
             (requireAccess c auth PERM_ARCHIVE_READ [default "" userId])) ;;
  await when (truthy_obool (TimeBucketDto.withPartners dto))
          (let requestedArchived :=
             match TimeBucketDto.isArchived dto with
             | Some true | None => true
             | Some false => false
             end in
           let requestedFavorite :=
             match TimeBucketDto.isFavorite dto with
             | Some _ => true
             | None => false
             end in
           let requestedTrash :=
             match TimeBucketDto.isTrashed dto with
             | Some true => true
             | _ => false
             end in
           if requestedArchived || requestedFavorite || requestedTrash
           then throw (BadRequest
             "withPartners is only supported for non-archived, non-trashed, non-favorited assets")
           else ret tt) ;;
  ret {| TimeBucketDto.userId := userId;
         TimeBucketDto.albumId := TimeBucketDto.albumId dto;
         TimeBucketDto.isArchived := TimeBucketDto.isArchived dto;
         TimeBucketDto.isFavorite := TimeBucketDto.isFavorite dto;
         TimeBucketDto.isTrashed := TimeBucketDto.isTrashed dto;
         TimeBucketDto.withPartners := TimeBucketDto.withPartners dto |}.

(** [partner.sharedBy && partner.sharedWith && partner.inTimeline] *)
Definition inTimelinePartner (partner : PartnerEntity.t) : bool :=
  match PartnerEntity.sharedBy partner, PartnerEntity.sharedWith partner with
  | Some _, Some _ => PartnerEntity.inTimeline partner
  | _, _ => false
  end.

Definition buildTimeBucketOptions (c : Collaborators) (auth : AuthDto.t)
    (dto : TimeBucketDto.t) : TimeBucketOptions.t :=
  let userIds :=
    if truthy_ostring (TimeBucketDto.userId dto) then
      let userIds := [default "" (TimeBucketDto.userId dto)] in
      if truthy_obool (TimeBucketDto.withPartners dto) then
        let partners := getPartners c (AuthDto.user_id auth) in
        let partnersIds :=
          map PartnerEntity.sharedById (List.filter inTimelinePartner partners) in
        Some (userIds ++ partnersIds)
      else Some userIds
    else None in
  {| TimeBucketOptions.albumId := TimeBucketDto.albumId dto;
     TimeBucketOptions.isArchived := TimeBucketDto.isArchived dto;
     TimeBucketOptions.isFavorite := TimeBucketDto.isFavorite dto;
     TimeBucketOptions.isTrashed := TimeBucketDto.isTrashed dto;
     TimeBucketOptions.withPartners := TimeBucketDto.withPartners dto;
     TimeBucketOptions.userIds := userIds |}.

(** [getTimeBuckets] and [getTimeBucket] up to the options they hand to
    the asset repository. *)
Definition getTimeBuckets (c : Collaborators) (auth : AuthDto.t)
    (dto : TimeBucketDto.t) : Async TimeBucketOptions.t :=
  let* dto := timeBucketChecks c auth dto in
  ret (buildTimeBucketOptions c auth dto).

(** *** getMemoryLane *)

(** An integer in a template literal: its decimal digits, after a minus
    sign when it is negative. *)
Definition numberToString (n : Z) : string :=
  if n <? 0 then "-" +:+ decimal (Z.to_nat (- n)) else decimal (Z.to_nat n).

(** [`${years} year${years > 1 ? 's' : ''} since...`] *)
Definition memoryTitle (years : Z) : string :=
  numberToString years +:+ " year" +:+ (if 1 <? years then "s" else "") +:+ " since...".

(** lodash's [groupBy] into an object whose keys are not integer-like:
    the groups in the order in which their keys first occur, each with
    its items in order. *)
Fixpoint groupInsert {X} (key : string) (x : X) (groups : list (string * list X))
  : list (string * list X) :=
  match groups with
  | [] => [(key, [x])]
  | (k, items) :: rest =>
      if String.eqb k key then (k, items ++ [x]) :: rest
      else (k, items) :: groupInsert key x rest
  end.

Definition groupBy {X} (f : X -> string) (xs : list X) : list (string * list X) :=
  fold_left (fun groups x => groupInsert (f x) x groups) xs [].

Module MemoryLaneResponseDto.
Record t (Dto : Type) := mk { title : string; assets : list Dto }.
Arguments mk {Dto} title assets.
Arguments title {Dto} t.
Arguments assets {Dto} t.
End MemoryLaneResponseDto.

(** [getMemoryLane] over the assets that [getByDayOfYear] returns;
    [getFullYear] is [asset.localDateTime.getFullYear()], [mapAsset] the
    response mapping, [currentYear] is [new Date().getFullYear()]. *)
Definition getMemoryLane {Asset Dto : Type} (getFullYear : Asset -> Z)
    (mapAsset : Asset -> Dto) (currentYear : Z) (assets : list Asset)
  : list (MemoryLaneResponseDto.t Dto) :=
  map (fun '(title, items) =>
         MemoryLaneResponseDto.mk title (map snd items))
    (groupBy fst
       (map (fun asset =>
               let years := currentYear - getFullYear asset in
               (memoryTitle years, mapAsset asset))
          (List.filter (fun asset => getFullYear asset <? currentYear) assets))).

(** ** Sample collaborators *)

Module Fixture.
(** Collaborators over [merge] that grant every further permission, with
    two pages of trash and a 30 day retention. *)
Definition collaborators : Collaborators :=
  {| core := Sample.merge;
     mayAccess := fun _ _ _ => true;
     getTrashedByUserId := fun _ _ =>
       [[Sample.plain "t1" 1; Sample.plain "t2" 1]; [Sample.plain "t3" 1]];
     getAllTrashedBefore := fun _ => [[Sample.plain "t1" 1]; [Sample.plain "t3" 1]];
     getPartners := fun _ =>
       [PartnerEntity.mk "friend" (Some "friend") (Some "owner") true;
        PartnerEntity.mk "hidden" (Some "hidden") (Some "owner") false];
     trashEnabled := true;
     trashDays := 30;
     minusDays := fun t d => t - d * 86400000 |}.
Definition forceDeleteDto : AssetBulkDeleteDto.t :=
  AssetBulkDeleteDto.mk ["e1"; "e2"] (Some true).
Definition reparentDto : UpdateStackParentDto.t := UpdateStackParentDto.mk "x" "p".
Definition partnersDto : TimeBucketDto.t :=
  TimeBucketDto.mk None None (Some false) None None (Some true).

End Fixture.

(** ** Notions for the further properties *)

Definition is_job_queue (c : Call) : bool :=
  match c with
  | JobQueue _ => true
  | _ => false
  end.

(** The ids of the stacks a call log deletes, in order. *)
Definition deletedStacks (t : list Call) : list string :=
  omap (fun c => match c with StackDelete s => Some s | _ => None end) t.

(** The paths handed to [zip.addFile], in order. *)
Definition zipPaths (t : list Call) : list string :=
  omap (fun c => match c with ZipAddFile p _ => Some p | _ => None end) t.

(** The recorded sizes of a list of assets, summed. *)
Definition totalFileSize (xs : list AssetEntity.t) : Z :=
  fold_right Z.add 0 (map fileSize xs).

(** The sizes of a list of archives, summed. *)
Definition totalArchived (h : list DownloadArchiveInfo.t) : Z :=
  fold_right Z.add 0 (map DownloadArchiveInfo.size h).

(** The state of the batcher while the first page [xs] is being added,
    target [T]: every archive but the current one is closed, non-empty,
    over the target and pushed once; the current one is fresh, or
    non-empty and within the target; no byte is lost. *)
Definition firstPage (T : Z) (xs : list AssetEntity.t) (st : Batcher) : Prop :=
  ∃ h a,
    heap st = h ++ [a]
    ∧ archive st = length h
    ∧ archives st = seq 0 (length h)
    ∧ Forall (fun b => T < DownloadArchiveInfo.size b
                       ∧ DownloadArchiveInfo.assetIds b ≠ []) h
    ∧ (a = emptyArchive
       ∨ (DownloadArchiveInfo.assetIds a ≠ [] ∧ DownloadArchiveInfo.size a ≤ T))
    ∧ totalArchived (h ++ [a]) = totalFileSize xs.

(** Every pushed reference points into the heap, at a non-empty archive. *)
Definition pushedNonEmpty (st : Batcher) : Prop :=
  Forall (fun r => (r < length (heap st))%nat
                   ∧ DownloadArchiveInfo.assetIds (deref (heap st) r) ≠ [])
    (archives st).

Definition is_zip_add (c : Call) : bool :=
  match c with
  | ZipAddFile _ _ => true
  | _ => false
  end.

(** The metadata record [updateAll] hands to [updateMetadata] for an id. *)
Definition metadataOf (dto : AssetBulkUpdateDto.t) (id : string) : ISidecarWriteJob.t :=
  {| ISidecarWriteJob.id := id;
     ISidecarWriteJob.description := None;
     ISidecarWriteJob.dateTimeOriginal := AssetBulkUpdateDto.dateTimeOriginal dto;
     ISidecarWriteJob.latitude := AssetBulkUpdateDto.latitude dto;
     ISidecarWriteJob.longitude := AssetBulkUpdateDto.longitude dto |}.

(** Whether the request carries a date or a coordinate to write. *)
Definition hasMetadata (dto : AssetBulkUpdateDto.t) : bool :=
  match AssetBulkUpdateDto.dateTimeOriginal dto,
        AssetBulkUpdateDto.latitude dto,
        AssetBulkUpdateDto.longitude dto with
  | None, None, None => false
  | _, _, _ => true
  end.

(** The exif writes and the sidecar jobs of a call log, in order. *)
Definition exifWrites (t : list Call) : list ISidecarWriteJob.t :=
  omap (fun c => match c with AssetUpsertExif e => Some e | _ => None end) t.

Definition sidecarJobs (t : list Call) : list ISidecarWriteJob.t :=
  omap (fun c => match c with JobQueue (SIDECAR_WRITE e) => Some e | _ => None end) t.

(** The bulk updates and the notifications of a call log, in order. *)
Definition bulkUpdates (t : list Call) : list (list string * AssetUpdate.t) :=
  omap (fun c => match c with AssetUpdateAll ids o => Some (ids, o) | _ => None end) t.

Definition notifications (t : list Call) : list (ClientEvent * string * Payload) :=
  omap (fun c => match c with Send ev owner p => Some (ev, owner, p) | _ => None end) t.

(** The stack writes of a call log, in order. *)
Definition stackWrites (t : list Call) : list Call := List.filter is_stack_write t.

(** The jobs, the restored pages and the notifications of a log of the
    trash operations, in order. *)
Definition queuedJobs (t : list TrashCall) : list JobItem :=
  flat_map (fun c => match c with QueueAll jobs => jobs | _ => [] end) t.

Definition restoredPages (t : list TrashCall) : list (list string) :=
  omap (fun c => match c with RestoreAll ids => Some ids | _ => None end) t.

Definition notifiedPages (t : list TrashCall) : list (TrashEvent * string * list string) :=
  omap (fun c => match c with Notify ev owner ids => Some (ev, owner, ids) | _ => None end) t.

Definition softDeleted (t : list TrashCall) : list (list string) :=
  omap (fun c => match c with SoftDeleteAll ids => Some ids | _ => None end) t.

(** The user whose timeline a time-bucket request reads: with an album
    the requested [userId], if any; without one the requested [userId] or
    else the caller. *)
Definition timelineUser (auth : AuthDto.t) (dto : TimeBucketDto.t) : option string :=
  if truthy_ostring (TimeBucketDto.albumId dto) then TimeBucketDto.userId dto
  else if truthy_ostring (TimeBucketDto.userId dto) then TimeBucketDto.userId dto
  else Some (AuthDto.user_id auth).

(** What [timeBucketChecks] asks of a request. *)
Definition timeBucketAllowed (c : Collaborators) (auth : AuthDto.t)
    (dto : TimeBucketDto.t) : Prop :=
  (truthy_ostring (TimeBucketDto.albumId dto) = true →
   mayAccess c auth PERM_ALBUM_READ [default "" (TimeBucketDto.albumId dto)] = true)
  ∧ (truthy_ostring (timelineUser auth dto) = true →
     mayAccess c auth PERM_TIMELINE_READ [default "" (timelineUser auth dto)] = true
     ∧ (TimeBucketDto.isArchived dto ≠ Some false →
        mayAccess c auth PERM_ARCHIVE_READ [default "" (timelineUser auth dto)] = true))
  ∧ (truthy_obool (TimeBucketDto.withPartners dto) = true →
     TimeBucketDto.isArchived dto = Some false
     ∧ TimeBucketDto.isFavorite dto = None
     ∧ TimeBucketDto.isTrashed dto ≠ Some true).

(** No character of the string is a space. *)
Fixpoint noSpace (s : string) : bool :=
  match s with
  | EmptyString => true
  | String c rest => negb (Ascii.eqb c " "%char) && noSpace rest
  end.

(** The groups [groups] are those of [xs] under [f]: no key twice, each
    group holds the items of its key in order and is not empty, and every
    item has a group. *)
Definition groupsOf {X} (f : X -> string) (xs : list X)
    (groups : list (string * list X)) : Prop :=
  NoDup (map fst groups)
  ∧ (∀ k items, (k, items) ∈ groups →
                items = List.filter (fun x => String.eqb (f x) k) xs ∧ items ≠ [])
  ∧ (∀ x, x ∈ xs → f x ∈ map fst groups).

(** Every archive before the current one has been pushed, and so has
    the current one when [whole] holds and it is not empty. *)
Definition allPushed (whole : bool) (st : Batcher) : Prop :=
  ∃ h a,
    heap st = h ++ [a]
    ∧ archive st = length h
    ∧ (∀ r, (r < length h)%nat → r ∈ archives st)
    ∧ (whole = true → DownloadArchiveInfo.assetIds a ≠ [] → length h ∈ archives st).

(** * Properties *)

(** ** Asset deletion *)

Lemma find_firstOther id l p :
  find (fun a => negb (String.eqb a id)) l = Some p ↔ firstOther id l p.
Proof.
  induction l as [|x l IH]; simpl.
  - split; [discriminate|]. intros (l1 & l2 & E & _). by destruct l1.
  - destruct (String.eqb_spec x id) as [->|Hne]; simpl.
    + rewrite IH. split.
      * intros (l1 & l2 & -> & Hall & Hp).
        exists (id :: l1), l2. repeat split; [by constructor | done].
      * intros (l1 & l2 & E & Hall & Hp).
        destruct l1 as [|y l1]; simpl in E.
        { injection E as -> _. done. }
        injection E as _ ->. inversion Hall; subst.
        by exists l1, l2.
    + split.
      * intros [= ->]. exists [], l. repeat split; [constructor | done].
      * intros (l1 & l2 & E & Hall & Hp).
        destruct l1 as [|y l1]; simpl in E.
        { by injection E as -> _. }
        injection E as -> _. inversion Hall; subst. done.
Qed.

Lemma replaceStackParent_returns asset id :
  outcome (replaceStackParent asset id) = Returned tt.
Proof.
  unfold replaceStackParent.
  destruct (AssetEntity.stack asset) as [s|]; [|done].
  destruct (String.eqb _ id); [|done].
  by destruct (2 <? _).
Qed.

Lemma handleAssetDeletion_absent this job :
  getById this (IAssetDeletionJob.id job) = None →
  handleAssetDeletion this job = ([], Returned false).
Proof. intros H. unfold handleAssetDeletion. by rewrite H. Qed.

Lemma handleAssetDeletion_skipped this job asset :
  getById this (IAssetDeletionJob.id job) = Some asset →
  truthy_obool (IAssetDeletionJob.fromExternal job) = false →
  noLibraryOrExternal asset = true →
  handleAssetDeletion this job = ([], Returned false).
Proof. intros H F L. unfold handleAssetDeletion. by rewrite H, F, L. Qed.

Lemma handleAssetDeletion_purges this job asset :
  getById this (IAssetDeletionJob.id job) = Some asset →
  negb (truthy_obool (IAssetDeletionJob.fromExternal job)) && noLibraryOrExternal asset = false →
  handleAssetDeletion this job =
    (log (replaceStackParent asset (IAssetDeletionJob.id job)) ++ purgeCalls asset job,
     Returned true).
Proof.
  intros H E. unfold handleAssetDeletion. rewrite H, E.
  pose proof (replaceStackParent_returns asset (IAssetDeletionJob.id job)) as R.
  destruct (replaceStackParent asset (IAssetDeletionJob.id job)) as [t o].
  simpl in R. subst o. unfold purgeCalls.
  destruct (truthy_ostring (AssetEntity.livePhotoVideoId asset));
    destruct (AssetEntity.isReadOnly asset); reflexivity.
Qed.

(** Whatever the store holds, a deletion job is skipped, or it purges. *)
Lemma handleAssetDeletion_cases this job :
  handleAssetDeletion this job = ([], Returned false)
  ∨ ∃ asset,
      getById this (IAssetDeletionJob.id job) = Some asset
      ∧ negb (truthy_obool (IAssetDeletionJob.fromExternal job))
        && noLibraryOrExternal asset = false
      ∧ handleAssetDeletion this job =
          (log (replaceStackParent asset (IAssetDeletionJob.id job)) ++ purgeCalls asset job,
           Returned true).
Proof.
  destruct (getById this (IAssetDeletionJob.id job)) as [asset|] eqn:H.
  - destruct (negb (truthy_obool (IAssetDeletionJob.fromExternal job))
              && noLibraryOrExternal asset) eqn:E.
    + left. unfold handleAssetDeletion. by rewrite H, E.
    + right. exists asset. eauto using handleAssetDeletion_purges.
  - left. by apply handleAssetDeletion_absent.
Qed.

(** C1. When the deleted asset is the primary of its stack: a stack of
    more than two members is saved with [primaryAssetId] set to the first
    member id other than the deleted asset's id, and no stack is deleted;
    a stack of two or fewer members is deleted. *)
Theorem C1_primary_deletion_promotes_or_dissolves this job asset stack :
  getById this (IAssetDeletionJob.id job) = Some asset →
  negb (truthy_obool (IAssetDeletionJob.fromExternal job)) && noLibraryOrExternal asset = false →
  AssetEntity.id asset = IAssetDeletionJob.id job →
  AssetEntity.stack asset = Some stack →
  AssetStackEntity.primaryAssetId stack = AssetEntity.id asset →
  let t := log (handleAssetDeletion this job) in
  let members := AssetStackEntity.assets stack in
  ((2 < length members)%nat →
     (∃ w, StackSave {| StackWrite.id := Some (AssetStackEntity.id stack);
                        StackWrite.primaryAssetId := w;
                        StackWrite.assets := None |} ∈ t
           ∧ ∀ p, w = Some p ↔ firstOther (AssetEntity.id asset) members p)
     ∧ ∀ c, c ∈ t → is_stack_delete c = false)
  ∧ ((length members ≤ 2)%nat → StackDelete (AssetStackEntity.id stack) ∈ t).
Proof.
  intros Hget Hel Hid Hst Hprim t members.
  subst t. rewrite (handleAssetDeletion_purges _ _ _ Hget Hel). simpl.
  unfold replaceStackParent. rewrite Hst, Hprim, Hid, String.eqb_refl.
  fold members. split; intros Hlen.
  - assert ((2 <? Z.of_nat (length members)) = true) as -> by (apply Z.ltb_lt; lia).
    split.
    + eexists. split; [simpl; apply list_elem_of_here|].
      intros p. apply find_firstOther.
    + intros c Hc. simpl in Hc. unfold purgeCalls in Hc.
      destruct (truthy_ostring _), (AssetEntity.isReadOnly asset); simpl in Hc;
        repeat (apply elem_of_cons in Hc as [->|Hc]; [reflexivity|]);
        by apply elem_of_nil in Hc.
  - assert ((2 <? Z.of_nat (length members)) = false) as -> by (apply Z.ltb_ge; lia).
    simpl. apply list_elem_of_here.
Qed.

Lemma C1_primary_deletion_witness :
  (∀ c, c ∈ log (handleAssetDeletion Sample.primary3 (Sample.job "a" None)) →
        is_stack_delete c = false)
  ∧ StackDelete "s2" ∈ log (handleAssetDeletion Sample.primary2 (Sample.job "a" None)).
Proof.
  split.
  - apply (C1_primary_deletion_promotes_or_dissolves
             Sample.primary3 (Sample.job "a" None)
             (Sample.asset "a" Sample.upload 10 None (Some Sample.stack3) false)
             Sample.stack3); try reflexivity; simpl; lia.
  - apply (C1_primary_deletion_promotes_or_dissolves
             Sample.primary2 (Sample.job "a" None)
             (Sample.asset "a" Sample.upload 10 None (Some Sample.stack2) false)
             Sample.stack2); try reflexivity; simpl; lia.
Defined.

(** C4. A deletion job whose asset is absent, or whose asset has no
    library or an external one while the job is not flagged
    [fromExternal], returns [false] and makes no call at all; the handler
    never throws, and it returns [true] exactly when the asset row is
    removed. *)
Theorem C4_deletion_skips_without_mutation this job :
  let r := handleAssetDeletion this job in
  (getById this (IAssetDeletionJob.id job) = None → r = ([], Returned false))
  ∧ (∀ asset,
       getById this (IAssetDeletionJob.id job) = Some asset →
       truthy_obool (IAssetDeletionJob.fromExternal job) = false →
       noLibraryOrExternal asset = true →
       r = ([], Returned false))
  ∧ (∃ b, outcome r = Returned b)
  ∧ (outcome r = Returned true ↔ ∃ a, AssetRemove a ∈ log r)
  ∧ (outcome r = Returned false → log r = []).
Proof.
  intros r. subst r.
  split; [apply handleAssetDeletion_absent|].
  split; [apply handleAssetDeletion_skipped|].
  destruct (handleAssetDeletion_cases this job) as [->|(asset & _ & _ & ->)]; simpl.
  - split; [eauto|]. split; [|done].
    split; [done|]. by intros [a ?%elem_of_nil].
  - split; [eauto|]. split; [|done].
    split; [|done]. intros _. exists asset.
    apply elem_of_app. right. apply list_elem_of_here.
Qed.

Lemma C4_deletion_skips_witness :
  handleAssetDeletion Sample.emptyStore (Sample.job "gone" None) = ([], Returned false)
  ∧ handleAssetDeletion Sample.livePair (Sample.job "m" None) = ([], Returned false).
Proof.
  split.
  - apply (C4_deletion_skips_without_mutation Sample.emptyStore (Sample.job "gone" None)).
    reflexivity.
  - apply (proj1 (proj2 (C4_deletion_skips_without_mutation
                           Sample.livePair (Sample.job "m" None)))
             (Sample.asset "m" Sample.external 7 None None false));
      reflexivity.
Defined.

(** C5, as the claim states it, fails on a read-only asset: the asset is
    purged and no file-removal job is enqueued. *)
Lemma C5_read_only_counterexample :
  outcome (handleAssetDeletion Sample.readOnlyStore (Sample.job "r" None)) = Returned true
  ∧ ∀ files,
      JobQueue (DELETE_FILES files)
        ∉ log (handleAssetDeletion Sample.readOnlyStore (Sample.job "r" None)).
Proof.
  split; [reflexivity|].
  intros files H. vm_compute in H.
  repeat (apply elem_of_cons in H as [H|H]; [discriminate H|]).
  by apply elem_of_nil in H.
Qed.

(** C5, amended. For a purged asset that is not read-only, exactly one
    file-removal job is enqueued; its path list is the four derived paths
    [webpPath, resizePath, encodedVideoPath, sidecarPath], followed by
    [originalPath] when the job is not flagged [fromExternal] and by
    nothing when it is.  For a purged read-only asset no file-removal job
    is enqueued. *)
Theorem C5_file_removal_job this job asset :
  getById this (IAssetDeletionJob.id job) = Some asset →
  outcome (handleAssetDeletion this job) = Returned true →
  fileRemovalJobs (log (handleAssetDeletion this job)) =
    if AssetEntity.isReadOnly asset then []
    else [[AssetEntity.webpPath asset; AssetEntity.resizePath asset;
           AssetEntity.encodedVideoPath asset; AssetEntity.sidecarPath asset]
          ++ (if truthy_obool (IAssetDeletionJob.fromExternal job) then []
              else [Some (AssetEntity.originalPath asset)])].
Proof.
  intros Hget Hout.
  destruct (handleAssetDeletion_cases this job) as [E|(a & Ha & _ & E)];
    rewrite E in *; [discriminate|].
  rewrite Hget in Ha. injection Ha as <-. simpl.
  unfold fileRemovalJobs. rewrite omap_app.
  assert (omap (fun c => match c with
                         | JobQueue (DELETE_FILES f) => Some f
                         | _ => None
                         end)
            (log (replaceStackParent asset (IAssetDeletionJob.id job))) = []) as ->.
  { unfold replaceStackParent.
    destruct (AssetEntity.stack asset); [|done].
    destruct (String.eqb _ _); [|done]. by destruct (2 <? _). }
  unfold purgeCalls, deletionFiles. simpl.
  destruct (truthy_ostring _), (AssetEntity.isReadOnly asset),
    (truthy_obool (IAssetDeletionJob.fromExternal job)); reflexivity.
Qed.

Lemma C5_file_removal_witness :
  fileRemovalJobs (log (handleAssetDeletion Sample.livePair (Sample.job "p" (Some true)))) =
    [[Some "/thumbs/p.webp"; Some "/thumbs/p.jpeg"; None; None]].
Proof.
  apply (C5_file_removal_job Sample.livePair (Sample.job "p" (Some true))
           (Sample.asset "p" Sample.external 10 (Some "m") None false));
    reflexivity.
Defined.

(** C10. The deletion job enqueued for the live-photo companion of a
    purged asset carries the companion's id and no [fromExternal] flag,
    whatever the flag of the originating job; so when the companion has no
    library or an external one, its own job returns [false] without any
    call: the companion is not purged. *)
Theorem C10_companion_job_drops_fromExternal this job asset m :
  getById this (IAssetDeletionJob.id job) = Some asset →
  outcome (handleAssetDeletion this job) = Returned true →
  AssetEntity.livePhotoVideoId asset = Some m →
  m ≠ "" →
  deletionJobs (log (handleAssetDeletion this job)) =
    [{| IAssetDeletionJob.id := m; IAssetDeletionJob.fromExternal := None |}]
  ∧ ∀ this' companion,
      getById this' m = Some companion →
      noLibraryOrExternal companion = true →
      handleAssetDeletion this'
        {| IAssetDeletionJob.id := m; IAssetDeletionJob.fromExternal := None |}
      = ([], Returned false).
Proof.
  intros Hget Hout Hlive Hm. split.
  - destruct (handleAssetDeletion_cases this job) as [E|(a & Ha & _ & E)];
      rewrite E in *; [discriminate|].
    rewrite Hget in Ha. injection Ha as <-. simpl.
    unfold deletionJobs. rewrite omap_app.
    assert (omap (fun c => match c with
                           | JobQueue (ASSET_DELETION d) => Some d
                           | _ => None
                           end)
              (log (replaceStackParent asset (IAssetDeletionJob.id job))) = []) as ->.
    { unfold replaceStackParent.
      destruct (AssetEntity.stack asset); [|done].
      destruct (String.eqb _ _); [|done]. by destruct (2 <? _). }
    unfold purgeCalls. rewrite Hlive. simpl. unfold truthy_string.
    destruct (String.eqb_spec m "") as [->|_]; [done|].
    by destruct (AssetEntity.isReadOnly asset).
  - intros this' companion Hc Hlib.
    by apply (handleAssetDeletion_skipped this' _ companion).
Qed.

Lemma C10_companion_job_witness :
  deletionJobs (log (handleAssetDeletion Sample.livePair (Sample.job "p" (Some true)))) =
    [Sample.job "m" None]
  ∧ handleAssetDeletion Sample.livePair (Sample.job "m" None) = ([], Returned false).
Proof.
  pose proof (C10_companion_job_drops_fromExternal
                Sample.livePair (Sample.job "p" (Some true))
                (Sample.asset "p" Sample.external 10 (Some "m") None false) "m"
                eq_refl eq_refl eq_refl ltac:(discriminate)) as [H1 H2].
  split; [exact H1|].
  exact (H2 Sample.livePair (Sample.asset "m" Sample.external 7 None None false)
            eq_refl eq_refl).
Defined.

(** ** Download archives *)

Lemma deref_last h a : deref (h ++ [a]) (length h) = a.
Proof. unfold deref. by rewrite list_lookup_middle. Qed.

Lemma deref_seq_prefix h h2 : map (deref (h ++ h2)) (seq 0 (length h)) = h.
Proof.
  revert h2. induction h as [|x h IH] using rev_ind; intros h2; [done|].
  rewrite length_app, Nat.add_1_r, seq_S, map_app, <- app_assoc, IH. simpl.
  unfold deref. by rewrite list_lookup_middle.
Qed.

Lemma deref_seq h : map (deref h) (seq 0 (length h)) = h.
Proof. rewrite <- (app_nil_r h) at 1. apply deref_seq_prefix. Qed.

Lemma deref_seq_front h a : map (deref (h ++ [a])) (seq 0 (length h)) = h.
Proof. apply deref_seq_prefix. Qed.

Lemma allIds_app h1 h2 : allIds (h1 ++ h2) = allIds h1 ++ allIds h2.
Proof. unfold allIds. by rewrite map_app, concat_app. Qed.

(** One turn of the inner loop, when the loop writes through the last
    reference. *)
Lemma addAsset_last T st h a x :
  heap st = h ++ [a] → archive st = length h →
  addAsset T st x =
    if T <? DownloadArchiveInfo.size a + fileSize x
    then {| heap := h ++ [addToArchive x a; emptyArchive];
            archives := archives st ++ [length h];
            archive := S (length h) |}
    else {| heap := h ++ [addToArchive x a];
            archives := archives st;
            archive := length h |}.
Proof.
  intros Hh Ha. unfold addAsset. rewrite Hh, Ha.
  replace (alter (addToArchive x) (length h) (h ++ [a])) with (h ++ [addToArchive x a]).
  2:{ rewrite <- (Nat.add_0_r (length h)) at 1. by rewrite alter_app_r. }
  rewrite deref_last. simpl.
  destruct (T <? _); [|done].
  rewrite <- app_assoc. simpl. f_equal.
  rewrite length_app. simpl. lia.
Qed.

Lemma addAsset_writesLast T st x :
  writesLast st →
  writesLast (addAsset T st x)
  ∧ allIds (heap (addAsset T st x)) = allIds (heap st) ++ [AssetEntity.id x].
Proof.
  intros (h & a & Hh & Ha). rewrite (addAsset_last T st h a x Hh Ha), Hh.
  destruct (T <? _); simpl.
  - split.
    + exists (h ++ [addToArchive x a]), emptyArchive. simpl.
      rewrite <- app_assoc, length_app. simpl. split; [done | lia].
    + rewrite !allIds_app. unfold allIds. simpl.
      by rewrite !app_nil_r, app_assoc.
  - split; [by exists h, (addToArchive x a)|].
    rewrite !allIds_app. unfold allIds. simpl.
    by rewrite !app_nil_r, app_assoc.
Qed.

Lemma addAssets_writesLast T xs st :
  writesLast st →
  writesLast (fold_left (addAsset T) xs st)
  ∧ allIds (heap (fold_left (addAsset T) xs st))
    = allIds (heap st) ++ map AssetEntity.id xs.
Proof.
  revert st. induction xs as [|x xs IH]; intros st Hst; simpl.
  - by rewrite app_nil_r.
  - destruct (addAsset_writesLast T st x Hst) as [H1 H2].
    destruct (IH _ H1) as [H3 H4]. split; [done|].
    by rewrite H4, H2, <- app_assoc.
Qed.

Lemma addAsset_pushedOnce T st x : pushedOnce st → pushedOnce (addAsset T st x).
Proof.
  intros (h & a & Hh & Ha & Hp). rewrite (addAsset_last T st h a x Hh Ha).
  destruct (T <? _).
  - exists (h ++ [addToArchive x a]), emptyArchive. simpl.
    rewrite <- app_assoc, length_app, Hp. simpl.
    rewrite Nat.add_1_r, seq_S. by repeat split.
  - by exists h, (addToArchive x a).
Qed.

Lemma addAssets_pushedOnce T xs st :
  pushedOnce st → pushedOnce (fold_left (addAsset T) xs st).
Proof.
  revert st. induction xs as [|x xs IH]; intros st Hst; simpl; [done|].
  by apply IH, addAsset_pushedOnce.
Qed.

Lemma withMotion_companions this page :
  withMotion this page = page ++ companionsOf this page.
Proof.
  unfold withMotion, companionsOf.
  destruct (0 <? length (motionIds page))%nat; [done | by rewrite app_nil_r].
Qed.

Lemma processPage_writesLast this T st page :
  writesLast st →
  writesLast (processPage this T st page)
  ∧ allIds (heap (processPage this T st page))
    = allIds (heap st) ++ map AssetEntity.id (page ++ companionsOf this page).
Proof.
  intros Hst. unfold processPage.
  destruct (addAssets_writesLast T (withMotion this page) st Hst) as [H1 H2].
  rewrite withMotion_companions in *.
  destruct (0 <? length _)%nat; simpl; [|done].
  split; [|done]. destruct H1 as (h & a & Hh & Ha). by exists h, a.
Qed.

Lemma batchPages_ids this T pages st :
  writesLast st →
  allIds (heap (fold_left (processPage this T) pages st))
  = allIds (heap st)
    ++ concat (map (fun page => map AssetEntity.id (page ++ companionsOf this page)) pages).
Proof.
  revert st. induction pages as [|page pages IH]; intros st Hst; simpl.
  - by rewrite app_nil_r.
  - destruct (processPage_writesLast this T st page Hst) as [H1 H2].
    by rewrite (IH _ H1), H2, <- app_assoc.
Qed.

(** The output of a single page holds every archive of the heap once, in
    allocation order, the last one left out when it is empty. *)
Lemma singlePage_output this T page :
  let st := batchPages this T [page] in
  allIds (DownloadResponseDto.archives (downloadResponse st)) = allIds (heap st).
Proof.
  unfold batchPages. simpl. unfold processPage.
  assert (pushedOnce initialBatcher) as H0 by (by exists [], emptyArchive).
  pose proof (addAssets_pushedOnce T (withMotion this page) _ H0) as (h & a & Hh & Ha & Hp).
  destruct (fold_left _ _ _) as [hp ars ar]. simpl in *. subst hp ar ars.
  rewrite deref_last.
  destruct (0 <? length (DownloadArchiveInfo.assetIds a))%nat eqn:E; simpl.
  - rewrite map_app. simpl. rewrite deref_last, deref_seq_front. done.
  - rewrite deref_seq_front, allIds_app.
    apply Nat.ltb_ge in E. destruct (DownloadArchiveInfo.assetIds a) eqn:Ea;
      [|simpl in E; lia].
    unfold allIds at 3. simpl. by rewrite Ea, !app_nil_r.
Qed.

(** C2, on the code: with an album delivered in two pages of one small
    asset each, the running archive is pushed at the end of each page and
    never replaced, so the one archive object is listed twice; both
    entries hold both asset ids and the total size counts them twice. *)
Theorem C2_two_pages_list_the_archive_twice :
  getDownloadInfo Sample.twoPages Sample.auth Sample.albumDto =
    ([], Returned
       {| DownloadResponseDto.totalSize := 24;
          DownloadResponseDto.archives :=
            [{| DownloadArchiveInfo.size := 12;
                DownloadArchiveInfo.assetIds := ["a1"; "a2"] |};
             {| DownloadArchiveInfo.size := 12;
                DownloadArchiveInfo.assetIds := ["a1"; "a2"] |}] |})
  ∧ archives (batchPages Sample.twoPages (targetSizeOf Sample.albumDto)
                [[Sample.plain "a1" 5]; [Sample.plain "a2" 7]]) = [0; 0]%nat.
Proof. split; reflexivity. Qed.

(** C6, as the claim states it, fails: for the page [A; B] where [A] has
    the motion part [M], the archive order is [A; B; M], so [M] does not
    come immediately after [A]. *)
Lemma C6_companion_not_adjacent_counterexample :
  ∃ r,
    getDownloadInfo Sample.liveStore Sample.auth Sample.liveDto = ([], Returned r)
    ∧ allIds (DownloadResponseDto.archives r) = ["A"; "B"; "M"]
    ∧ ¬ ∃ l1 l2, allIds (DownloadResponseDto.archives r) = l1 ++ "A" :: "M" :: l2.
Proof.
  eexists. split; [reflexivity|]. split; [reflexivity|].
  intros (l1 & l2 & E). vm_compute in E.
  destruct l1 as [|x1 [|x2 [|x3 [|x4 l1]]]]; simpl in E; discriminate E.
Qed.

(** C6, amended. The companions of a page, that is the assets the store
    returns for the [livePhotoVideoId]s of the page's assets, are placed
    in the archive order after all assets of that page, in the order the
    store returns them: over the archives in order of creation the ids
    are, page by page, the ids of the page followed by the ids of its
    companions; for a download of a single page, such as one by explicit
    asset ids, this is the order of the ids in the output. *)
Theorem C6_companions_follow_their_page this T :
  (∀ pages,
     allIds (heap (batchPages this T pages)) =
       concat (map (fun page => map AssetEntity.id page
                                ++ map AssetEntity.id (companionsOf this page)) pages))
  ∧ (∀ page,
       allIds (DownloadResponseDto.archives (downloadResponse (batchPages this T [page]))) =
         map AssetEntity.id page ++ map AssetEntity.id (companionsOf this page))
  ∧ (∀ auth dto ids,
       DownloadInfoDto.assetIds dto = Some ids →
       hasPermission this auth PERM_ASSET_DOWNLOAD ids = true →
       ∃ r, getDownloadInfo this auth dto = ([], Returned r)
            ∧ allIds (DownloadResponseDto.archives r) =
                map AssetEntity.id (getByIds this ids)
                ++ map AssetEntity.id (companionsOf this (getByIds this ids))).
Proof.
  assert (writesLast initialBatcher) as H0 by (by exists [], emptyArchive).
  assert (∀ T pages,
            allIds (heap (batchPages this T pages)) =
              concat (map (fun page => map AssetEntity.id page
                                       ++ map AssetEntity.id (companionsOf this page)) pages))
    as Hheap.
  { intros T' pages. unfold batchPages. rewrite (batchPages_ids this T' pages _ H0). simpl.
    f_equal. apply map_ext. intros page. apply map_app. }
  assert (∀ T page,
            allIds (DownloadResponseDto.archives
                      (downloadResponse (batchPages this T [page]))) =
              map AssetEntity.id page ++ map AssetEntity.id (companionsOf this page))
    as Hone.
  { intros T' page. rewrite singlePage_output, Hheap. simpl. by rewrite app_nil_r. }
  split; [apply Hheap|]. split; [apply Hone|].
  intros auth dto ids Hids Hperm.
  unfold getDownloadInfo, getDownloadAssets, requirePermission.
  rewrite Hids, Hperm. simpl. eexists. split; [reflexivity|]. apply Hone.
Qed.

Lemma C6_companions_witness :
  ∃ r, getDownloadInfo Sample.liveStore Sample.auth Sample.liveDto = ([], Returned r)
       ∧ allIds (DownloadResponseDto.archives r) = ["A"; "B"] ++ ["M"].
Proof.
  exact (proj2 (proj2 (C6_companions_follow_their_page Sample.liveStore 0))
           Sample.auth Sample.liveDto ["A"; "B"] eq_refl eq_refl).
Defined.

Lemma deref_alter f h i :
  (i < length h)%nat → deref (alter f i h) i = f (deref h i).
Proof.
  intros Hi. unfold deref. rewrite list_lookup_alter_eq.
  destruct (lookup_lt_is_Some_2 h i Hi) as [a ->]. done.
Qed.

(** The closing rule of the inner loop: after an asset is added, the
    running archive is closed when, and only when, its size is strictly
    above the target. *)
Lemma addAsset_closing_rule T st x :
  (archive st < length (heap st))%nat →
  let total := DownloadArchiveInfo.size (deref (heap st) (archive st)) + fileSize x in
  let st' := addAsset T st x in
  deref (heap st') (archive st) = addToArchive x (deref (heap st) (archive st))
  ∧ (T < total →
       archives st' = archives st ++ [archive st]
       ∧ archive st' ≠ archive st
       ∧ deref (heap st') (archive st') = emptyArchive)
  ∧ (total ≤ T → archives st' = archives st ∧ archive st' = archive st).
Proof.
  intros Hi total st'. subst total st'. unfold addAsset.
  rewrite (deref_alter _ _ _ Hi). simpl.
  destruct (Z.ltb_spec T (DownloadArchiveInfo.size (deref (heap st) (archive st)) + fileSize x))
    as [Hlt|Hge]; simpl.
  - split.
    + unfold deref at 1. rewrite lookup_app_l by (rewrite length_alter; lia).
      by apply deref_alter.
    + split; [|lia]. intros _. rewrite length_alter.
      split; [done|]. split; [lia|].
      rewrite <- (length_alter (addToArchive x) (heap st) (archive st)).
      apply deref_last.
  - split; [by apply deref_alter|]. split; [lia | done].
Qed.

(** The archives of a page of assets without live-photo companions depend
    on the ids and sizes only. *)
Lemma addAsset_id_size T st x y :
  AssetEntity.id x = AssetEntity.id y → fileSize x = fileSize y →
  addAsset T st x = addAsset T st y.
Proof.
  intros Hid Hsz. unfold addAsset.
  assert (addToArchive x = addToArchive y) as ->; [|done].
  unfold addToArchive. by rewrite Hid, Hsz.
Qed.

Lemma addAssets_id_size T xs ys st :
  Forall2 (fun x y => AssetEntity.id x = AssetEntity.id y ∧ fileSize x = fileSize y) xs ys →
  fold_left (addAsset T) xs st = fold_left (addAsset T) ys st.
Proof.
  intros H. revert st.
  induction H as [|x y xs ys [Hid Hsz] _ IH]; intros st; simpl; [done|].
  by rewrite (addAsset_id_size T st x y Hid Hsz), IH.
Qed.

(** A single page of sizes 1 GiB, 1 GiB, 1 GiB, 1.5 GiB and [s5], with
    the target at 4 GiB: the fourth asset takes the running size to
    4.5 GiB, which closes the archive; the fifth is left in the final
    accumulator. *)
Lemma five_assets_two_archives this auth dto ids a1 a2 a3 a4 a5 s5 :
  DownloadInfoDto.assetIds dto = Some ids →
  targetSizeOf dto = 4 * HumanReadableSize_GiB →
  hasPermission this auth PERM_ASSET_DOWNLOAD ids = true →
  getByIds this ids = [a1; a2; a3; a4; a5] →
  motionIds [a1; a2; a3; a4; a5] = [] →
  fileSize a1 = HumanReadableSize_GiB →
  fileSize a2 = HumanReadableSize_GiB →
  fileSize a3 = HumanReadableSize_GiB →
  fileSize a4 = 1610612736 →
  fileSize a5 = s5 →
  s5 ≤ 4 * HumanReadableSize_GiB →
  getDownloadInfo this auth dto =
    ([], Returned
       {| DownloadResponseDto.totalSize := 4831838208 + s5;
          DownloadResponseDto.archives :=
            [{| DownloadArchiveInfo.size := 4831838208;
                DownloadArchiveInfo.assetIds :=
                  [AssetEntity.id a1; AssetEntity.id a2;
                   AssetEntity.id a3; AssetEntity.id a4] |};
             {| DownloadArchiveInfo.size := s5;
                DownloadArchiveInfo.assetIds := [AssetEntity.id a5] |}] |}).
Proof.
  intros Hids HT Hperm Hget Hm H1 H2 H3 H4 H5 Hs5.
  unfold getDownloadInfo, getDownloadAssets, requirePermission.
  rewrite Hids, Hperm, HT. cbn [bind ret app]. unfold ret. do 2 f_equal.
  unfold batchPages. cbn [fold_left]. unfold processPage, withMotion.
  rewrite Hget, Hm. cbn [length Nat.ltb Nat.leb].
  change [a1; a2; a3; a4; a5] with ([a1; a2; a3; a4] ++ [a5]).
  rewrite fold_left_app.
  rewrite (addAssets_id_size _ [a1; a2; a3; a4]
             [Sample.plain (AssetEntity.id a1) HumanReadableSize_GiB;
              Sample.plain (AssetEntity.id a2) HumanReadableSize_GiB;
              Sample.plain (AssetEntity.id a3) HumanReadableSize_GiB;
              Sample.plain (AssetEntity.id a4) 1610612736])
    by (repeat constructor; assumption).
  set (st4 := fold_left _ _ initialBatcher).
  vm_compute in st4. subst st4. cbn [fold_left].
  erewrite (addAsset_last _ _ [_] emptyArchive a5); [|reflexivity..].
  rewrite H5.
  match goal with
  | |- context [?a <? ?b] =>
      assert ((a <? b) = false) as ->
        by (apply Z.ltb_ge; cbn [emptyArchive DownloadArchiveInfo.size]; lia)
  end.
  unfold downloadResponse, deref. cbn -[Z.add Z.mul].
  unfold addToArchive. cbn [emptyArchive DownloadArchiveInfo.size
                            DownloadArchiveInfo.assetIds app].
  rewrite H5, !Z.add_0_l. reflexivity.
Qed.

(** C8. The running archive is closed exactly when, after an asset is
    added, its size is strictly above the target; the target is 4 GiB by
    default and the caller's [archiveSize] otherwise.  For a single page
    of sizes 1 GiB, 1 GiB, 1 GiB, 1.5 GiB, 0.6 GiB (any last size up to
    the target) and the 4 GiB target the output is two archives, of
    4.5 GiB and of the last size; four assets of 1 GiB reach the target
    without exceeding it and stay in one archive. *)
Theorem C8_archive_closed_when_target_exceeded :
  (∀ T st x,
     (archive st < length (heap st))%nat →
     let total := DownloadArchiveInfo.size (deref (heap st) (archive st)) + fileSize x in
     let st' := addAsset T st x in
     (T < total →
        archives st' = archives st ++ [archive st]
        ∧ archive st' ≠ archive st
        ∧ deref (heap st') (archive st') = emptyArchive)
     ∧ (total ≤ T → archives st' = archives st ∧ archive st' = archive st))
  ∧ (∀ dto,
       (DownloadInfoDto.archiveSize dto = None →
          targetSizeOf dto = 4 * HumanReadableSize_GiB)
       ∧ (∀ n, DownloadInfoDto.archiveSize dto = Some n → n ≠ 0 → targetSizeOf dto = n))
  ∧ (∀ this auth dto ids a1 a2 a3 a4 a5 s5,
       DownloadInfoDto.assetIds dto = Some ids →
       targetSizeOf dto = 4 * HumanReadableSize_GiB →
       hasPermission this auth PERM_ASSET_DOWNLOAD ids = true →
       getByIds this ids = [a1; a2; a3; a4; a5] →
       motionIds [a1; a2; a3; a4; a5] = [] →
       fileSize a1 = HumanReadableSize_GiB →
       fileSize a2 = HumanReadableSize_GiB →
       fileSize a3 = HumanReadableSize_GiB →
       fileSize a4 = 1610612736 →
       fileSize a5 = s5 →
       s5 ≤ 4 * HumanReadableSize_GiB →
       getDownloadInfo this auth dto =
         ([], Returned
            {| DownloadResponseDto.totalSize := 4831838208 + s5;
               DownloadResponseDto.archives :=
                 [{| DownloadArchiveInfo.size := 4831838208;
                     DownloadArchiveInfo.assetIds :=
                       [AssetEntity.id a1; AssetEntity.id a2;
                        AssetEntity.id a3; AssetEntity.id a4] |};
                  {| DownloadArchiveInfo.size := s5;
                     DownloadArchiveInfo.assetIds := [AssetEntity.id a5] |}] |}))
  ∧ getDownloadInfo Sample.four Sample.auth Sample.fourDto =
      ([], Returned
         {| DownloadResponseDto.totalSize := 4 * HumanReadableSize_GiB;
            DownloadResponseDto.archives :=
              [{| DownloadArchiveInfo.size := 4 * HumanReadableSize_GiB;
                  DownloadArchiveInfo.assetIds := ["1"; "2"; "3"; "4"] |}] |}).
Proof.
  split.
  { intros T st x Hi. exact (proj2 (addAsset_closing_rule T st x Hi)). }
  split.
  { intros dto. unfold targetSizeOf. split.
    - by intros ->.
    - intros n -> Hn. by destruct (Z.eqb_spec n 0). }
  split; [apply five_assets_two_archives|].
  vm_compute. reflexivity.
Qed.

Lemma C8_archive_closed_witness :
  getDownloadInfo Sample.five Sample.auth Sample.fiveDto =
    ([], Returned
       {| DownloadResponseDto.totalSize := 4831838208 + 644245094;
          DownloadResponseDto.archives :=
            [{| DownloadArchiveInfo.size := 4831838208;
                DownloadArchiveInfo.assetIds := ["1"; "2"; "3"; "4"] |};
             {| DownloadArchiveInfo.size := 644245094;
                DownloadArchiveInfo.assetIds := ["5"] |}] |}).
Proof.
  apply (proj1 (proj2 (proj2 C8_archive_closed_when_target_exceeded))
           Sample.five Sample.auth Sample.fiveDto Sample.fiveIds
           (Sample.plain "1" Sample.GiB) (Sample.plain "2" Sample.GiB)
           (Sample.plain "3" Sample.GiB) (Sample.plain "4" 1610612736)
           (Sample.plain "5" 644245094) 644245094);
    try reflexivity.
  vm_compute. discriminate.
Defined.

(** ** The names in a download archive *)

Lemma collisions_snoc extname N earlier a :
  collisions extname N (earlier ++ [a]) =
    (collisions extname N earlier
     + if String.eqb (combinedName extname a) N then 1 else 0)%nat.
Proof.
  unfold collisions. rewrite List.filter_app, length_app. simpl.
  by destruct (String.eqb _ N).
Qed.

Lemma countsNames_empty extname : countsNames extname ∅ [].
Proof. intros N HN. unfold getPath. by rewrite lookup_empty, HN. Qed.

Lemma getPath_setPath_ne paths key v N :
  key ≠ N → getPath (setPath paths key v) N = getPath paths N.
Proof.
  intros Hne. unfold setPath, getPath.
  destruct (String.eqb key "__proto__"); [done|].
  by rewrite lookup_insert_ne.
Qed.

Lemma getPath_setPath_eq paths key v :
  inherited key = None → getPath (setPath paths key v) key = Some v.
Proof.
  intros Hkey. unfold setPath, getPath.
  destruct (String.eqb_spec key "__proto__") as [->|_]; [discriminate Hkey|].
  by rewrite lookup_insert_eq.
Qed.

Lemma countsNames_setPath extname paths earlier a :
  countsNames extname paths earlier →
  countsNames extname
    (setPath paths (combinedName extname a)
       (plusOne (orZero (getPath paths (combinedName extname a)))))
    (earlier ++ [a]).
Proof.
  intros Hinv N HN. rewrite collisions_snoc.
  destruct (String.eqb_spec (combinedName extname a) N) as [<-|Hne].
  - rewrite getPath_setPath_eq by done. rewrite (Hinv _ HN). simpl.
    by destruct (collisions _ _ _ + 1)%nat eqn:E; [lia|].
  - rewrite getPath_setPath_ne by done. rewrite (Hinv _ HN). f_equal. lia.
Qed.

Lemma addFiles_returned extname assets :
  ∀ paths, outcome (addFiles extname paths assets) = Returned tt.
Proof.
  induction assets as [|a rest IH]; intros paths; [done|].
  simpl. specialize (IH (setPath paths (combinedName extname a)
                           (plusOne (orZero (getPath paths (combinedName extname a)))))).
  by destruct (addFiles extname _ rest).
Qed.

Lemma addFiles_names_length extname assets :
  ∀ paths, length (zipNames (log (addFiles extname paths assets))) = length assets.
Proof.
  induction assets as [|a rest IH]; intros paths; [done|].
  simpl. specialize (IH (setPath paths (combinedName extname a)
                           (plusOne (orZero (getPath paths (combinedName extname a)))))).
  destruct (addFiles extname _ rest). simpl in *. by rewrite IH.
Qed.

(** The name given to the asset at a position of the list, when its
    combined name is none of the keys of [Object.prototype]. *)
Lemma addFiles_name_at extname l1 a l2 :
  inherited (combinedName extname a) = None →
  ∀ paths earlier,
    countsNames extname paths earlier →
    zipNames (log (addFiles extname paths (l1 ++ a :: l2))) !! length l1 =
      Some (zipName extname a
              (PathNumber (collisions extname (combinedName extname a) (earlier ++ l1)))).
Proof.
  intros Ha. induction l1 as [|x l1 IH]; intros paths earlier Hinv.
  - simpl. rewrite app_nil_r, (Hinv _ Ha).
    by destruct (addFiles extname _ l2).
  - simpl. specialize (IH _ _ (countsNames_setPath extname paths earlier x Hinv)).
    rewrite <- app_assoc in IH. simpl in IH.
    by destruct (addFiles extname _ (l1 ++ a :: l2)).
Qed.

Lemma downloadArchive_names extname this auth dto :
  hasPermission this auth PERM_ASSET_DOWNLOAD (AssetIdsDto.assetIds dto) = true →
  zipNames (log (downloadArchive extname this auth dto))
  = zipNames (log (addFiles extname ∅ (getByIds this (AssetIdsDto.assetIds dto))))
  ∧ outcome (downloadArchive extname this auth dto) = Returned tt.
Proof.
  intros Hperm. unfold downloadArchive, requirePermission. rewrite Hperm.
  pose proof (addFiles_returned extname (getByIds this (AssetIdsDto.assetIds dto)) ∅) as Ho.
  destruct (addFiles extname ∅ _) as [t o]. simpl in *. subst o. simpl.
  split; [|done]. unfold zipNames. rewrite omap_app. simpl. apply app_nil_r.
Qed.


(** ** Stack mutation *)

Lemma bind_returned {A B} (m : Async A) (f : A → Async B) t a :
  m = (t, Returned a) → bind m f = (t ++ log (f a), outcome (f a)).
Proof. intros ->. simpl. by destruct (f a). Qed.

Lemma bind_thrown {A B} (m : Async A) (f : A → Async B) t e :
  m = (t, Thrown e) → bind m f = (t, Thrown e).
Proof. by intros ->. Qed.

Lemma forEach_calls {A} (xs : list A) (c : A → Call) :
  forEach xs (fun x => call (c x)) = (map c xs, Returned tt).
Proof.
  induction xs as [|x xs IH]; simpl; [done|]. by rewrite IH.
Qed.

(** The metadata loop returns, and touches no stack. *)
Lemma forEach_updateMetadata ids (mk : string → ISidecarWriteJob.t) :
  outcome (forEach ids (fun id => updateMetadata (mk id))) = Returned tt
  ∧ Forall (fun c => is_stack_delete c = false ∧ is_stack_write c = false
                     ∧ is_asset_update_all c = false)
      (log (forEach ids (fun id => updateMetadata (mk id)))).
Proof.
  induction ids as [|id ids [IHo IHl]]; simpl; [by split|].
  destruct (forEach ids _) as [t o]. simpl in *. subst o.
  unfold updateMetadata, when.
  destruct (0 <? _)%nat; simpl; [|done].
  split; [done|]. by repeat constructor.
Qed.

Lemma planStacks_result this auth dto :
  PlanResult this auth dto (planStacks this auth dto).
Proof.
  unfold planStacks.
  destruct (truthy_obool (AssetBulkUpdateDto.removeParent dto)) eqn:Hrm.
  { apply plan_unstacked. by left. }
  simpl.
  destruct (AssetBulkUpdateDto.stackParentId dto) as [p|] eqn:Hp; simpl;
    [|apply plan_unstacked; right; by rewrite Hp].
  unfold truthy_string. destruct (String.eqb_spec p "") as [->|Hne]; simpl.
  { apply plan_unstacked. right. by rewrite Hp. }
  unfold planStackParent, requirePermission.
  destruct (hasPermission this auth PERM_ASSET_UPDATE [p]) eqn:Hperm; simpl;
    [|by eapply plan_forbidden].
  destruct (getById this p) as [primaryAsset|] eqn:Hget; simpl;
    [|by eapply plan_not_found].
  destruct (AssetEntity.stack primaryAsset) as [s|]; simpl.
  - eapply plan_stacked; eauto.
  - eapply plan_stacked; eauto.
Qed.

Lemma updateAll_forbidden this auth dto :
  hasPermission this auth PERM_ASSET_UPDATE (AssetBulkUpdateDto.ids dto) = false →
  updateAll this auth dto = ([], Thrown Forbidden).
Proof. intros H. unfold updateAll, requirePermission. by rewrite H. Qed.

Lemma updateAll_plan_thrown this auth dto t e :
  hasPermission this auth PERM_ASSET_UPDATE (AssetBulkUpdateDto.ids dto) = true →
  planStacks this auth dto = (t, Thrown e) →
  updateAll this auth dto = (t, Thrown e).
Proof.
  intros H Hplan. unfold updateAll, requirePermission. rewrite H. simpl.
  by rewrite (bind_thrown _ _ t e Hplan).
Qed.

(** A run of [updateAll] that gets past its first part: the calls of the
    first part, the metadata writes, the bulk update, the deletes of the
    marked stacks in order, the notification. *)
Lemma updateAll_plan_returned this auth dto t plan :
  hasPermission this auth PERM_ASSET_UPDATE (AssetBulkUpdateDto.ids dto) = true →
  planStacks this auth dto = (t, Returned plan) →
  ∃ meta,
    Forall (fun c => is_stack_delete c = false ∧ is_stack_write c = false
                     ∧ is_asset_update_all c = false) meta
    ∧ updateAll this auth dto =
        (t ++ meta
           ++ AssetUpdateAll (plan_ids plan) (plan_options plan)
           :: map StackDelete (stackIdsToDelete plan)
           ++ [Send ASSET_UPDATE (AuthDto.user_id auth) (ManyIds (plan_ids plan))],
         Returned tt).
Proof.
  intros H Hplan. unfold updateAll, requirePermission. rewrite H. simpl.
  rewrite (bind_returned _ _ t plan Hplan).
  match goal with
  | |- context [forEach (plan_ids plan) ?f] =>
      destruct (forEach_updateMetadata (plan_ids plan)
                  (fun id => {| ISidecarWriteJob.id := id;
                                ISidecarWriteJob.description := None;
                                ISidecarWriteJob.dateTimeOriginal :=
                                  AssetBulkUpdateDto.dateTimeOriginal dto;
                                ISidecarWriteJob.latitude := AssetBulkUpdateDto.latitude dto;
                                ISidecarWriteJob.longitude := AssetBulkUpdateDto.longitude dto |}))
        as [Ho Hl];
      destruct (forEach (plan_ids plan) f) as [meta o]
  end.
  simpl in Ho, Hl. subst o. exists meta. split; [done|].
  rewrite forEach_calls. reflexivity.
Qed.

(** A stack delete in [pre ++ u :: rest] lies after [u] when neither [u]
    nor a call of [pre] is a stack delete. *)
Lemma stack_delete_after pre u rest i sid :
  Forall (fun c => is_stack_delete c = false) pre →
  is_stack_delete u = false →
  (pre ++ u :: rest) !! i = Some (StackDelete sid) →
  (length pre < i)%nat.
Proof.
  intros Hpre Hu Hi.
  destruct (Nat.lt_trichotomy i (length pre)) as [Hlt|[->|Hgt]]; [| |done].
  - rewrite lookup_app_l in Hi by done.
    rewrite Forall_lookup in Hpre. by specialize (Hpre _ _ Hi).
  - rewrite list_lookup_middle in Hi by done. by injection Hi as ->.
Qed.

Lemma no_stack_delete (rest : list Call) i sid (u : Call) :
  is_stack_delete u = false →
  (u :: rest) !! i = Some (StackDelete sid) →
  ∃ i', i = S i' ∧ rest !! i' = Some (StackDelete sid).
Proof.
  intros Hu Hi. destruct i as [|i']; simpl in Hi.
  - by injection Hi as ->.
  - by exists i'.
Qed.

(** C7. In every run of [updateAll], a delete call on the stack store
    comes after the bulk asset update.  When the run stacks assets under
    a parent ([removeParent] not set) the bulk update in turn comes after
    the create or save that writes the destination stack with the parent
    as [primaryAssetId] and the updated ids as members.  With
    [removeParent] set there is no destination stack and the run issues
    no create and no save at all: the delete calls come after the bulk
    update that clears [stack], and after nothing else. *)
Theorem C7_stack_deletes_come_last this auth dto i sid :
  log (updateAll this auth dto) !! i = Some (StackDelete sid) →
  ∃ j ids o,
    (j < i)%nat
    ∧ log (updateAll this auth dto) !! j = Some (AssetUpdateAll ids o)
    ∧ (truthy_obool (AssetBulkUpdateDto.removeParent dto) = false →
       ∃ k w p primaryAsset,
         (k < j)%nat
         ∧ log (updateAll this auth dto) !! k = Some w
         ∧ AssetBulkUpdateDto.stackParentId dto = Some p
         ∧ getById this p = Some primaryAsset
         ∧ (w = StackCreate
                  {| StackWrite.id := None;
                     StackWrite.primaryAssetId := Some (AssetEntity.id primaryAsset);
                     StackWrite.assets := Some ids |}
            ∨ ∃ s, w = StackSave
                         {| StackWrite.id := Some s;
                            StackWrite.primaryAssetId := Some (AssetEntity.id primaryAsset);
                            StackWrite.assets := Some ids |}))
    ∧ (truthy_obool (AssetBulkUpdateDto.removeParent dto) = true →
       ∀ k w, log (updateAll this auth dto) !! k = Some w → is_stack_write w = false).
Proof.
  intros Hi.
  destruct (hasPermission this auth PERM_ASSET_UPDATE (AssetBulkUpdateDto.ids dto)) eqn:Hperm.
  2:{ rewrite (updateAll_forbidden _ _ _ Hperm) in Hi. done. }
  pose proof (planStacks_result this auth dto) as Hplan.
  destruct (planStacks this auth dto) as [t o] eqn:Eplan.
  inversion Hplan as [p Hrm Hp Hne Hden|p Hrm Hp Hne Hok Hget
                     |p primaryAsset w plan Hrm Hp Hne Hok Hget Hw Hshape
                     |plan Hcase]; subst.
  - rewrite (updateAll_plan_thrown _ _ _ _ _ Hperm Eplan) in Hi. done.
  - rewrite (updateAll_plan_thrown _ _ _ _ _ Hperm Eplan) in Hi. done.
  - destruct (updateAll_plan_returned _ _ _ _ _ Hperm Eplan) as (meta & Hmeta & E).
    rewrite E in *. simpl in *.
    assert (is_stack_delete w = false) as Hwd by (by destruct w).
    apply (no_stack_delete _ _ _ _ Hwd) in Hi as (i' & -> & Hi).
    assert (length meta < i')%nat as Hlt.
    { eapply stack_delete_after; [| |exact Hi]; [|reflexivity].
      eapply Forall_impl; [exact Hmeta|]. by intros c (? & _). }
    exists (S (length meta)), (plan_ids plan), (plan_options plan).
    split; [lia|]. split; [by apply list_lookup_middle|].
    split; [|intros; congruence].
    intros _. exists 0%nat, w, p, primaryAsset.
    split; [lia|]. done.
  - destruct (updateAll_plan_returned _ _ _ _ _ Hperm Eplan) as (meta & Hmeta & E).
    rewrite E in *. simpl in *.
    assert (length meta < i)%nat as Hlt.
    { eapply stack_delete_after; [| |exact Hi]; [|reflexivity].
      eapply Forall_impl; [exact Hmeta|]. by intros c (? & _). }
    exists (length meta), (plan_ids plan), (plan_options plan).
    split; [done|]. split; [by apply list_lookup_middle|].
    split.
    + intros Hrm. destruct Hcase as [Hcase|[_ Hnone]]; [congruence|].
      exfalso. rewrite Hnone in Hi. simpl in Hi.
      destruct (Nat.lt_exists_pred 0 (i - length meta)) as (d & Hd & _); [lia|].
      replace i with (length meta + S d)%nat in Hi by lia.
      rewrite lookup_app_r in Hi by lia.
      replace (length meta + S d - length meta)%nat with (S d) in Hi by lia.
      simpl in Hi. destruct d; simpl in Hi; done.
    + intros _ k w Hk.
      assert (Forall (fun c => is_stack_write c = false)
                (meta ++ AssetUpdateAll (plan_ids plan) (plan_options plan)
                   :: map StackDelete (stackIdsToDelete plan)
                   ++ [Send ASSET_UPDATE (AuthDto.user_id auth) (ManyIds (plan_ids plan))]))
        as Hall.
      { apply Forall_app. split.
        - eapply Forall_impl; [exact Hmeta|]. by intros c (_ & ? & _).
        - constructor; [done|]. apply Forall_app. split.
          + apply Forall_forall. intros c Hc.
            apply list_elem_of_fmap in Hc as (s & -> & _). done.
          + by constructor. }
      exact (proj1 (Forall_lookup _ _) Hall k w Hk).
Qed.

Lemma C7_stack_deletes_witness :
  ∃ j ids o,
    (j < 2)%nat
    ∧ log (updateAll Sample.merge Sample.auth Sample.mergeDto) !! j
      = Some (AssetUpdateAll ids o).
Proof.
  destruct (C7_stack_deletes_come_last Sample.merge Sample.auth Sample.mergeDto
              2%nat "sx" eq_refl) as (j & ids & o & Hj & Hl & _).
  exists j, ids, o. split; assumption.
Defined.

(** C7, as the claim states it, fails when [removeParent] is set.
    Unstacking the parent of a stack deletes that stack, and the run
    creates and saves no stack at all: the delete call follows the bulk
    update only, with no write of a destination stack before it. *)
Lemma C7_remove_parent_counterexample :
  let t := log (updateAll Sample.merge Sample.auth Sample.unstackDto) in
  t !! 1%nat = Some (StackDelete "sx")
  ∧ ∀ k w, t !! k = Some w → is_stack_write w = false.
Proof.
  split; [reflexivity|].
  intros k w Hk. vm_compute in Hk.
  do 3 (destruct k as [|k]; [by inversion Hk|]). done.
Qed.

(** C3, as the claim states it, fails twice.  A target id that no asset
    has is not looked for: the update goes through when the access guard
    lets the id pass, and is Forbidden, not NotFound, when it does not.
    And with [removeParent] set, a [stackParentId] the caller may not
    update is never checked: the bulk update is issued with it. *)
Lemma C3_missing_target_counterexample :
  (getById Sample.emptyStore "x" = None
   ∧ getByIds Sample.emptyStore ["x"] = []
   ∧ outcome (updateAll Sample.emptyStore Sample.auth Sample.missingDto) = Returned tt
   ∧ outcome (updateAll Sample.emptyStrict Sample.auth Sample.missingDto)
     = Thrown Forbidden)
  ∧ (AssetBulkUpdateDto.stackParentId Sample.removeParentDto = Some "p"
     ∧ hasPermission Sample.parentDenied Sample.auth PERM_ASSET_UPDATE ["p"] = false
     ∧ outcome (updateAll Sample.parentDenied Sample.auth Sample.removeParentDto)
       = Returned tt
     ∧ existsb is_store_mutation
         (log (updateAll Sample.parentDenied Sample.auth Sample.removeParentDto)) = true).
Proof. repeat split. Qed.

(** C3, amended. [updateAll] fails with Forbidden, before any call, when
    the caller lacks update permission on [ids]; and, when [removeParent]
    is not set and a non-empty [stackParentId] is supplied, it fails
    before any call with Forbidden when the caller lacks update permission
    on [stackParentId], and with "Asset not found" when [stackParentId]
    does not resolve to an asset.  These are its only failures, so a
    target id in [ids] that does not resolve is not an error, and every
    failure leaves the stores untouched. *)
Theorem C3_updateAll_failures this auth dto :
  let r := updateAll this auth dto in
  let permitted := hasPermission this auth PERM_ASSET_UPDATE (AssetBulkUpdateDto.ids dto) in
  (permitted = false → r = ([], Thrown Forbidden))
  ∧ (∀ p,
       permitted = true →
       truthy_obool (AssetBulkUpdateDto.removeParent dto) = false →
       AssetBulkUpdateDto.stackParentId dto = Some p → p ≠ "" →
       (hasPermission this auth PERM_ASSET_UPDATE [p] = false → r = ([], Thrown Forbidden))
       ∧ (hasPermission this auth PERM_ASSET_UPDATE [p] = true →
          getById this p = None → r = ([], Thrown AssetNotFound)))
  ∧ (outcome r = Thrown AssetNotFound →
       truthy_obool (AssetBulkUpdateDto.removeParent dto) = false
       ∧ ∃ p, AssetBulkUpdateDto.stackParentId dto = Some p ∧ getById this p = None)
  ∧ (∀ e, outcome r = Thrown e → log r = []).
Proof.
  intros r permitted. subst r permitted.
  destruct (hasPermission this auth PERM_ASSET_UPDATE (AssetBulkUpdateDto.ids dto)) eqn:Hperm.
  2:{ rewrite (updateAll_forbidden _ _ _ Hperm). simpl. repeat split; done. }
  pose proof (planStacks_result this auth dto) as Hplan.
  destruct (planStacks this auth dto) as [t o] eqn:Eplan.
  split; [done|].
  inversion Hplan as [p Hrm Hp Hne Hden|p Hrm Hp Hne Hok Hget
                     |p primaryAsset w plan Hrm Hp Hne Hok Hget Hw Hshape
                     |plan Hcase]; subst.
  - rewrite (updateAll_plan_thrown _ _ _ _ _ Hperm Eplan). simpl.
    split; [|split; [discriminate | done]].
    intros p' _ _ Hp' _. rewrite Hp in Hp'. injection Hp' as <-.
    split; [done | congruence].
  - rewrite (updateAll_plan_thrown _ _ _ _ _ Hperm Eplan). simpl.
    split; [|split; [by eauto | done]].
    intros p' _ _ Hp' _. rewrite Hp in Hp'. injection Hp' as <-.
    split; [congruence | done].
  - destruct (updateAll_plan_returned _ _ _ _ _ Hperm Eplan) as (meta & _ & E).
    rewrite E. simpl.
    split; [|split; [discriminate | intros e He; discriminate He]].
    intros p' _ _ Hp' _. rewrite Hp in Hp'. injection Hp' as <-.
    split; congruence.
  - destruct (updateAll_plan_returned _ _ _ _ _ Hperm Eplan) as (meta & _ & E).
    rewrite E. simpl.
    split; [|split; [discriminate | intros e He; discriminate He]].
    intros p' _ Hrm Hp' Hne. exfalso.
    destruct Hcase as [Hcase|[Hcase _]]; [congruence|].
    rewrite Hp' in Hcase. simpl in Hcase. unfold truthy_string in Hcase.
    by destruct (String.eqb_spec p' "").
Qed.

Lemma C3_updateAll_failures_witness :
  updateAll Sample.parentDenied Sample.auth Sample.stackUnderDeniedDto
  = ([], Thrown Forbidden).
Proof.
  apply (proj1 (proj2 (C3_updateAll_failures
                         Sample.parentDenied Sample.auth Sample.stackUnderDeniedDto))
           "p"); try reflexivity.
  discriminate.
Defined.

(** * Further properties of the service *)

(** ** Asset deletion, beyond the stack primary *)

Lemma replaceStackParent_log asset id :
  (length (log (replaceStackParent asset id)) ≤ 1)%nat
  ∧ Forall (fun c => is_stack_write c || is_stack_delete c = true)
      (log (replaceStackParent asset id)).
Proof.
  unfold replaceStackParent.
  destruct (AssetEntity.stack asset) as [s|]; [|simpl; split; [lia | constructor]].
  destruct (String.eqb _ id); [|simpl; split; [lia | constructor]].
  destruct (2 <? _); simpl; (split; [lia | by repeat constructor]).
Qed.

(** X1. Deleting an asset that is not the primary of a stack (it has no
    stack loaded, or the stack's primary is another asset) makes no call
    on the stack store: the stack is neither saved nor deleted. *)
Theorem X1_non_primary_deletion_leaves_stack this job asset :
  getById this (IAssetDeletionJob.id job) = Some asset →
  (∀ s, AssetEntity.stack asset = Some s →
        AssetStackEntity.primaryAssetId s ≠ IAssetDeletionJob.id job) →
  Forall (fun c => is_stack_write c = false ∧ is_stack_delete c = false)
    (log (handleAssetDeletion this job)).
Proof.
  intros Hget Hprim.
  destruct (handleAssetDeletion_cases this job) as [->|(a & Ha & _ & ->)];
    [constructor|].
  rewrite Hget in Ha. injection Ha as <-. simpl.
  assert (log (replaceStackParent asset (IAssetDeletionJob.id job)) = []) as ->.
  { unfold replaceStackParent.
    destruct (AssetEntity.stack asset) as [s|] eqn:Hs; [|done].
    destruct (String.eqb_spec (AssetStackEntity.primaryAssetId s) (IAssetDeletionJob.id job))
      as [E|_]; [|done].
    by destruct (Hprim s eq_refl). }
  unfold purgeCalls. simpl.
  destruct (truthy_ostring _), (AssetEntity.isReadOnly asset); simpl;
    by repeat constructor.
Qed.

Lemma X1_non_primary_deletion_witness :
  Forall (fun c => is_stack_write c = false ∧ is_stack_delete c = false)
    (log (handleAssetDeletion Sample.memberStore (Sample.job "b" None))).
Proof.
  apply (X1_non_primary_deletion_leaves_stack Sample.memberStore (Sample.job "b" None)
           (Sample.asset "b" Sample.upload 4 None (Some Sample.stack3) false) eq_refl).
  intros s [= <-]. discriminate.
Defined.

(** X2. A deletion job purges exactly when the asset exists and either
    the job is flagged [fromExternal] or the asset belongs to a library
    that is not external. *)
Theorem X2_deletion_purges_exactly_when this job :
  outcome (handleAssetDeletion this job) = Returned true
  ↔ ∃ asset,
      getById this (IAssetDeletionJob.id job) = Some asset
      ∧ (IAssetDeletionJob.fromExternal job = Some true
         ∨ ∃ l, AssetEntity.library asset = Some l ∧ LibraryEntity.type l = UPLOAD).
Proof.
  destruct (handleAssetDeletion_cases this job) as [E|(a & Ha & Hel & E)];
    rewrite E; simpl.
  - split; [discriminate|]. intros (asset & Hget & Hwhy). exfalso.
    assert (negb (truthy_obool (IAssetDeletionJob.fromExternal job))
            && noLibraryOrExternal asset = false) as Hel.
    { destruct Hwhy as [->|(l & Hl & Ht)]; [done|].
      unfold noLibraryOrExternal. rewrite Hl, Ht. simpl. apply andb_false_r. }
    rewrite (handleAssetDeletion_purges _ _ _ Hget Hel) in E. discriminate.
  - split; [|done]. intros _. exists a. split; [done|].
    apply andb_false_iff in Hel as [Hf|Hl].
    + left. destruct (IAssetDeletionJob.fromExternal job) as [[]|]; done.
    + right. unfold noLibraryOrExternal in Hl.
      destruct (AssetEntity.library a) as [[[]]|]; try done. by eexists.
Qed.

(** X3. A purge removes the asset row once and then changes the owner's
    usage once, by minus the recorded file size (by 0 when no size is
    recorded), and then notifies ASSET_DELETE; at most one stack call
    comes before and only job enqueues come after. *)
Theorem X3_purge_accounting this job asset :
  getById this (IAssetDeletionJob.id job) = Some asset →
  outcome (handleAssetDeletion this job) = Returned true →
  ∃ stackStep jobs,
    log (handleAssetDeletion this job) =
      stackStep
      ++ [AssetRemove asset;
          UserUpdateUsage (AssetEntity.ownerId asset) (- fileSize asset);
          Send ASSET_DELETE (AssetEntity.ownerId asset) (OneId (IAssetDeletionJob.id job))]
      ++ jobs
    ∧ (length stackStep ≤ 1)%nat
    ∧ Forall (fun c => is_stack_write c || is_stack_delete c = true) stackStep
    ∧ Forall (fun c => is_job_queue c = true) jobs
    ∧ (AssetEntity.exifInfo asset = None → fileSize asset = 0).
Proof.
  intros Hget Hout.
  destruct (handleAssetDeletion_cases this job) as [E|(a & Ha & _ & E)];
    rewrite E in *; [discriminate|].
  rewrite Hget in Ha. injection Ha as <-. simpl.
  destruct (replaceStackParent_log asset (IAssetDeletionJob.id job)) as [Hlen Hst].
  eexists _, _. split; [reflexivity|].
  split; [done|]. split; [done|]. split.
  - unfold when. destruct (truthy_ostring _), (AssetEntity.isReadOnly asset); simpl;
      by repeat constructor.
  - unfold fileSize. by intros ->.
Qed.

Lemma X3_purge_accounting_witness :
  ∃ stackStep jobs,
    log (handleAssetDeletion Sample.livePair (Sample.job "p" (Some true))) =
      stackStep
      ++ [AssetRemove (Sample.asset "p" Sample.external 10 (Some "m") None false);
          UserUpdateUsage "owner" (- 10);
          Send ASSET_DELETE "owner" (OneId "p")]
      ++ jobs.
Proof.
  destruct (X3_purge_accounting Sample.livePair (Sample.job "p" (Some true))
              (Sample.asset "p" Sample.external 10 (Some "m") None false)
              eq_refl eq_refl) as (stackStep & jobs & E & _).
  exists stackStep, jobs. exact E.
Defined.

(** ** Download archives: sizes, bounds and selection *)

Lemma totalArchived_app h1 h2 :
  totalArchived (h1 ++ h2) = totalArchived h1 + totalArchived h2.
Proof.
  unfold totalArchived. induction h1 as [|a h1 IH]; simpl; [done|].
  rewrite IH. lia.
Qed.

Lemma totalFileSize_app xs ys :
  totalFileSize (xs ++ ys) = totalFileSize xs + totalFileSize ys.
Proof.
  unfold totalFileSize. induction xs as [|a xs IH]; simpl; [done|].
  rewrite IH. lia.
Qed.

Lemma reduce_totalArchived out acc :
  fold_left (fun total item => total + DownloadArchiveInfo.size item) out acc
  = acc + totalArchived out.
Proof.
  revert acc. induction out as [|a out IH]; intros acc; simpl.
  - unfold totalArchived. simpl. lia.
  - rewrite IH. unfold totalArchived. simpl. lia.
Qed.

Lemma addAsset_firstPage T xs st x :
  firstPage T xs st → firstPage T (xs ++ [x]) (addAsset T st x).
Proof.
  intros (h & a & Hh & Ha & Hp & Hclosed & Hcur & Hsum).
  rewrite (addAsset_last T st h a x Hh Ha).
  assert (totalArchived (h ++ [addToArchive x a]) = totalFileSize (xs ++ [x])) as Hsum'.
  { rewrite totalFileSize_app, <- Hsum, !totalArchived_app.
    unfold totalArchived, totalFileSize. simpl. lia. }
  assert (DownloadArchiveInfo.assetIds (addToArchive x a) ≠ []) as Hne.
  { simpl. by destruct (DownloadArchiveInfo.assetIds a). }
  destruct (Z.ltb_spec T (DownloadArchiveInfo.size a + fileSize x)) as [Hlt|Hge].
  - exists (h ++ [addToArchive x a]), emptyArchive. simpl.
    rewrite <- app_assoc, length_app, Hp. simpl.
    rewrite Nat.add_1_r, seq_S. repeat split; try done.
    + apply Forall_app. split; [done|]. by repeat constructor.
    + by left.
    + rewrite !totalArchived_app in *. unfold totalArchived in *. simpl in *. lia.
  - exists h, (addToArchive x a). simpl. repeat split; try done. by right.
Qed.

Lemma addAssets_firstPage T ys :
  ∀ xs st, firstPage T xs st → firstPage T (xs ++ ys) (fold_left (addAsset T) ys st).
Proof.
  induction ys as [|y ys IH]; intros xs st Hst; simpl.
  - by rewrite app_nil_r.
  - replace (xs ++ y :: ys) with ((xs ++ [y]) ++ ys) by (by rewrite <- app_assoc).
    by apply IH, addAsset_firstPage.
Qed.

Lemma initial_firstPage T : firstPage T [] initialBatcher.
Proof.
  exists [], emptyArchive. simpl. repeat split; try done. by left.
Qed.

(** The archives listed for a single page. *)
Lemma singlePage_archives this T page :
  ∃ h a,
    Forall (fun b => T < DownloadArchiveInfo.size b
                     ∧ DownloadArchiveInfo.assetIds b ≠ []) h
    ∧ (a = emptyArchive
       ∨ (DownloadArchiveInfo.assetIds a ≠ [] ∧ DownloadArchiveInfo.size a ≤ T))
    ∧ totalArchived (h ++ [a]) = totalFileSize (page ++ companionsOf this page)
    ∧ DownloadResponseDto.archives (downloadResponse (batchPages this T [page]))
      = h ++ (if (0 <? length (DownloadArchiveInfo.assetIds a))%nat then [a] else []).
Proof.
  unfold batchPages. simpl. unfold processPage.
  pose proof (addAssets_firstPage T (withMotion this page) [] _ (initial_firstPage T))
    as (h & a & Hh & Ha & Hp & Hclosed & Hcur & Hsum).
  rewrite withMotion_companions in *. simpl in Hsum.
  exists h, a. repeat split; try done.
  destruct (fold_left _ _ _) as [hp ars ar]. simpl in *. subst hp ar ars.
  rewrite deref_last.
  destruct (0 <? length (DownloadArchiveInfo.assetIds a))%nat; simpl.
  - rewrite map_app. simpl. by rewrite deref_last, deref_seq_front.
  - by rewrite deref_seq_front, app_nil_r.
Qed.

(** X4. For a download of a single page whose recorded sizes are not
    negative and sum to at most 2^53 (the range in which the additions of
    JavaScript numbers are exact) no byte is lost or counted twice:
    [totalSize] is the sum of the recorded sizes of the assets of the
    page and of its fetched companions. *)
Theorem X4_single_page_total_size this T page :
  Forall (fun a => 0 ≤ fileSize a) (page ++ companionsOf this page) →
  totalFileSize (page ++ companionsOf this page) ≤ 9007199254740992 →
  DownloadResponseDto.totalSize (downloadResponse (batchPages this T [page]))
  = totalFileSize (page ++ companionsOf this page).
Proof.
  intros _ _.
  destruct (singlePage_archives this T page) as (h & a & _ & Hcur & Hsum & Hout).
  unfold downloadResponse in *. simpl in *. rewrite Hout, reduce_totalArchived.
  rewrite <- Hsum, !totalArchived_app.
  destruct Hcur as [->|[Hne _]]; simpl.
  - unfold totalArchived. simpl. lia.
  - destruct (DownloadArchiveInfo.assetIds a); [done|]. simpl. lia.
Qed.

Lemma X4_single_page_witness :
  DownloadResponseDto.totalSize
    (downloadResponse
       (batchPages Sample.liveStore 4
          [[Sample.asset "A" Sample.upload 5 (Some "M") None false; Sample.plain "B" 3]]))
  = 10.
Proof.
  apply (X4_single_page_total_size Sample.liveStore 4
           [Sample.asset "A" Sample.upload 5 (Some "M") None false; Sample.plain "B" 3]).
  - repeat constructor; vm_compute; discriminate.
  - vm_compute. discriminate.
Defined.

(** X5. For a download of a single page every archive but the last is
    strictly over the target size, the last one is either over the target
    too or is the final accumulator, within the target; no listed archive
    is empty. *)
Theorem X5_single_page_archive_bounds this T page :
  ∃ closed final,
    DownloadResponseDto.archives (downloadResponse (batchPages this T [page]))
    = closed ++ final
    ∧ Forall (fun b => T < DownloadArchiveInfo.size b) closed
    ∧ (final = [] ∨ ∃ a, final = [a] ∧ DownloadArchiveInfo.size a ≤ T)
    ∧ Forall (fun b => DownloadArchiveInfo.assetIds b ≠ []) (closed ++ final).
Proof.
  destruct (singlePage_archives this T page) as (h & a & Hclosed & Hcur & _ & Hout).
  exists h, (if (0 <? length (DownloadArchiveInfo.assetIds a))%nat then [a] else []).
  split; [done|]. split; [eapply Forall_impl; [exact Hclosed | by intros b [? _]]|].
  destruct Hcur as [->|[Hne Hle]]; simpl.
  - split; [by left|]. rewrite app_nil_r.
    eapply Forall_impl; [exact Hclosed | by intros b [_ ?]].
  - destruct (DownloadArchiveInfo.assetIds a) eqn:Ea; [done|]. simpl.
    split; [right; by exists a|].
    apply Forall_app. split.
    + eapply Forall_impl; [exact Hclosed | by intros b [_ ?]].
    + repeat constructor. by rewrite Ea.
Qed.

Lemma deref_app_l h t r : (r < length h)%nat → deref (h ++ t) r = deref h r.
Proof. intros Hr. unfold deref. by rewrite lookup_app_l. Qed.

Lemma addToArchive_nonempty x a : DownloadArchiveInfo.assetIds (addToArchive x a) ≠ [].
Proof. simpl. by destruct (DownloadArchiveInfo.assetIds a). Qed.

Lemma addAsset_pushedNonEmpty T st x :
  writesLast st → pushedNonEmpty st → pushedNonEmpty (addAsset T st x).
Proof.
  intros (h & a & Hh & Ha) Hp. unfold pushedNonEmpty in *.
  rewrite (addAsset_last T st h a x Hh Ha). rewrite Hh in Hp.
  assert (∀ t r,
            (r < length (h ++ [a]))%nat
            ∧ DownloadArchiveInfo.assetIds (deref (h ++ [a]) r) ≠ [] →
            (r < length (h ++ addToArchive x a :: t))%nat
            ∧ DownloadArchiveInfo.assetIds (deref (h ++ addToArchive x a :: t) r) ≠ [])
    as Hkeep.
  { intros t r [Hr Hne]. rewrite length_app in *. simpl in *. split; [lia|].
    destruct (decide (r = length h)) as [->|Hneq].
    - unfold deref. rewrite list_lookup_middle by done. apply addToArchive_nonempty.
    - rewrite deref_app_l in Hne by lia. by rewrite deref_app_l by lia. }
  destruct (T <? _); simpl.
  - apply Forall_app. split.
    + eapply Forall_impl; [exact Hp | apply Hkeep].
    + repeat constructor.
      * rewrite length_app. simpl. lia.
      * unfold deref. rewrite list_lookup_middle by done. apply addToArchive_nonempty.
  - eapply Forall_impl; [exact Hp | apply Hkeep].
Qed.

Lemma addAssets_pushedNonEmpty T xs :
  ∀ st, writesLast st → pushedNonEmpty st →
        pushedNonEmpty (fold_left (addAsset T) xs st).
Proof.
  induction xs as [|x xs IH]; intros st Hw Hp; simpl; [done|].
  apply IH; [by apply addAsset_writesLast | by apply addAsset_pushedNonEmpty].
Qed.

Lemma processPage_pushedNonEmpty this T st page :
  writesLast st → pushedNonEmpty st → pushedNonEmpty (processPage this T st page).
Proof.
  intros Hw Hp. unfold processPage.
  pose proof (addAssets_pushedNonEmpty T (withMotion this page) st Hw Hp) as Hp1.
  destruct (addAssets_writesLast T (withMotion this page) st Hw) as [(h & a & Hh & Ha) _].
  destruct (0 <? length _)%nat eqn:E; [|done].
  unfold pushedNonEmpty in *. simpl. apply Forall_app. split; [done|].
  repeat constructor.
  - rewrite Hh, Ha, length_app. simpl. lia.
  - apply Nat.ltb_lt in E. intros Hnil. rewrite Hnil in E. simpl in E. lia.
Qed.

(** X6. However the assets are paged, no archive listed in the response
    is empty. *)
Theorem X6_no_empty_archive_listed this T pages :
  Forall (fun b => DownloadArchiveInfo.assetIds b ≠ [])
    (DownloadResponseDto.archives (downloadResponse (batchPages this T pages))).
Proof.
  assert (∀ st, writesLast st → pushedNonEmpty st →
                pushedNonEmpty (fold_left (processPage this T) pages st)) as Hall.
  { induction pages as [|page pages IH]; intros st Hw Hp; simpl; [done|].
    apply IH; [by apply processPage_writesLast | by apply processPage_pushedNonEmpty]. }
  assert (writesLast initialBatcher) as Hw by (by exists [], emptyArchive).
  assert (pushedNonEmpty initialBatcher) as Hp by constructor.
  specialize (Hall _ Hw Hp). unfold batchPages, downloadResponse. simpl.
  apply Forall_map. eapply Forall_impl; [exact Hall|]. by intros r [_ ?].
Qed.

(** X7. [getDownloadInfo] only reads: it makes no call on a store, queue
    or notifier.  It fails with BadRequest exactly when no selector is
    given ([assetIds] absent, [albumId] and [userId] absent or empty), and
    otherwise only with Forbidden. *)
Theorem X7_download_info_reads_only this auth dto :
  log (getDownloadInfo this auth dto) = []
  ∧ (outcome (getDownloadInfo this auth dto)
       = Thrown (BadRequest "assetIds, albumId, or userId is required")
     ↔ DownloadInfoDto.assetIds dto = None
       ∧ truthy_ostring (DownloadInfoDto.albumId dto) = false
       ∧ truthy_ostring (DownloadInfoDto.userId dto) = false)
  ∧ (∀ e, outcome (getDownloadInfo this auth dto) = Thrown e →
          e = Forbidden ∨ e = BadRequest "assetIds, albumId, or userId is required").
Proof.
  unfold getDownloadInfo, getDownloadAssets, requirePermission.
  destruct (DownloadInfoDto.assetIds dto) as [ids|].
  { destruct (hasPermission this auth PERM_ASSET_DOWNLOAD ids); simpl;
      (split; [done|]); (split; [split; [discriminate | by intros [? _]]|]);
      intros e [= <-]; by left. }
  destruct (truthy_ostring (DownloadInfoDto.albumId dto)).
  { destruct (hasPermission this auth PERM_ALBUM_DOWNLOAD _); simpl;
      (split; [done|]); (split; [split; [discriminate | by intros (_ & ? & _)]|]);
      intros e [= <-]; by left. }
  destruct (truthy_ostring (DownloadInfoDto.userId dto)).
  { destruct (hasPermission this auth PERM_TIMELINE_DOWNLOAD _); simpl;
      (split; [done|]); (split; [split; [discriminate | by intros (_ & _ & ?)]|]);
      intros e [= <-]; by left. }
  simpl. split; [done|]. split; [done|]. intros e [= <-]. by right.
Qed.

(** ** The entries of a download archive *)

Lemma addFiles_paths extname assets :
  ∀ paths,
    zipPaths (log (addFiles extname paths assets)) = map AssetEntity.originalPath assets
    ∧ Forall (fun c => is_zip_add c = true) (log (addFiles extname paths assets))
    ∧ length (log (addFiles extname paths assets)) = length assets.
Proof.
  induction assets as [|a rest IH]; intros paths; [done|]. simpl.
  destruct (IH (setPath paths (combinedName extname a)
                  (plusOne (orZero (getPath paths (combinedName extname a))))))
    as (Hp & Hall & Hlen).
  destruct (addFiles extname _ rest) as [t o]. simpl in *.
  split; [by rewrite Hp|]. split; [by constructor|]. by rewrite Hlen.
Qed.

(** X8. Without the download permission on the requested ids
    [downloadArchive] fails before the zip is touched.  With it, the zip
    receives one entry per asset the store returns, in the store's order
    and with the asset's [originalPath] as source, and is finalized once,
    after the last entry. *)
Theorem X8_zip_entries_then_finalize extname this auth dto :
  let r := downloadArchive extname this auth dto in
  let permitted :=
    hasPermission this auth PERM_ASSET_DOWNLOAD (AssetIdsDto.assetIds dto) in
  (permitted = false → r = ([], Thrown Forbidden))
  ∧ (permitted = true →
     ∃ entries,
       log r = entries ++ [ZipFinalize]
       ∧ Forall (fun c => is_zip_add c = true) entries
       ∧ zipPaths entries
         = map AssetEntity.originalPath (getByIds this (AssetIdsDto.assetIds dto))).
Proof.
  intros r permitted. subst r permitted.
  unfold downloadArchive, requirePermission.
  destruct (hasPermission this auth PERM_ASSET_DOWNLOAD _); simpl; (split; [done|]);
    [|discriminate].
  intros _.
  destruct (addFiles_paths extname (getByIds this (AssetIdsDto.assetIds dto)) ∅)
    as (Hp & Hall & _).
  pose proof (addFiles_returned extname (getByIds this (AssetIdsDto.assetIds dto)) ∅)
    as Ho.
  destruct (addFiles extname ∅ _) as [t o]. simpl in *. subst o. simpl.
  by exists t.
Qed.

Lemma X8_zip_entries_witness :
  ∃ entries,
    log (downloadArchive Sample.jpg Sample.sameNames Sample.auth Sample.sameNamesDto)
    = entries ++ [ZipFinalize]
    ∧ Forall (fun c => is_zip_add c = true) entries
    ∧ zipPaths entries
      = ["/upload/u1.jpg"; "/upload/u2.jpg"; "/upload/u3.jpg"; "/upload/u4.jpg"].
Proof.
  exact (proj2 (X8_zip_entries_then_finalize
                  Sample.jpg Sample.sameNames Sample.auth Sample.sameNamesDto) eq_refl).
Defined.

Lemma length_append s t :
  String.length (s +:+ t) = (String.length s + String.length t)%nat.
Proof. induction s as [|c s IH]; simpl; [done | by rewrite IH]. Qed.

Lemma append_inj_r s1 s2 t : s1 +:+ t = s2 +:+ t → s1 = s2.
Proof.
  revert s2. induction s1 as [|a s1 IH]; intros [|b s2] E; simpl in E.
  - done.
  - apply (f_equal String.length) in E.
    rewrite !length_append in E. cbn [String.length] in E. lia.
  - apply (f_equal String.length) in E.
    rewrite !length_append in E. cbn [String.length] in E. lia.
  - cbn [String.append] in E. injection E as -> E. f_equal. by apply IH.
Qed.

Lemma decimal_inj a b : decimal a = decimal b → a = b.
Proof.
  unfold decimal. intros E.
  assert (∀ n, Nat.to_uint n ≠ Decimal.Nil) as Hnn.
  { intros n. rewrite <- (Unsigned.of_to n) at 1. rewrite Unsigned.to_of.
    apply unorm_nonnil. }
  apply (f_equal NilZero.uint_of_string) in E.
  rewrite !NilZero.usu in E by apply Hnn.
  injection E as E. by apply Unsigned.to_uint_inj.
Qed.

(** The zip names of two assets that share file name and extension. *)
Lemma zipName_distinct extname a b i j :
  AssetEntity.originalFileName a = AssetEntity.originalFileName b →
  extname (AssetEntity.originalPath a) = extname (AssetEntity.originalPath b) →
  i ≠ j → zipName extname a (PathNumber i) ≠ zipName extname b (PathNumber j).
Proof.
  intros Hn He Hij. unfold zipName, combinedName. rewrite Hn, He.
  set (name := AssetEntity.originalFileName b).
  set (ext := extname (AssetEntity.originalPath b)).
  destruct i as [|i], j as [|j]; simpl; try done.
  - intros E. apply (inj (String.app name)) in E.
    apply (f_equal String.length) in E.
    rewrite !length_append in E. cbn [String.length] in E. lia.
  - intros E. apply (inj (String.app name)) in E.
    apply (f_equal String.length) in E.
    rewrite !length_append in E. cbn [String.length] in E. lia.
  - intros E. apply (inj (String.app name)) in E. cbn [String.append] in E.
    injection E as E.
    change (decimal (S i) +:+ ext = decimal (S j) +:+ ext) in E.
    apply append_inj_r, decimal_inj in E. done.
Qed.

Lemma collisions_app extname N l1 l2 :
  collisions extname N (l1 ++ l2)
  = (collisions extname N l1 + collisions extname N l2)%nat.
Proof. unfold collisions. by rewrite List.filter_app, length_app. Qed.

(** X9. Two assets of one archive that share [originalFileName] and
    extension, and whose combined name is not the name of a property of
    [Object.prototype], never get the same zip name: the [+k] suffixes
    keep the repeats of such a name apart. *)
Theorem X9_repeated_names_kept_apart extname this auth dto l1 a l2 b l3 :
  hasPermission this auth PERM_ASSET_DOWNLOAD (AssetIdsDto.assetIds dto) = true →
  getByIds this (AssetIdsDto.assetIds dto) = l1 ++ a :: l2 ++ b :: l3 →
  AssetEntity.originalFileName a = AssetEntity.originalFileName b →
  extname (AssetEntity.originalPath a) = extname (AssetEntity.originalPath b) →
  inherited (combinedName extname a) = None →
  let names := zipNames (log (downloadArchive extname this auth dto)) in
  ∃ na nb,
    names !! length l1 = Some na
    ∧ names !! (length l1 + S (length l2))%nat = Some nb
    ∧ na ≠ nb.
Proof.
  intros Hperm Hget Hn He Ha names. subst names.
  destruct (downloadArchive_names extname this auth dto Hperm) as [-> _].
  rewrite Hget.
  assert (combinedName extname b = combinedName extname a) as Hab
    by (unfold combinedName; by rewrite Hn, He).
  eexists _, _. split; [|split].
  - exact (addFiles_name_at extname l1 a (l2 ++ b :: l3) Ha ∅ []
             (countsNames_empty extname)).
  - replace (l1 ++ a :: l2 ++ b :: l3) with ((l1 ++ a :: l2) ++ b :: l3)
      by (by rewrite <- app_assoc).
    replace (length l1 + S (length l2))%nat with (length (l1 ++ a :: l2))
      by (rewrite length_app; simpl; lia).
    apply (addFiles_name_at extname (l1 ++ a :: l2) b l3); [by rewrite Hab|].
    apply countsNames_empty.
  - simpl. apply zipName_distinct; [done..|].
    rewrite Hab, collisions_app. unfold collisions at 3. simpl.
    rewrite String.eqb_refl. simpl. lia.
Qed.

Lemma X9_repeated_names_witness :
  ∃ na nb,
    zipNames (log (downloadArchive Sample.jpg Sample.sameNames Sample.auth
                     Sample.sameNamesDto)) !! 0%nat = Some na
    ∧ zipNames (log (downloadArchive Sample.jpg Sample.sameNames Sample.auth
                       Sample.sameNamesDto)) !! 3%nat = Some nb
    ∧ na ≠ nb.
Proof.
  exact (X9_repeated_names_kept_apart
           Sample.jpg Sample.sameNames Sample.auth Sample.sameNamesDto
           [] (Sample.named "u1" "IMG_1")
           [Sample.named "u2" "IMG_1"; Sample.named "u3" "IMG_2"]
           (Sample.named "u4" "IMG_1") []
           eq_refl eq_refl eq_refl eq_refl eq_refl).
Defined.

(** X25. The assets go into the zip in order, one entry each.  For an
    asset whose combined name [N] (its [originalFileName] followed by the
    extension of its [originalPath]) is not the name of a property of
    [Object.prototype]: when no earlier asset had the combined name [N]
    it is added under [N] unchanged, and when it is the k-th to repeat
    [N] (k ≥ 1 earlier assets had it) it is added under
    [originalFileName], [+k] and the extension. *)
Theorem X25_zip_names_suffix_repeats extname this auth dto :
  hasPermission this auth PERM_ASSET_DOWNLOAD (AssetIdsDto.assetIds dto) = true →
  let assets := getByIds this (AssetIdsDto.assetIds dto) in
  let names := zipNames (log (downloadArchive extname this auth dto)) in
  outcome (downloadArchive extname this auth dto) = Returned tt
  ∧ length names = length assets
  ∧ ∀ l1 a l2,
      assets = l1 ++ a :: l2 →
      let ext := extname (AssetEntity.originalPath a) in
      let N := AssetEntity.originalFileName a +:+ ext in
      let k := collisions extname N l1 in
      inherited N = None →
      names !! length l1 =
        Some (match k with
              | O => N
              | S _ => AssetEntity.originalFileName a +:+ "+" +:+ decimal k +:+ ext
              end).
Proof.
  intros Hperm assets names. subst names.
  destruct (downloadArchive_names extname this auth dto Hperm) as [-> Ho].
  fold assets. split; [done|]. split; [apply addFiles_names_length|].
  intros l1 a l2 -> ext N k HN.
  rewrite (addFiles_name_at extname l1 a l2 HN ∅ [] (countsNames_empty extname)).
  simpl. unfold zipName, combinedName. fold ext N k. by destruct k.
Qed.

Lemma X25_zip_names_witness :
  zipNames (log (downloadArchive Sample.jpg Sample.sameNames Sample.auth Sample.sameNamesDto))
    !! 3%nat = Some "IMG_1+2.jpg".
Proof.
  exact (proj2 (proj2 (X25_zip_names_suffix_repeats
                         Sample.jpg Sample.sameNames Sample.auth Sample.sameNamesDto eq_refl))
           [Sample.named "u1" "IMG_1"; Sample.named "u2" "IMG_1"; Sample.named "u3" "IMG_2"]
           (Sample.named "u4" "IMG_1") [] eq_refl eq_refl).
Defined.

(** ** Stack mutation: what is written, deleted and notified *)

Lemma existsb_eqb_elem x (acc : list string) :
  existsb (String.eqb x) acc = true ↔ x ∈ acc.
Proof.
  rewrite existsb_exists. split.
  - intros (y & Hy & ->%String.eqb_eq). by apply list_elem_of_In.
  - intros Hx. exists x. split; [by apply list_elem_of_In | apply String.eqb_refl].
Qed.

Lemma Set_add_fold xs :
  ∀ acc,
    NoDup acc →
    NoDup (fold_left Set_add xs acc)
    ∧ ∀ x, x ∈ fold_left Set_add xs acc ↔ x ∈ acc ∨ x ∈ xs.
Proof.
  induction xs as [|y xs IH]; intros acc Hnd; simpl.
  - split; [done|]. intros x. rewrite elem_of_nil. tauto.
  - assert (NoDup (Set_add acc y) ∧ ∀ x, x ∈ Set_add acc y ↔ x ∈ acc ∨ x = y)
      as [Hnd' Hel].
    { unfold Set_add. destruct (existsb (String.eqb y) acc) eqn:E.
      - apply existsb_eqb_elem in E. split; [done|]. intros x. split; [tauto|].
        by intros [?| ->].
      - assert (y ∉ acc) as Hy.
        { intros Hy%existsb_eqb_elem. congruence. }
        split.
        + apply NoDup_app. repeat split; [done | | apply NoDup_singleton].
          intros x Hx ->%list_elem_of_singleton. done.
        + intros x. rewrite elem_of_app, list_elem_of_singleton. tauto. }
    destruct (IH _ Hnd') as [H1 H2]. split; [done|].
    intros x. rewrite H2, Hel, elem_of_cons. tauto.
Qed.

Lemma Set_new_NoDup xs : NoDup (Set_new xs).
Proof. apply (Set_add_fold xs []), NoDup_nil_2. Qed.

Lemma Set_new_elem xs x : x ∈ Set_new xs ↔ x ∈ xs.
Proof.
  unfold Set_new. rewrite (proj2 (Set_add_fold xs [] (NoDup_nil_2))).
  rewrite elem_of_nil. tauto.
Qed.

(** The metadata loop, call by call. *)
Lemma forEach_metadata dto ids :
  forEach ids (fun id => updateMetadata (metadataOf dto id))
  = (if hasMetadata dto
     then flat_map (fun id => [AssetUpsertExif (metadataOf dto id);
                               JobQueue (SIDECAR_WRITE (metadataOf dto id))]) ids
     else [],
     Returned tt).
Proof.
  induction ids as [|id ids IH]; simpl.
  - by destruct (hasMetadata dto).
  - rewrite IH. unfold updateMetadata, hasMetadata, metadataOf. simpl.
    destruct (AssetBulkUpdateDto.dateTimeOriginal dto),
      (AssetBulkUpdateDto.latitude dto), (AssetBulkUpdateDto.longitude dto); reflexivity.
Qed.

(** A run of [updateAll] that gets past its first part, call by call. *)
Lemma updateAll_log this auth dto t plan :
  hasPermission this auth PERM_ASSET_UPDATE (AssetBulkUpdateDto.ids dto) = true →
  planStacks this auth dto = (t, Returned plan) →
  updateAll this auth dto =
    (t ++ (if hasMetadata dto
           then flat_map (fun id => [AssetUpsertExif (metadataOf dto id);
                                     JobQueue (SIDECAR_WRITE (metadataOf dto id))])
                  (plan_ids plan)
           else [])
       ++ AssetUpdateAll (plan_ids plan) (plan_options plan)
       :: map StackDelete (stackIdsToDelete plan)
       ++ [Send ASSET_UPDATE (AuthDto.user_id auth) (ManyIds (plan_ids plan))],
     Returned tt).
Proof.
  intros H Hplan. unfold updateAll, requirePermission. rewrite H. simpl.
  rewrite (bind_returned _ _ t plan Hplan).
  change (forEach (plan_ids plan) _)
    with (forEach (plan_ids plan) (fun id => updateMetadata (metadataOf dto id))).
  rewrite forEach_metadata, forEach_calls. reflexivity.
Qed.

(** The three modes of the first part of [updateAll], spelled out. *)
Lemma planStacks_removeParent this auth dto :
  truthy_obool (AssetBulkUpdateDto.removeParent dto) = true →
  planStacks this auth dto =
    planRemoveParent this (AssetBulkUpdateDto.ids dto) (initialOptions dto).
Proof. intros H. unfold planStacks. by rewrite H. Qed.

Lemma planStacks_plain this auth dto :
  truthy_obool (AssetBulkUpdateDto.removeParent dto) = false →
  truthy_ostring (AssetBulkUpdateDto.stackParentId dto) = false →
  planStacks this auth dto =
    ([], Returned {| plan_ids := AssetBulkUpdateDto.ids dto;
                     plan_options := initialOptions dto;
                     stackIdsToDelete := [] |}).
Proof. intros H1 H2. unfold planStacks. simpl. by rewrite H1, H2. Qed.

Lemma planStacks_stackParent this auth dto p :
  truthy_obool (AssetBulkUpdateDto.removeParent dto) = false →
  AssetBulkUpdateDto.stackParentId dto = Some p → p ≠ "" →
  planStacks this auth dto =
    planStackParent this auth (AssetBulkUpdateDto.ids dto) (initialOptions dto) p.
Proof.
  intros H1 H2 H3. unfold planStacks. simpl. rewrite H1, H2. simpl.
  unfold truthy_string. by destruct (String.eqb_spec p "").
Qed.

(** Whatever the mode, the plan marks no stack twice and keeps the
    requested ids in front. *)
Lemma planStacks_plan this auth dto t plan :
  planStacks this auth dto = (t, Returned plan) →
  NoDup (stackIdsToDelete plan)
  ∧ AssetBulkUpdateDto.ids dto `prefix_of` plan_ids plan
  ∧ stackWrites t = t ∧ (length t ≤ 1)%nat.
Proof.
  unfold planStacks.
  destruct (truthy_obool (AssetBulkUpdateDto.removeParent dto)).
  { unfold planRemoveParent. intros [= <- <-]. simpl.
    split; [apply Set_new_NoDup|]. split; [by eexists|]. split; [done | lia]. }
  simpl. destruct (truthy_ostring (AssetBulkUpdateDto.stackParentId dto)).
  2:{ intros [= <- <-]. simpl. split; [constructor|]. split; [done|]. split; [done | lia]. }
  unfold planStackParent, requirePermission.
  destruct (hasPermission this auth PERM_ASSET_UPDATE _); [|discriminate].
  simpl. destruct (getById this _) as [primaryAsset|]; [|discriminate].
  destruct (AssetEntity.stack primaryAsset) as [s|]; simpl; intros [= <- <-]; simpl;
    (split; [apply Set_new_NoDup|]);
    (split; [rewrite <- app_assoc; by eexists|]); (split; [done | lia]).
Qed.

(** A run of [updateAll] fails before any call or goes all the way. *)
Lemma updateAll_run this auth dto :
  (∃ e, updateAll this auth dto = ([], Thrown e))
  ∨ ∃ t plan,
      hasPermission this auth PERM_ASSET_UPDATE (AssetBulkUpdateDto.ids dto) = true
      ∧ planStacks this auth dto = (t, Returned plan)
      ∧ log (updateAll this auth dto) =
          t ++ (if hasMetadata dto
                then flat_map (fun id => [AssetUpsertExif (metadataOf dto id);
                                          JobQueue (SIDECAR_WRITE (metadataOf dto id))])
                       (plan_ids plan)
                else [])
            ++ AssetUpdateAll (plan_ids plan) (plan_options plan)
            :: map StackDelete (stackIdsToDelete plan)
            ++ [Send ASSET_UPDATE (AuthDto.user_id auth) (ManyIds (plan_ids plan))]
      ∧ outcome (updateAll this auth dto) = Returned tt.
Proof.
  destruct (hasPermission this auth PERM_ASSET_UPDATE (AssetBulkUpdateDto.ids dto)) eqn:Hperm.
  2:{ left. exists Forbidden. by apply updateAll_forbidden. }
  pose proof (planStacks_result this auth dto) as Hplan.
  destruct (planStacks this auth dto) as [t [plan|e]] eqn:Eplan.
  - right. exists t, plan. rewrite (updateAll_log _ _ _ _ _ Hperm Eplan). done.
  - left. exists e. rewrite (updateAll_plan_thrown _ _ _ _ _ Hperm Eplan).
    by inversion Hplan.
Qed.

Section Views.
Context {A : Type} (view : Call → option A).

Lemma view_metadata dto ids :
  (∀ e, view (AssetUpsertExif e) = None) →
  (∀ e, view (JobQueue (SIDECAR_WRITE e)) = None) →
  omap view (if hasMetadata dto
             then flat_map (fun id => [AssetUpsertExif (metadataOf dto id);
                                       JobQueue (SIDECAR_WRITE (metadataOf dto id))]) ids
             else []) = [].
Proof.
  intros H1 H2. destruct (hasMetadata dto); [|done].
  induction ids as [|id ids IH]; simpl; [done|]. by rewrite H1, H2.
Qed.

Lemma view_deletes dels :
  (∀ s, view (StackDelete s) = None) → omap view (map StackDelete dels) = [].
Proof.
  intros H. induction dels as [|d dels IH]; simpl; [done|]. by rewrite H.
Qed.

Lemma view_stack_writes t :
  (∀ e, view (StackCreate e) = None) → (∀ e, view (StackSave e) = None) →
  stackWrites t = t → omap view t = [].
Proof.
  intros H1 H2 Ht. rewrite <- Ht. unfold stackWrites. clear Ht.
  induction t as [|c t IH]; simpl; [done|].
  destruct c; simpl; rewrite ?H1, ?H2; done.
Qed.
End Views.

Lemma deletedStacks_deletes dels : deletedStacks (map StackDelete dels) = dels.
Proof.
  induction dels as [|d dels IH]; [done|].
  unfold deletedStacks in *. simpl. by f_equal.
Qed.

(** The ids deleted by a run that gets past the first part are the
    marked ones. *)
Lemma deletedStacks_run dto (t : list Call) ids o dels last :
  stackWrites t = t →
  deletedStacks
    (t ++ (if hasMetadata dto
           then flat_map (fun id => [AssetUpsertExif (metadataOf dto id);
                                     JobQueue (SIDECAR_WRITE (metadataOf dto id))]) ids
           else [])
       ++ AssetUpdateAll ids o :: map StackDelete dels ++ [Send ASSET_UPDATE last (ManyIds ids)])
  = dels.
Proof.
  intros Ht. unfold deletedStacks. rewrite !omap_app. simpl. rewrite omap_app. simpl.
  rewrite view_stack_writes, view_metadata by done. simpl.
  rewrite app_nil_r. apply deletedStacks_deletes.
Qed.

(** X10. In no run of [updateAll] is a stack deleted twice: the ids of
    the delete calls on the stack store are pairwise distinct. *)
Theorem X10_no_stack_deleted_twice this auth dto :
  NoDup (deletedStacks (log (updateAll this auth dto))).
Proof.
  destruct (updateAll_run this auth dto) as [[e ->]|(t & plan & _ & Eplan & -> & _)];
    [constructor|].
  destruct (planStacks_plan _ _ _ _ _ Eplan) as (Hnd & _ & Ht & _).
  by rewrite deletedStacks_run.
Qed.

Lemma bulkUpdates_run dto (t : list Call) ids o dels last :
  stackWrites t = t →
  bulkUpdates
    (t ++ (if hasMetadata dto
           then flat_map (fun id => [AssetUpsertExif (metadataOf dto id);
                                     JobQueue (SIDECAR_WRITE (metadataOf dto id))]) ids
           else [])
       ++ AssetUpdateAll ids o :: map StackDelete dels ++ [Send ASSET_UPDATE last (ManyIds ids)])
  = [(ids, o)].
Proof.
  intros Ht. unfold bulkUpdates. rewrite !omap_app. simpl. rewrite omap_app. simpl.
  by rewrite view_stack_writes, view_metadata, view_deletes by done.
Qed.

Lemma notifications_run dto (t : list Call) ids o dels last :
  stackWrites t = t →
  notifications
    (t ++ (if hasMetadata dto
           then flat_map (fun id => [AssetUpsertExif (metadataOf dto id);
                                     JobQueue (SIDECAR_WRITE (metadataOf dto id))]) ids
           else [])
       ++ AssetUpdateAll ids o :: map StackDelete dels ++ [Send ASSET_UPDATE last (ManyIds ids)])
  = [(ASSET_UPDATE, last, ManyIds ids)].
Proof.
  intros Ht. unfold notifications. rewrite !omap_app. simpl. rewrite omap_app. simpl.
  by rewrite view_stack_writes, view_metadata, view_deletes by done.
Qed.

Lemma stackWrites_run dto (t : list Call) ids o dels last :
  stackWrites t = t →
  stackWrites
    (t ++ (if hasMetadata dto
           then flat_map (fun id => [AssetUpsertExif (metadataOf dto id);
                                     JobQueue (SIDECAR_WRITE (metadataOf dto id))]) ids
           else [])
       ++ AssetUpdateAll ids o :: map StackDelete dels ++ [Send ASSET_UPDATE last (ManyIds ids)])
  = t.
Proof.
  intros Ht. unfold stackWrites in *. rewrite !List.filter_app, Ht. simpl.
  rewrite List.filter_app. simpl.
  assert (List.filter is_stack_write (map StackDelete dels) = []) as ->.
  { induction dels as [|d dels IH]; simpl; done. }
  assert (List.filter is_stack_write
            (if hasMetadata dto
             then flat_map (fun id => [AssetUpsertExif (metadataOf dto id);
                                       JobQueue (SIDECAR_WRITE (metadataOf dto id))]) ids
             else []) = []) as ->.
  { destruct (hasMetadata dto); [|done]. induction ids as [|i ids IH]; simpl; done. }
  by rewrite app_nil_r.
Qed.

Lemma metadata_run (view : Call → option ISidecarWriteJob.t) dto (t : list Call)
    ids o dels last :
  stackWrites t = t →
  (∀ e, view (StackCreate e) = None) → (∀ e, view (StackSave e) = None) →
  (∀ s, view (StackDelete s) = None) →
  view (AssetUpdateAll ids o) = None →
  view (Send ASSET_UPDATE last (ManyIds ids)) = None →
  omap view
    (t ++ (if hasMetadata dto
           then flat_map (fun id => [AssetUpsertExif (metadataOf dto id);
                                     JobQueue (SIDECAR_WRITE (metadataOf dto id))]) ids
           else [])
       ++ AssetUpdateAll ids o :: map StackDelete dels ++ [Send ASSET_UPDATE last (ManyIds ids)])
  = omap view
      (if hasMetadata dto
       then flat_map (fun id => [AssetUpsertExif (metadataOf dto id);
                                 JobQueue (SIDECAR_WRITE (metadataOf dto id))]) ids
       else []).
Proof.
  intros Ht H1 H2 H3 H4 H5. rewrite !omap_app. simpl. rewrite H4, omap_app. simpl.
  rewrite H5, view_stack_writes, view_deletes by done. simpl. by rewrite app_nil_r.
Qed.

(** The first part of [updateAll] when it stacks under a parent that
    exists and may be updated. *)
Lemma planStackParent_returned this auth ids options p primaryAsset :
  hasPermission this auth PERM_ASSET_UPDATE [p] = true →
  getById this p = Some primaryAsset →
  ∃ w plan,
    planStackParent this auth ids options p = ([w], Returned plan)
    ∧ is_stack_write w = true
    ∧ stackIdsToDelete plan =
        Set_new (map stackIdOf
          (List.filter (fun a => truthy_ostring (AssetEntity.stackId a)
                                 && otherStack (AssetEntity.stack primaryAsset) a)
             (getByIds this (ids ++ [p]))))
    ∧ plan_ids plan =
        (ids ++ [p])
        ++ flat_map childrenOf (List.filter hasChildren (getByIds this (ids ++ [p])))
    ∧ (w = StackCreate {| StackWrite.id := None;
                          StackWrite.primaryAssetId := Some (AssetEntity.id primaryAsset);
                          StackWrite.assets := Some (plan_ids plan) |}
       ∧ AssetEntity.stack primaryAsset = None
       ∨ ∃ s, w = StackSave {| StackWrite.id := Some (AssetStackEntity.id s);
                               StackWrite.primaryAssetId := Some (AssetEntity.id primaryAsset);
                               StackWrite.assets := Some (plan_ids plan) |}
              ∧ AssetEntity.stack primaryAsset = Some s).
Proof.
  intros Hperm Hget. unfold planStackParent, requirePermission.
  rewrite Hperm, Hget. simpl.
  destruct (AssetEntity.stack primaryAsset) as [s|] eqn:Hs; simpl;
    eexists _, _; (split; [reflexivity|]); simpl; repeat split; eauto.
Qed.

(** X11. When assets are stacked under a parent that already has a
    stack, that stack is the destination and is never deleted by the
    run. *)
Theorem X11_destination_stack_survives this auth dto p primaryAsset s :
  truthy_obool (AssetBulkUpdateDto.removeParent dto) = false →
  AssetBulkUpdateDto.stackParentId dto = Some p →
  getById this p = Some primaryAsset →
  AssetEntity.stack primaryAsset = Some s →
  AssetStackEntity.id s ∉ deletedStacks (log (updateAll this auth dto)).
Proof.
  intros Hrm Hp Hget Hs.
  destruct (updateAll_run this auth dto) as [[e ->]|(t & plan & _ & Eplan & -> & _)];
    [by intros ?%elem_of_nil|].
  destruct (planStacks_plan _ _ _ _ _ Eplan) as (_ & _ & Ht & _).
  rewrite deletedStacks_run by done.
  destruct (String.eqb_spec p "") as [->|Hne].
  { rewrite planStacks_plain in Eplan by (by rewrite ?Hp).
    injection Eplan as <- <-. by intros ?%elem_of_nil. }
  rewrite (planStacks_stackParent _ _ _ p Hrm Hp Hne) in Eplan.
  destruct (hasPermission this auth PERM_ASSET_UPDATE [p]) eqn:Hperm.
  2:{ unfold planStackParent, requirePermission in Eplan. rewrite Hperm in Eplan.
      discriminate Eplan. }
  destruct (planStackParent_returned this auth (AssetBulkUpdateDto.ids dto)
              (initialOptions dto) p primaryAsset Hperm Hget)
    as (w & plan' & E & _ & Hdel & _).
  rewrite E in Eplan. injection Eplan as <- <-.
  rewrite Hdel, Set_new_elem, list_elem_of_fmap.
  intros (a & Hid & Ha). apply list_elem_of_In, filter_In in Ha as [_ Ha].
  apply andb_true_iff in Ha as [_ Ha]. rewrite Hs in Ha. simpl in Ha.
  rewrite Hid, String.eqb_refl in Ha. done.
Qed.

Lemma X11_destination_stack_witness :
  "sp" ∉ deletedStacks (log (updateAll Sample.reuse Sample.auth Sample.mergeDto)).
Proof.
  exact (X11_destination_stack_survives Sample.reuse Sample.auth Sample.mergeDto "p"
           (Sample.asset "p" Sample.upload 1 None (Some Sample.stackP) false)
           Sample.stackP eq_refl eq_refl eq_refl eq_refl).
Defined.

(** X12. A run of [updateAll] writes a stack at most once.  With
    [removeParent] set it writes none; with neither [removeParent] nor a
    non-empty [stackParentId] it makes no call on the stack store at
    all. *)
Theorem X12_stack_store_calls_by_mode this auth dto :
  let t := log (updateAll this auth dto) in
  (length (stackWrites t) ≤ 1)%nat
  ∧ (truthy_obool (AssetBulkUpdateDto.removeParent dto) = true → stackWrites t = [])
  ∧ (truthy_obool (AssetBulkUpdateDto.removeParent dto) = false →
     truthy_ostring (AssetBulkUpdateDto.stackParentId dto) = false →
     stackWrites t = [] ∧ deletedStacks t = []).
Proof.
  intros t. subst t.
  destruct (updateAll_run this auth dto) as [[e ->]|(t & plan & _ & Eplan & -> & _)].
  { simpl. repeat split; lia. }
  destruct (planStacks_plan _ _ _ _ _ Eplan) as (_ & _ & Ht & Hlen).
  rewrite stackWrites_run, deletedStacks_run by done.
  split; [done|]. split.
  - intros Hrm. rewrite planStacks_removeParent in Eplan by done.
    by injection Eplan as <- _.
  - intros Hrm Hp. rewrite planStacks_plain in Eplan by done.
    by injection Eplan as <- <-.
Qed.

Lemma X12_stack_store_calls_witness :
  stackWrites (log (updateAll Sample.parentDenied Sample.auth Sample.removeParentDto)) = [].
Proof.
  exact (proj1 (proj2 (X12_stack_store_calls_by_mode
                         Sample.parentDenied Sample.auth Sample.removeParentDto)) eq_refl).
Defined.

(** X13. [updateAll] notifies exactly when it returns, once and as its
    last call; the notification goes to the caller and carries the id
    list of the one bulk update, and that list starts with the requested
    ids. *)
Theorem X13_bulk_update_and_notification this auth dto :
  let r := updateAll this auth dto in
  (outcome r = Returned tt ↔ notifications (log r) ≠ [])
  ∧ (outcome r = Returned tt →
     ∃ ids o,
       bulkUpdates (log r) = [(ids, o)]
       ∧ notifications (log r) = [(ASSET_UPDATE, AuthDto.user_id auth, ManyIds ids)]
       ∧ last (log r) = Some (Send ASSET_UPDATE (AuthDto.user_id auth) (ManyIds ids))
       ∧ AssetBulkUpdateDto.ids dto `prefix_of` ids).
Proof.
  intros r. subst r.
  destruct (updateAll_run this auth dto) as [[e ->]|(t & plan & _ & Eplan & El & Eo)].
  { simpl. split; [split; [discriminate | done] | discriminate]. }
  destruct (planStacks_plan _ _ _ _ _ Eplan) as (_ & Hpre & Ht & _).
  rewrite El, Eo, notifications_run, bulkUpdates_run by done.
  split; [done|]. intros _. eexists _, _. split; [done|]. split; [done|].
  split; [|done].
  rewrite !app_assoc. rewrite app_comm_cons, app_assoc. apply last_snoc.
Qed.

Lemma X13_bulk_update_witness :
  ∃ ids o,
    bulkUpdates (log (updateAll Sample.merge Sample.auth Sample.mergeDto)) = [(ids, o)]
    ∧ notifications (log (updateAll Sample.merge Sample.auth Sample.mergeDto))
      = [(ASSET_UPDATE, "owner", ManyIds ids)].
Proof.
  destruct (proj2 (X13_bulk_update_and_notification Sample.merge Sample.auth Sample.mergeDto)
              eq_refl) as (ids & o & H1 & H2 & _).
  exists ids, o. split; assumption.
Defined.

Lemma exifWrites_metadata dto ids :
  exifWrites (flat_map (fun id => [AssetUpsertExif (metadataOf dto id);
                                   JobQueue (SIDECAR_WRITE (metadataOf dto id))]) ids)
  = map (metadataOf dto) ids.
Proof.
  induction ids as [|i ids IH]; [done|]. unfold exifWrites in *. simpl. by f_equal.
Qed.

Lemma sidecarJobs_metadata dto ids :
  sidecarJobs (flat_map (fun id => [AssetUpsertExif (metadataOf dto id);
                                    JobQueue (SIDECAR_WRITE (metadataOf dto id))]) ids)
  = map (metadataOf dto) ids.
Proof.
  induction ids as [|i ids IH]; [done|]. unfold sidecarJobs in *. simpl. by f_equal.
Qed.

(** X14. When the request carries no date and no coordinate, no run of
    [updateAll] writes exif or enqueues a sidecar job.  When it carries
    one, a run that returns writes exif once and enqueues one sidecar job
    for every id of the bulk update, in order, each with the request's
    date and coordinates and no description. *)
Theorem X14_metadata_writes this auth dto :
  let t := log (updateAll this auth dto) in
  (hasMetadata dto = false → exifWrites t = [] ∧ sidecarJobs t = [])
  ∧ (hasMetadata dto = true →
     outcome (updateAll this auth dto) = Returned tt →
     ∃ ids o,
       bulkUpdates t = [(ids, o)]
       ∧ exifWrites t = map (metadataOf dto) ids
       ∧ sidecarJobs t = map (metadataOf dto) ids).
Proof.
  intros t. subst t.
  destruct (updateAll_run this auth dto) as [[e ->]|(t & plan & _ & Eplan & El & Eo)].
  { simpl. split; [done | discriminate]. }
  destruct (planStacks_plan _ _ _ _ _ Eplan) as (_ & _ & Ht & _).
  rewrite El, bulkUpdates_run by done. unfold exifWrites, sidecarJobs.
  rewrite !metadata_run by done.
  split.
  - by intros ->.
  - intros Hm _. rewrite Hm. eexists _, _. split; [done|].
    split; [apply exifWrites_metadata | apply sidecarJobs_metadata].
Qed.

Lemma X14_metadata_writes_witness :
  ∃ ids o,
    bulkUpdates (log (updateAll Sample.merge Sample.auth Sample.mergeDatedDto)) = [(ids, o)]
    ∧ exifWrites (log (updateAll Sample.merge Sample.auth Sample.mergeDatedDto))
      = map (metadataOf Sample.mergeDatedDto) ids.
Proof.
  destruct (proj2 (X14_metadata_writes Sample.merge Sample.auth Sample.mergeDatedDto)
              eq_refl eq_refl) as (ids & o & H1 & H2 & _).
  exists ids, o. split; assumption.
Defined.

Lemma truthy_ostring_spec x :
  truthy_ostring x = true ↔ ∃ s, x = Some s ∧ s ≠ "".
Proof.
  destruct x as [s|]; simpl.
  - unfold truthy_string. destruct (String.eqb_spec s "") as [->|Hne]; simpl.
    + split; [discriminate|]. by intros (s & [= <-] & ?).
    + split; [|done]. intros _. by exists s.
  - split; [discriminate|]. by intros (s & ? & _).
Qed.

Lemma elem_of_filter_list {A} (f : A → bool) (l : list A) x :
  x ∈ List.filter f l ↔ x ∈ l ∧ f x = true.
Proof. by rewrite !list_elem_of_In, filter_In. Qed.

Lemma elem_of_flat_map_list {A B} (f : A → list B) (l : list A) y :
  y ∈ flat_map f l ↔ ∃ a, a ∈ l ∧ y ∈ f a.
Proof.
  rewrite list_elem_of_In, in_flat_map. split; intros (a & Ha & Hy); exists a.
  - by rewrite !list_elem_of_In.
  - by rewrite <- !list_elem_of_In.
Qed.

(** The stack ids marked among [assets]: the non-empty [stackId]s that
    pass [keep]. *)
Lemma marked_stack_ids (keep : AssetEntity.t → bool) assets sid :
  sid ∈ Set_new (map stackIdOf
                   (List.filter (fun a => truthy_ostring (AssetEntity.stackId a) && keep a)
                      assets))
  ↔ sid ≠ "" ∧ ∃ a, a ∈ assets ∧ AssetEntity.stackId a = Some sid ∧ keep a = true.
Proof.
  rewrite Set_new_elem, list_elem_of_fmap. split.
  - intros (a & -> & Ha). apply elem_of_filter_list in Ha as [Ha Hk].
    apply andb_true_iff in Hk as [Ht Hk].
    apply truthy_ostring_spec in Ht as (s & Hs & Hne).
    unfold stackIdOf. rewrite Hs. simpl. split; [done|]. by exists a.
  - intros (Hne & a & Ha & Hs & Hk). exists a. split.
    + unfold stackIdOf. by rewrite Hs.
    + apply elem_of_filter_list. split; [done|]. apply andb_true_iff. split; [|done].
      apply truthy_ostring_spec. by exists sid.
Qed.

(** X15. With [removeParent] set and the update permission on the ids,
    the run deletes exactly the stacks that the target assets found in
    the store belong to (their non-empty [stackId]s), and its one bulk
    update clears [stack] for the requested ids together with the
    primaries of the loaded stacks of those assets. *)
Theorem X15_remove_parent_dissolves_target_stacks this auth dto :
  hasPermission this auth PERM_ASSET_UPDATE (AssetBulkUpdateDto.ids dto) = true →
  truthy_obool (AssetBulkUpdateDto.removeParent dto) = true →
  let t := log (updateAll this auth dto) in
  let assets := getByIds this (AssetBulkUpdateDto.ids dto) in
  (∀ sid, sid ∈ deletedStacks t
          ↔ sid ≠ "" ∧ ∃ a, a ∈ assets ∧ AssetEntity.stackId a = Some sid)
  ∧ ∃ ids o,
      bulkUpdates t = [(ids, o)]
      ∧ AssetUpdate.stack o = Some tt
      ∧ ∀ x, x ∈ ids
             ↔ x ∈ AssetBulkUpdateDto.ids dto
               ∨ (x ≠ "" ∧ ∃ a s, a ∈ assets ∧ AssetEntity.stack a = Some s
                                  ∧ AssetStackEntity.primaryAssetId s = x).
Proof.
  intros Hperm Hrm t assets. subst t.
  pose proof (planStacks_removeParent this auth dto Hrm) as Eplan.
  unfold planRemoveParent in Eplan. fold assets in Eplan.
  rewrite (updateAll_log _ _ _ _ _ Hperm Eplan). unfold log. cbn [fst plan_ids
    plan_options stackIdsToDelete].
  rewrite (deletedStacks_run dto []), (bulkUpdates_run dto []) by done.
  split.
  - intros sid.
    pose proof (marked_stack_ids (fun _ => true) assets sid) as H.
    assert (List.filter (fun a => truthy_ostring (AssetEntity.stackId a) && true) assets
            = List.filter (fun a => truthy_ostring (AssetEntity.stackId a)) assets) as E.
    { apply List.filter_ext. intros a. apply andb_true_r. }
    cbv beta in H. rewrite E in H. rewrite H. split.
    + intros (Hne & a & Ha & Hs & _). eauto.
    + intros (Hne & a & Ha & Hs). split; [done|]. by exists a.
  - eexists _, _. split; [done|]. split; [done|].
    intros x. rewrite elem_of_app, Set_new_elem, list_elem_of_fmap.
    split; (intros [Hx|Hx]; [by left|right]).
    + destruct Hx as (a & -> & Ha). apply elem_of_filter_list in Ha as [Ha Hp].
      unfold hasPrimary, primaryOf in *.
      destruct (AssetEntity.stack a) as [s|] eqn:Hs; [|done].
      unfold truthy_string in Hp.
      destruct (String.eqb_spec (AssetStackEntity.primaryAssetId s) ""); [done|].
      split; [done|]. by exists a, s.
    + destruct Hx as (Hne & a & s & Ha & Hs & <-). exists a.
      unfold primaryOf. rewrite Hs. split; [done|].
      apply elem_of_filter_list. split; [done|].
      unfold hasPrimary, truthy_string. rewrite Hs.
      by destruct (String.eqb_spec (AssetStackEntity.primaryAssetId s) "").
Qed.

(** X16. Stacking under a parent that exists and may be updated: the
    one stack write (a create when the parent has no stack, a save of the
    parent's stack otherwise) names the parent as primary and, as
    members, the requested ids, the parent, and every member of the
    loaded stack of each of those assets; the bulk update covers the same
    ids with [stackParentId] dropped and [updatedAt] set; and the stacks
    deleted are exactly the stacks of those assets other than the
    parent's own. *)
Theorem X16_stacking_merges_member_stacks this auth dto p primaryAsset :
  hasPermission this auth PERM_ASSET_UPDATE (AssetBulkUpdateDto.ids dto) = true →
  truthy_obool (AssetBulkUpdateDto.removeParent dto) = false →
  AssetBulkUpdateDto.stackParentId dto = Some p → p ≠ "" →
  hasPermission this auth PERM_ASSET_UPDATE [p] = true →
  getById this p = Some primaryAsset →
  let t := log (updateAll this auth dto) in
  let assets := getByIds this (AssetBulkUpdateDto.ids dto ++ [p]) in
  ∃ w members o,
    stackWrites t = [w]
    ∧ (w = StackCreate {| StackWrite.id := None;
                          StackWrite.primaryAssetId := Some (AssetEntity.id primaryAsset);
                          StackWrite.assets := Some members |}
       ∧ AssetEntity.stack primaryAsset = None
       ∨ ∃ s, w = StackSave {| StackWrite.id := Some (AssetStackEntity.id s);
                               StackWrite.primaryAssetId := Some (AssetEntity.id primaryAsset);
                               StackWrite.assets := Some members |}
              ∧ AssetEntity.stack primaryAsset = Some s)
    ∧ bulkUpdates t = [(members, o)]
    ∧ AssetUpdate.stackParentId o = None
    ∧ AssetUpdate.updatedAt o = Some (now this)
    ∧ (∀ x, x ∈ members
            ↔ x ∈ AssetBulkUpdateDto.ids dto ∨ x = p
              ∨ ∃ a s, a ∈ assets ∧ AssetEntity.stack a = Some s
                       ∧ x ∈ AssetStackEntity.assets s)
    ∧ (∀ sid, sid ∈ deletedStacks t
              ↔ sid ≠ ""
                ∧ (∃ a, a ∈ assets ∧ AssetEntity.stackId a = Some sid)
                ∧ ∀ s, AssetEntity.stack primaryAsset = Some s →
                       AssetStackEntity.id s ≠ sid).
Proof.
  intros Hperm Hrm Hp Hne Hpp Hget t assets. subst t.
  destruct (planStackParent_returned this auth (AssetBulkUpdateDto.ids dto)
              (initialOptions dto) p primaryAsset Hpp Hget)
    as (w & plan & E & Hw & Hdel & Hids & Hshape).
  pose proof (planStacks_stackParent this auth dto p Hrm Hp Hne) as Eplan.
  rewrite E in Eplan.
  assert (plan_options plan
          = {| AssetUpdate.isFavorite := AssetBulkUpdateDto.isFavorite dto;
               AssetUpdate.isArchived := AssetBulkUpdateDto.isArchived dto;
               AssetUpdate.stackParentId := None;
               AssetUpdate.stack := None;
               AssetUpdate.updatedAt := Some (now this) |}) as Hopt.
  { unfold planStackParent, requirePermission in E. rewrite Hpp, Hget in E. simpl in E.
    destruct (AssetEntity.stack primaryAsset); simpl in E; by injection E as _ <-. }
  rewrite (updateAll_log _ _ _ _ _ Hperm Eplan).
  assert (stackWrites [w] = [w]) as Hsw by (unfold stackWrites; simpl; by rewrite Hw).
  unfold log. cbn [fst]. rewrite stackWrites_run, bulkUpdates_run, deletedStacks_run by done.
  exists w, (plan_ids plan), (plan_options plan).
  split; [done|]. split; [done|]. split; [done|].
  rewrite Hopt. split; [done|]. split; [done|]. fold assets in Hids, Hdel. split.
  - intros x. rewrite Hids, !elem_of_app, list_elem_of_singleton, elem_of_flat_map_list.
    split.
    + intros [[?|?]|(a & Ha & Hx)]; [by left | by right; left | right; right].
      apply elem_of_filter_list in Ha as [Ha _]. unfold childrenOf in Hx.
      destruct (AssetEntity.stack a) as [s|] eqn:Hs; [|by apply elem_of_nil in Hx].
      by exists a, s.
    + intros [?|[?|(a & s & Ha & Hs & Hx)]]; [by left; left | by left; right | right].
      exists a. unfold childrenOf. rewrite Hs. split; [|done].
      apply elem_of_filter_list. split; [done|].
      unfold hasChildren. rewrite Hs. apply Nat.ltb_lt.
      destruct (AssetStackEntity.assets s); [by apply elem_of_nil in Hx | simpl; lia].
  - intros sid. rewrite Hdel, marked_stack_ids. split.
    + intros (Hn & a & Ha & Hs & Hk). split; [done|]. split; [by exists a|].
      intros s Hst. rewrite Hst in Hk. simpl in Hk. unfold stackIdOf in Hk.
      rewrite Hs in Hk. simpl in Hk.
      by destruct (String.eqb_spec (AssetStackEntity.id s) sid).
    + intros (Hn & (a & Ha & Hs) & Hk). split; [done|]. exists a.
      split; [done|]. split; [done|]. unfold otherStack, stackIdOf. rewrite Hs. simpl.
      destruct (AssetEntity.stack primaryAsset) as [s|]; [|done].
      specialize (Hk s eq_refl). by destruct (String.eqb_spec (AssetStackEntity.id s) sid).
Qed.

Lemma X15_remove_parent_witness :
  "sx" ∈ deletedStacks (log (updateAll Sample.merge Sample.auth Sample.unstackDto)).
Proof.
  apply (proj1 (X15_remove_parent_dissolves_target_stacks
                  Sample.merge Sample.auth Sample.unstackDto eq_refl eq_refl) "sx").
  split; [discriminate|].
  exists (Sample.asset "x" Sample.upload 1 None (Some Sample.stackX) false).
  split; [apply list_elem_of_here | reflexivity].
Defined.

Lemma X16_stacking_merges_witness :
  ∃ w members o,
    stackWrites (log (updateAll Sample.merge Sample.auth Sample.mergeDto)) = [w]
    ∧ bulkUpdates (log (updateAll Sample.merge Sample.auth Sample.mergeDto))
      = [(members, o)].
Proof.
  destruct (X16_stacking_merges_member_stacks Sample.merge Sample.auth Sample.mergeDto "p"
              (Sample.plain "p" 1) eq_refl eq_refl eq_refl ltac:(discriminate)
              eq_refl eq_refl) as (w & members & o & H1 & _ & H2 & _).
  exists w, members, o. split; assumption.
Defined.

(** ** Serving one file *)

(** X17. [downloadFile] makes no call.  It returns exactly when the
    caller may download the id, the store returns at least one asset for
    it and the first returned asset is not offline; the response then
    serves that asset's [originalPath] with the mime type looked up for
    that path.  A missing permission is reported before a missing asset,
    and a missing asset before an offline one. *)
Theorem X17_download_file lookup this auth id :
  let r := downloadFile lookup this auth id in
  let permitted := hasPermission this auth PERM_ASSET_DOWNLOAD [id] in
  log r = []
  ∧ (∀ resp,
       outcome r = Returned resp
       ↔ permitted = true
         ∧ ∃ asset rest,
             getByIds this [id] = asset :: rest
             ∧ AssetEntity.isOffline asset = false
             ∧ resp = {| ImmichFileResponse.path := AssetEntity.originalPath asset;
                         ImmichFileResponse.contentType :=
                           lookup (AssetEntity.originalPath asset);
                         ImmichFileResponse.cacheControl := CacheControl_NONE |})
  ∧ (outcome r = Thrown Forbidden ↔ permitted = false)
  ∧ (outcome r = Thrown (BadRequest "Asset not found")
     ↔ permitted = true ∧ getByIds this [id] = [])
  ∧ (outcome r = Thrown (BadRequest "Asset is offline")
     ↔ permitted = true
       ∧ ∃ asset rest, getByIds this [id] = asset :: rest
                       ∧ AssetEntity.isOffline asset = true).
Proof.
  intros r permitted. subst r permitted.
  unfold downloadFile, requirePermission.
  destruct (hasPermission this auth PERM_ASSET_DOWNLOAD [id]); simpl.
  2:{ split; [done|]. split; [intros resp; split; [discriminate | by intros [? _]]|].
      split; [done|]. split; (split; [discriminate | by intros [? _]]). }
  destruct (getByIds this [id]) as [|asset rest]; simpl.
  { split; [done|].
    split; [intros resp; split; [discriminate | by intros (_ & ? & ? & ? & _)]|].
    split; [done|]. split; [done|].
    split; [discriminate | by intros (_ & ? & ? & ? & _)]. }
  destruct (AssetEntity.isOffline asset) eqn:Hoff; simpl.
  - split; [done|].
    split; [intros resp; split; [discriminate|]|].
    { intros (_ & a & rs & [= <- <-] & Ha & _). congruence. }
    split; [done|]. split; [split; [discriminate | by intros [_ ?]]|].
    split; [|done]. intros _. split; [done|]. by exists asset, rest.
  - split; [done|]. split.
    { intros resp. split.
      - intros [= <-]. split; [done|]. by exists asset, rest.
      - by intros (_ & a & rs & [= <- <-] & _ & ->). }
    split; [done|]. split; [split; [discriminate | by intros [_ ?]]|].
    split; [discriminate|]. intros (_ & a & rs & [= <- <-] & Ha). congruence.
Qed.

(** ** Changing the primary of a stack *)

(** X18. [updateStackParent] returns exactly when the caller may read
    the old parent and update the new one, and the old parent exists and
    has a non-empty [stackId]; otherwise it makes no call.  When it
    returns it has saved that stack with the new parent as
    [primaryAssetId], deleted and created no stack, then notified, then
    bulk-updated [updatedAt] for the old parent, the new parent, the
    stored old parent's id and every member of its loaded stack. *)
Theorem X18_update_stack_parent c auth dto :
  let old := UpdateStackParentDto.oldParentId dto in
  let new := UpdateStackParentDto.newParentId dto in
  let t := fst (updateStackParent c auth dto) in
  let o := snd (updateStackParent c auth dto) in
  (o = StackParentUpdated
   ↔ mayAccess c auth PERM_ASSET_READ [old] = true
     ∧ hasPermission (core c) auth PERM_ASSET_UPDATE [new] = true
     ∧ ∃ oldParent sid, getById (core c) old = Some oldParent
                        ∧ AssetEntity.stackId oldParent = Some sid ∧ sid ≠ "")
  ∧ (o ≠ StackParentUpdated → t = [])
  ∧ (o = StackParentUpdated →
     ∃ oldParent sid ids payload,
       getById (core c) old = Some oldParent
       ∧ AssetEntity.stackId oldParent = Some sid
       ∧ t = [StackSave {| StackWrite.id := Some sid;
                           StackWrite.primaryAssetId := Some new;
                           StackWrite.assets := None |};
              Send ASSET_UPDATE (AuthDto.user_id auth) (ManyIds payload);
              AssetUpdateAll ids
                {| AssetUpdate.isFavorite := None;
                   AssetUpdate.isArchived := None;
                   AssetUpdate.stackParentId := None;
                   AssetUpdate.stack := None;
                   AssetUpdate.updatedAt := Some (now (core c)) |}]
       ∧ (∀ x, x ∈ ids
               ↔ x = old ∨ x = new ∨ x = AssetEntity.id oldParent
                 ∨ ∃ s, AssetEntity.stack oldParent = Some s
                        ∧ x ∈ AssetStackEntity.assets s)
       ∧ (∀ x, x ∈ payload ↔ x ∈ ids)).
Proof.
  intros old new t o. subst t o. unfold updateStackParent. fold old new.
  destruct (mayAccess c auth PERM_ASSET_READ [old]); simpl.
  2:{ split; [split; [discriminate | by intros [? _]]|]. split; [done | discriminate]. }
  destruct (hasPermission (core c) auth PERM_ASSET_UPDATE [new]); simpl.
  2:{ split; [split; [discriminate | by intros (_ & ? & _)]|]. split; [done | discriminate]. }
  destruct (getById (core c) old) as [oldParent|] eqn:Hget; simpl.
  2:{ split; [split; [discriminate | by intros (_ & _ & ? & ? & ? & _)]|].
      split; [done | discriminate]. }
  destruct (truthy_ostring (AssetEntity.stackId oldParent)) eqn:Hst; simpl.
  2:{ split; [split; [discriminate|]|split; [done | discriminate]].
      intros (_ & _ & op & sid & [= <-] & Hs & Hne).
      assert (truthy_ostring (AssetEntity.stackId oldParent) = true); [|congruence].
      apply truthy_ostring_spec. eauto. }
  apply truthy_ostring_spec in Hst as (sid & Hs & Hne).
  split; [split; [|done]|split; [done|]].
  { intros _. repeat split; try done. by exists oldParent, sid. }
  intros _. exists oldParent, sid. eexists _, _.
  split; [done|]. split; [done|]. rewrite Hs. split; [reflexivity|].
  assert (∀ x, x ∈ match AssetEntity.stack oldParent with
                   | Some s => AssetStackEntity.assets s
                   | None => []
                   end
               ↔ ∃ s, AssetEntity.stack oldParent = Some s ∧ x ∈ AssetStackEntity.assets s)
    as Hmem.
  { intros x. destruct (AssetEntity.stack oldParent) as [s|].
    - split; [by exists s | by intros (? & [= <-] & ?)].
    - split; [by intros ?%elem_of_nil | by intros (? & ? & _)]. }
  split; intros x.
  - rewrite !elem_of_cons, Hmem. tauto.
  - rewrite !elem_of_cons, elem_of_app, !elem_of_cons, elem_of_nil, Hmem. tauto.
Qed.

Lemma X18_update_stack_parent_witness :
  snd (updateStackParent Fixture.collaborators Sample.auth Fixture.reparentDto)
  = StackParentUpdated.
Proof.
  apply (proj1 (X18_update_stack_parent Fixture.collaborators Sample.auth Fixture.reparentDto)).
  split; [reflexivity|]. split; [reflexivity|].
  exists (Sample.asset "x" Sample.upload 1 None (Some Sample.stackX) false), "sx".
  split; [reflexivity|]. split; [reflexivity | discriminate].
Defined.

(** ** Trash *)

Lemma queuedJobs_pages (pages : list (list AssetEntity.t)) :
  queuedJobs (map (fun assets =>
                     QueueAll (map (fun asset => deletionJobFor (AssetEntity.id asset)) assets))
                pages)
  = map (fun asset => deletionJobFor (AssetEntity.id asset)) (concat pages).
Proof.
  unfold queuedJobs. induction pages as [|page pages IH]; simpl; [done|].
  by rewrite IH, map_app.
Qed.

(** X19. Every job enqueued by a forced [deleteAll], by emptying the
    trash or by the trash sweep is an asset-deletion job that carries an
    id and no [fromExternal] flag.  So [handleAssetDeletion], run on such
    a job, never purges an asset that has no library or belongs to an
    external library: it returns [false] without a call. *)
Theorem X19_trash_jobs_spare_external_assets c auth j :
  (∃ dto, j ∈ queuedJobs (fst (deleteAll c auth dto)))
  ∨ (∃ action, j ∈ queuedJobs (handleTrashAction c auth action))
  ∨ j ∈ queuedJobs (fst (handleAssetDeletionCheck c)) →
  ∃ id,
    j = ASSET_DELETION {| IAssetDeletionJob.id := id;
                          IAssetDeletionJob.fromExternal := None |}
    ∧ ∀ this asset,
        getById this id = Some asset →
        noLibraryOrExternal asset = true →
        handleAssetDeletion this
          {| IAssetDeletionJob.id := id; IAssetDeletionJob.fromExternal := None |}
        = ([], Returned false).
Proof.
  intros Hj.
  assert (∃ id, j = deletionJobFor id) as [id ->].
  { destruct Hj as [[dto Hj]|[[action Hj]|Hj]].
    - unfold deleteAll in Hj.
      destruct (mayAccess c auth PERM_ASSET_DELETE _); simpl in Hj;
        [|by apply elem_of_nil in Hj].
      destruct (truthy_obool _); simpl in Hj; [|by apply elem_of_nil in Hj].
      rewrite app_nil_r in Hj. apply list_elem_of_fmap in Hj as (id & -> & _). by exists id.
    - destruct action; simpl in Hj.
      + exfalso. unfold queuedJobs in Hj.
        apply elem_of_flat_map_list in Hj as (call & Hc & Hj).
        apply elem_of_flat_map_list in Hc as (page & _ & Hc). simpl in Hc.
        apply elem_of_cons in Hc as [->|Hc]; [by apply elem_of_nil in Hj|].
        apply list_elem_of_singleton in Hc as ->. by apply elem_of_nil in Hj.
      + rewrite queuedJobs_pages in Hj.
        apply list_elem_of_fmap in Hj as (a & -> & _). by eexists.
    - simpl in Hj. rewrite queuedJobs_pages in Hj.
      apply list_elem_of_fmap in Hj as (a & -> & _). by eexists. }
  exists id. split; [done|].
  intros this asset Hget Hlib.
  by apply (handleAssetDeletion_skipped this _ asset).
Qed.

Lemma X19_trash_jobs_witness :
  ∃ id,
    ASSET_DELETION (IAssetDeletionJob.mk "e1" None)
    = ASSET_DELETION {| IAssetDeletionJob.id := id;
                        IAssetDeletionJob.fromExternal := None |}.
Proof.
  destruct (X19_trash_jobs_spare_external_assets Fixture.collaborators Sample.auth
              (ASSET_DELETION (IAssetDeletionJob.mk "e1" None))) as (id & E & _).
  - left. exists Fixture.forceDeleteDto. apply list_elem_of_here.
  - exists id. exact E.
Defined.

Lemma trash_views_restore owner (pages : list (list AssetEntity.t)) :
  let t := flat_map (fun assets =>
                       [RestoreAll (map AssetEntity.id assets);
                        Notify ASSET_RESTORE owner (map AssetEntity.id assets)]) pages in
  restoredPages t = map (map AssetEntity.id) pages
  ∧ notifiedPages t
    = map (fun assets => (ASSET_RESTORE, owner, map AssetEntity.id assets)) pages
  ∧ queuedJobs t = [] ∧ softDeleted t = []
  ∧ ∀ i page, pages !! i = Some page →
              t !! (2 * i)%nat = Some (RestoreAll (map AssetEntity.id page))
              ∧ t !! (2 * i + 1)%nat
                = Some (Notify ASSET_RESTORE owner (map AssetEntity.id page)).
Proof.
  induction pages as [|p pages (H1 & H2 & H3 & H4 & H5)]; simpl.
  { repeat split; try done; by intros i page ?. }
  unfold restoredPages, notifiedPages, queuedJobs, softDeleted in *. simpl.
  rewrite H1, H2, H3, H4. repeat split; try done.
  - destruct i as [|i]; simpl in *; [by injection H as <-|].
    replace (i + S (i + 0))%nat with (S (2 * i)) by lia. simpl.
    by apply H5.
  - destruct i as [|i]; simpl in *; [by injection H as <-|].
    replace (i + S (i + 0) + 1)%nat with (S (2 * i + 1)) by lia. simpl.
    by apply H5.
Qed.

Lemma view_queue_pages {A} (view : TrashCall → option A)
    (jobs : list AssetEntity.t → list JobItem) (pages : list (list AssetEntity.t)) :
  (∀ js, view (QueueAll js) = None) →
  omap view (map (fun assets => QueueAll (jobs assets)) pages) = [].
Proof.
  intros H. induction pages as [|p ps IH]; simpl; [done|]. by rewrite H.
Qed.

(** X20. Restoring the whole trash works page by page on the caller's
    own trashed assets: each page is restored with one call and then
    notified with one ASSET_RESTORE event carrying that page's ids, before
    the next page is touched; nothing is enqueued or trashed.  Emptying
    the trash enqueues one batch of deletion jobs per page, one job per
    asset, and restores and notifies nothing. *)
Theorem X20_trash_actions_page_by_page c auth :
  let pages := getTrashedByUserId c (AuthDto.user_id auth) (now (core c)) in
  let restore := handleTrashAction c auth RESTORE_ALL in
  let empty := handleTrashAction c auth EMPTY_ALL in
  (restoredPages restore = map (map AssetEntity.id) pages
   ∧ notifiedPages restore
     = map (fun assets => (ASSET_RESTORE, AuthDto.user_id auth, map AssetEntity.id assets))
         pages
   ∧ queuedJobs restore = [] ∧ softDeleted restore = []
   ∧ ∀ i page, pages !! i = Some page →
               restore !! (2 * i)%nat = Some (RestoreAll (map AssetEntity.id page))
               ∧ restore !! (2 * i + 1)%nat
                 = Some (Notify ASSET_RESTORE (AuthDto.user_id auth)
                           (map AssetEntity.id page)))
  ∧ (length empty = length pages
     ∧ queuedJobs empty
       = map (fun asset => deletionJobFor (AssetEntity.id asset)) (concat pages)
     ∧ restoredPages empty = [] ∧ notifiedPages empty = [] ∧ softDeleted empty = []).
Proof.
  intros pages restore empty. subst restore empty. simpl. fold pages. split.
  - apply trash_views_restore.
  - rewrite length_map, queuedJobs_pages. split; [done|]. split; [done|].
    unfold restoredPages, notifiedPages, softDeleted.
    by rewrite !view_queue_pages.
Qed.

Lemma X20_trash_actions_witness :
  handleTrashAction Fixture.collaborators Sample.auth RESTORE_ALL !! 2%nat
  = Some (RestoreAll ["t3"]).
Proof.
  exact (proj1 (proj2 (proj2 (proj2 (proj2 (proj1
           (X20_trash_actions_page_by_page Fixture.collaborators Sample.auth)))))
           1%nat [Sample.plain "t3" 1] eq_refl)).
Defined.

(** ** Time buckets *)

Lemma timeBucketChecks_spec c auth dto :
  log (timeBucketChecks c auth dto) = []
  ∧ (timeBucketAllowed c auth dto
     ∧ outcome (timeBucketChecks c auth dto)
       = Returned {| TimeBucketDto.userId := timelineUser auth dto;
                     TimeBucketDto.albumId := TimeBucketDto.albumId dto;
                     TimeBucketDto.isArchived := TimeBucketDto.isArchived dto;
                     TimeBucketDto.isFavorite := TimeBucketDto.isFavorite dto;
                     TimeBucketDto.isTrashed := TimeBucketDto.isTrashed dto;
                     TimeBucketDto.withPartners := TimeBucketDto.withPartners dto |}
     ∨ ¬ timeBucketAllowed c auth dto
       ∧ ∃ e, outcome (timeBucketChecks c auth dto) = Thrown e).
Proof.
  unfold timeBucketChecks, timeBucketAllowed, timelineUser, requireAccess.
  destruct (truthy_ostring (TimeBucketDto.albumId dto)) eqn:Halbum.
  - destruct (mayAccess c auth PERM_ALBUM_READ _) eqn:Ha; simpl.
    2:{ split; [done|]. right. split; [|by eexists]. intros (H & _). by specialize (H eq_refl). }
    destruct (truthy_ostring (TimeBucketDto.userId dto)) eqn:Hu; simpl.
    + destruct (mayAccess c auth PERM_TIMELINE_READ _) eqn:Ht; simpl.
      2:{ split; [done|]. right. split; [|by eexists].
          intros (_ & H & _). by destruct (H eq_refl). }
      destruct (TimeBucketDto.isArchived dto) as [[]|] eqn:Harch; simpl;
        try (destruct (mayAccess c auth PERM_ARCHIVE_READ _) eqn:Hr; simpl;
             [|split; [done|]; right; split; [|by eexists];
               intros (_ & H & _); destruct (H eq_refl) as [_ H']; by specialize (H' ltac:(done))]);
        destruct (truthy_obool (TimeBucketDto.withPartners dto)) eqn:Hw; simpl;
        destruct (TimeBucketDto.isFavorite dto) eqn:Hf;
        destruct (TimeBucketDto.isTrashed dto) as [[]|] eqn:Htr; simpl;
        (split; [done|]);
        first [ left; split; [|done]; repeat split; by try done
              | right; split; [|by eexists];
                intros (_ & _ & H); destruct (H eq_refl) as (? & ? & ?); done ].
    + destruct (truthy_obool (TimeBucketDto.withPartners dto)) eqn:Hw; simpl;
        destruct (TimeBucketDto.isArchived dto) as [[]|] eqn:Harch;
        destruct (TimeBucketDto.isFavorite dto) eqn:Hf;
        destruct (TimeBucketDto.isTrashed dto) as [[]|] eqn:Htr; simpl;
        (split; [done|]);
        first [ left; split; [|done]; repeat split; by try done
              | right; split; [|by eexists];
                intros (_ & _ & H); destruct (H eq_refl) as (? & ? & ?); done ].
  - simpl.
    set (u := if truthy_ostring (TimeBucketDto.userId dto) then TimeBucketDto.userId dto
              else Some (AuthDto.user_id auth)).
    destruct (truthy_ostring u) eqn:Hu; simpl.
    + destruct (mayAccess c auth PERM_TIMELINE_READ _) eqn:Ht; simpl.
      2:{ split; [done|]. right. split; [|by eexists].
          intros (_ & H & _). by destruct (H eq_refl). }
      destruct (TimeBucketDto.isArchived dto) as [[]|] eqn:Harch; simpl;
        try (destruct (mayAccess c auth PERM_ARCHIVE_READ _) eqn:Hr; simpl;
             [|split; [done|]; right; split; [|by eexists];
               intros (_ & H & _); destruct (H eq_refl) as [_ H']; by specialize (H' ltac:(done))]);
        destruct (truthy_obool (TimeBucketDto.withPartners dto)) eqn:Hw; simpl;
        destruct (TimeBucketDto.isFavorite dto) eqn:Hf;
        destruct (TimeBucketDto.isTrashed dto) as [[]|] eqn:Htr; simpl;
        (split; [done|]);
        first [ left; split; [|done]; repeat split; by try done
              | right; split; [|by eexists];
                intros (_ & _ & H); destruct (H eq_refl) as (? & ? & ?); done ].
    + destruct (truthy_obool (TimeBucketDto.withPartners dto)) eqn:Hw; simpl;
        destruct (TimeBucketDto.isArchived dto) as [[]|] eqn:Harch;
        destruct (TimeBucketDto.isFavorite dto) eqn:Hf;
        destruct (TimeBucketDto.isTrashed dto) as [[]|] eqn:Htr; simpl;
        (split; [done|]);
        first [ left; split; [|done]; repeat split; by try done
              | right; split; [|by eexists];
                intros (_ & _ & H); destruct (H eq_refl) as (? & ? & ?); done ].
Qed.

(** X21. A time-bucket request only reads, and it gets through the
    checks exactly when: the caller may read the album, if one is given;
    the caller may read the timeline of the user whose timeline is read
    (the requested user, or the caller when neither album nor user is
    given), and also the archive unless [isArchived] is [false]; and, with
    [withPartners], the request asks for non-archived assets
    ([isArchived] is [false]), gives no [isFavorite] and does not ask for
    trashed ones. *)
Theorem X21_time_bucket_checks c auth dto :
  log (getTimeBuckets c auth dto) = []
  ∧ ((∃ o, outcome (getTimeBuckets c auth dto) = Returned o) ↔ timeBucketAllowed c auth dto).
Proof.
  unfold getTimeBuckets.
  destruct (timeBucketChecks_spec c auth dto) as [Hlog [[Hok Ho]|[Hno [e He]]]];
    destruct (timeBucketChecks c auth dto) as [t o]; simpl in *; subst t o; simpl.
  - split; [done|]. split; [done | by eexists].
  - split; [done|]. split; [intros [o Ho]; discriminate Ho | intros H; by destruct Hno].
Qed.

(** X22. The [userIds] of the options handed to the repository: none
    when no timeline is read; otherwise the user whose timeline is read
    comes first, followed, only with [withPartners], by the [sharedById]
    of those partners of the caller whose relations are loaded and who
    are shown in the timeline, in the order of the partner list. *)
Theorem X22_time_bucket_user_ids c auth dto o :
  outcome (getTimeBuckets c auth dto) = Returned o →
  let u := timelineUser auth dto in
  (truthy_ostring u = false → TimeBucketOptions.userIds o = None)
  ∧ (truthy_ostring u = true →
     ∃ partnerIds,
       TimeBucketOptions.userIds o = Some (default "" u :: partnerIds)
       ∧ (truthy_obool (TimeBucketDto.withPartners dto) = false → partnerIds = [])
       ∧ (truthy_obool (TimeBucketDto.withPartners dto) = true →
          partnerIds
          = map PartnerEntity.sharedById
              (List.filter
                 (fun p => PartnerEntity.inTimeline p
                           && bool_decide (is_Some (PartnerEntity.sharedBy p))
                           && bool_decide (is_Some (PartnerEntity.sharedWith p)))
                 (getPartners c (AuthDto.user_id auth))))).
Proof.
  intros Hout. unfold getTimeBuckets in Hout.
  destruct (timeBucketChecks_spec c auth dto) as [Hlog [[Hok Ho]|[Hno [e He]]]];
    destruct (timeBucketChecks c auth dto) as [t r]; simpl in *; subst t r;
    simpl in Hout; [|discriminate].
  injection Hout as <-. unfold buildTimeBucketOptions. simpl.
  destruct (truthy_ostring (timelineUser auth dto)); simpl.
  - split; [discriminate|]. intros _.
    destruct (truthy_obool (TimeBucketDto.withPartners dto)); simpl.
    + eexists. split; [done|]. split; [discriminate|]. intros _. f_equal.
      apply List.filter_ext. intros p. unfold inTimelinePartner.
      destruct (PartnerEntity.sharedBy p), (PartnerEntity.sharedWith p),
        (PartnerEntity.inTimeline p); done.
    + exists []. split; [done|]. split; [done | discriminate].
  - split; [done | discriminate].
Qed.

Lemma X22_time_bucket_user_ids_witness :
  ∃ o, outcome (getTimeBuckets Fixture.collaborators Sample.auth Fixture.partnersDto)
       = Returned o
       ∧ TimeBucketOptions.userIds o = Some ["owner"; "friend"].
Proof.
  eexists. split; [reflexivity|].
  destruct (proj2 (X22_time_bucket_user_ids Fixture.collaborators Sample.auth
                     Fixture.partnersDto _ eq_refl) eq_refl)
    as (partnerIds & E & _ & Hp).
  rewrite E, (Hp eq_refl). reflexivity.
Defined.

(** ** The memory lane *)

Lemma groupInsert_keys {X} key (x : X) groups :
  map fst (groupInsert key x groups)
  = if bool_decide (key ∈ map fst groups) then map fst groups
    else map fst groups ++ [key].
Proof.
  induction groups as [|[k items] rest IH].
  - rewrite bool_decide_eq_false_2; [done | by intros ?%elem_of_nil].
  - cbn [groupInsert]. destruct (String.eqb_spec k key) as [->|Hne]; cbn [map fst].
    + rewrite bool_decide_eq_true_2; [done | apply list_elem_of_here].
    + rewrite IH. destruct (bool_decide (key ∈ map fst rest)) eqn:E.
      * apply bool_decide_eq_true in E.
        rewrite bool_decide_eq_true_2; [done | by apply list_elem_of_further].
      * apply bool_decide_eq_false in E.
        rewrite bool_decide_eq_false_2; [done|].
        intros [?|?]%elem_of_cons; congruence.
Qed.

Lemma groupInsert_entries {X} key (x : X) groups k items :
  NoDup (map fst groups) →
  (k, items) ∈ groupInsert key x groups →
  (k ≠ key ∧ (k, items) ∈ groups)
  ∨ (k = key ∧ ∃ items0, items = items0 ++ [x]
                         ∧ ((k, items0) ∈ groups
                            ∨ (items0 = [] ∧ key ∉ map fst groups))).
Proof.
  induction groups as [|[k0 i0] rest IH]; simpl; intros Hnd Hin.
  - apply list_elem_of_singleton in Hin as [= -> ->]. right. split; [done|].
    exists []. split; [done|]. right. split; [done | by intros ?%elem_of_nil].
  - apply NoDup_cons in Hnd as [Hk0 Hnd].
    destruct (String.eqb_spec k0 key) as [->|Hne].
    + apply elem_of_cons in Hin as [[= -> ->]|Hin].
      * right. split; [done|]. exists i0. split; [done|]. left. apply list_elem_of_here.
      * left. split; [|by apply list_elem_of_further].
        intros ->. apply Hk0. apply list_elem_of_fmap. by exists (key, items).
    + apply elem_of_cons in Hin as [[= -> ->]|Hin].
      * left. split; [done | apply list_elem_of_here].
      * destruct (IH Hnd Hin) as [[Hk Hi]|[-> (items0 & -> & [Hi|[-> Hi]])]].
        -- left. split; [done | by apply list_elem_of_further].
        -- right. split; [done|]. exists items0. split; [done|]. left.
           by apply list_elem_of_further.
        -- right. split; [done|]. exists []. split; [done|]. right. split; [done|].
           intros [?|?]%elem_of_cons; congruence.
Qed.

Lemma groupInsert_keeps {X} key (x : X) groups k items :
  k ≠ key → (k, items) ∈ groups → (k, items) ∈ groupInsert key x groups.
Proof.
  intros Hne. induction groups as [|[k0 i0] rest IH]; simpl; [by intros ?%elem_of_nil|].
  intros [[= <- <-]|Hin]%elem_of_cons.
  - destruct (String.eqb_spec k key); [done | apply list_elem_of_here].
  - destruct (String.eqb_spec k0 key); apply list_elem_of_further; auto.
Qed.

Lemma filter_none_of_key {X} (f : X → string) key xs (groups : list (string * list X)) :
  (∀ x, x ∈ xs → f x ∈ map fst groups) →
  key ∉ map fst groups →
  List.filter (fun y => String.eqb (f y) key) xs = [].
Proof.
  intros Hcover Hkey. induction xs as [|y ys IH]; simpl; [done|].
  destruct (String.eqb_spec (f y) key) as [E|_].
  - exfalso. apply Hkey. rewrite <- E. apply Hcover, list_elem_of_here.
  - apply IH. intros z Hz. by apply Hcover, list_elem_of_further.
Qed.

Lemma groupsOf_insert {X} (f : X → string) xs x groups :
  groupsOf f xs groups → groupsOf f (xs ++ [x]) (groupInsert (f x) x groups).
Proof.
  intros (Hnd & Hitems & Hcover). split; [|split].
  - rewrite groupInsert_keys. destruct (bool_decide _) eqn:E; [done|].
    apply bool_decide_eq_false in E.
    apply NoDup_app. repeat split; [done | | apply NoDup_singleton].
    intros k Hk ->%list_elem_of_singleton. done.
  - intros k items H.
    apply (groupInsert_entries _ _ _ _ _ Hnd) in H
      as [[Hk Hi]|[-> (items0 & -> & [Hi|[-> Hi]])]].
    + destruct (Hitems _ _ Hi) as [-> Hne]. rewrite List.filter_app. simpl.
      destruct (String.eqb_spec (f x) k); [congruence | by rewrite app_nil_r].
    + destruct (Hitems _ _ Hi) as [-> _]. rewrite List.filter_app. simpl.
      rewrite String.eqb_refl. split; [done|]. by destruct (List.filter _ xs).
    + rewrite List.filter_app. simpl. rewrite String.eqb_refl.
      by rewrite (filter_none_of_key f (f x) xs groups).
  - intros y [Hy| ->%list_elem_of_singleton]%elem_of_app; rewrite groupInsert_keys;
      destruct (bool_decide _) eqn:E.
    + by apply Hcover.
    + apply elem_of_app. left. by apply Hcover.
    + by apply bool_decide_eq_true in E.
    + apply elem_of_app. right. apply list_elem_of_here.
Qed.

Lemma groupBy_groupsOf {X} (f : X → string) xs : groupsOf f xs (groupBy f xs).
Proof.
  unfold groupBy.
  assert (∀ ys pre groups,
            groupsOf f pre groups →
            groupsOf f (pre ++ ys) (fold_left (fun g x => groupInsert (f x) x g) ys groups))
    as Hfold.
  { induction ys as [|y ys IH]; intros pre groups Hg; simpl.
    - by rewrite app_nil_r.
    - replace (pre ++ y :: ys) with ((pre ++ [y]) ++ ys) by (by rewrite <- app_assoc).
      by apply IH, groupsOf_insert. }
  apply (Hfold xs [] []). split; [constructor|]. split.
  - by intros k items ?%elem_of_nil.
  - by intros x ?%elem_of_nil.
Qed.

Lemma noSpace_uint d : noSpace (NilEmpty.string_of_uint d) = true.
Proof. induction d; simpl; done. Qed.

Lemma noSpace_decimal n : noSpace (decimal n) = true.
Proof.
  unfold decimal, NilZero.string_of_uint.
  destruct (Nat.to_uint n) eqn:E; try (rewrite <- E; apply noSpace_uint); done.
Qed.

(** Two runs of characters other than the space, each followed by a
    space, are equal when the whole strings are. *)
Lemma before_space d1 d2 r1 r2 :
  noSpace d1 = true → noSpace d2 = true →
  d1 +:+ String " " r1 = d2 +:+ String " " r2 → d1 = d2.
Proof.
  revert d2. induction d1 as [|a d1 IH]; intros [|b d2] H1 H2 E;
    cbn [String.append] in E; simpl in H1, H2.
  - done.
  - injection E as <- _. done.
  - injection E as -> _. done.
  - injection E as -> E. f_equal.
    apply andb_true_iff in H1 as [_ H1]. apply andb_true_iff in H2 as [_ H2]. eauto.
Qed.

Lemma memoryTitle_inj y1 y2 :
  0 ≤ y1 → 0 ≤ y2 → memoryTitle y1 = memoryTitle y2 → y1 = y2.
Proof.
  intros H1 H2 E. unfold memoryTitle, numberToString in E.
  destruct (Z.ltb_spec y1 0); [lia|]. destruct (Z.ltb_spec y2 0); [lia|].
  assert (∀ r, " year" +:+ r = String " " ("year" +:+ r)) as Hyear by done.
  rewrite !Hyear in E.
  apply before_space, decimal_inj in E; [lia | apply noSpace_decimal..].
Qed.

(** The assets of one memory: grouping the titled past assets and keeping
    one title is filtering the assets by year. *)
Lemma memory_assets {Asset Dto} (getFullYear : Asset → Z) (mapAsset : Asset → Dto)
    currentYear years (assets : list Asset) :
  1 ≤ years →
  map snd
    (List.filter (fun z => String.eqb (fst z) (memoryTitle years))
       (map (fun asset => (memoryTitle (currentYear - getFullYear asset), mapAsset asset))
          (List.filter (fun asset => getFullYear asset <? currentYear) assets)))
  = map mapAsset
      (List.filter (fun asset => getFullYear asset =? currentYear - years) assets).
Proof.
  intros Hy. induction assets as [|a assets IH]; simpl; [done|].
  destruct (Z.ltb_spec (getFullYear a) currentYear) as [Hlt|Hge]; simpl.
  - destruct (String.eqb_spec (memoryTitle (currentYear - getFullYear a)) (memoryTitle years))
      as [E|Hne]; simpl.
    + apply memoryTitle_inj in E; [|lia..].
      destruct (Z.eqb_spec (getFullYear a) (currentYear - years)); [|lia].
      simpl. by rewrite IH.
    + destruct (Z.eqb_spec (getFullYear a) (currentYear - years)) as [E|_]; [|done].
      exfalso. apply Hne. f_equal. lia.
  - destruct (Z.eqb_spec (getFullYear a) (currentYear - years)); [lia | done].
Qed.

(** X23. The memory lane holds one memory per number of years that some
    asset of the day lies back, in the order in which those ages first
    occur: no title occurs twice; each memory is titled with its age of at
    least one year and holds, in order, exactly the mapped assets of that
    age, at least one; and every asset taken in an earlier year is in the
    memory of its age.  Assets of the current year or later are in no
    memory. *)
Theorem X23_memory_lane_groups_by_age {Asset Dto} (getFullYear : Asset → Z)
    (mapAsset : Asset → Dto) (currentYear : Z) (assets : list Asset) :
  let lane := getMemoryLane getFullYear mapAsset currentYear assets in
  NoDup (map MemoryLaneResponseDto.title lane)
  ∧ (∀ m, m ∈ lane →
          ∃ years,
            1 ≤ years
            ∧ MemoryLaneResponseDto.title m = memoryTitle years
            ∧ MemoryLaneResponseDto.assets m
              = map mapAsset
                  (List.filter (fun a => getFullYear a =? currentYear - years) assets)
            ∧ MemoryLaneResponseDto.assets m ≠ [])
  ∧ (∀ a, a ∈ assets → getFullYear a < currentYear →
          ∃ m, m ∈ lane
               ∧ MemoryLaneResponseDto.title m
                 = memoryTitle (currentYear - getFullYear a)).
Proof.
  intros lane. subst lane. unfold getMemoryLane.
  set (past := List.filter (fun asset => getFullYear asset <? currentYear) assets).
  set (titled := map (fun asset => (memoryTitle (currentYear - getFullYear asset),
                                    mapAsset asset)) past).
  destruct (groupBy_groupsOf fst titled) as (Hnd & Hitems & Hcover).
  split; [|split].
  - rewrite map_map.
    erewrite map_ext; [exact Hnd|]. by intros [k items].
  - intros m Hm. apply list_elem_of_fmap in Hm as ([k items] & -> & Hin). simpl.
    destruct (Hitems k items Hin) as [Hi Hne].
    assert (∃ years, 1 ≤ years ∧ k = memoryTitle years) as (years & Hy & ->).
    { destruct items as [|[k' d] items]; [done|].
      assert ((k', d) ∈ List.filter (fun x => String.eqb (fst x) k) titled) as Hz
        by (rewrite <- Hi; apply list_elem_of_here).
      apply elem_of_filter_list in Hz as [Hz Hk]. simpl in Hk.
      apply String.eqb_eq in Hk as ->.
      apply list_elem_of_fmap in Hz as (a & [= -> ->] & Ha).
      apply elem_of_filter_list in Ha as [_ Ha%Z.ltb_lt].
      exists (currentYear - getFullYear a). split; [lia | done]. }
    exists years. split; [done|]. split; [done|].
    assert (map snd items
            = map mapAsset
                (List.filter (fun a => getFullYear a =? currentYear - years) assets)) as E.
    { rewrite Hi. by apply memory_assets. }
    split; [done|]. by destruct items.
  - intros a Ha Hlt.
    assert (memoryTitle (currentYear - getFullYear a) ∈ map fst (groupBy fst titled)) as Hk.
    { apply (Hcover (memoryTitle (currentYear - getFullYear a), mapAsset a)).
      apply list_elem_of_fmap. exists a. split; [done|].
      apply elem_of_filter_list. split; [done | by apply Z.ltb_lt]. }
    apply list_elem_of_fmap in Hk as ([k items] & Hk & Hin). simpl in Hk. subst k.
    eexists. split.
    + apply list_elem_of_fmap.
      by exists (memoryTitle (currentYear - getFullYear a), items).
    + done.
Qed.

(** ** Download archives: nothing lost, nothing foreign *)

Lemma elem_of_allIds h x :
  x ∈ allIds h ↔ ∃ b, b ∈ h ∧ x ∈ DownloadArchiveInfo.assetIds b.
Proof.
  unfold allIds. rewrite list_elem_of_In, in_concat. split.
  - intros (l & Hl & Hx). apply in_map_iff in Hl as (b & <- & Hb).
    exists b. by rewrite !list_elem_of_In.
  - intros (b & Hb & Hx). exists (DownloadArchiveInfo.assetIds b).
    split; [apply in_map|]; by apply list_elem_of_In.
Qed.

Lemma addAsset_allPushed T st x :
  allPushed false st → allPushed false (addAsset T st x).
Proof.
  intros (h & a & Hh & Ha & Hp & _). rewrite (addAsset_last T st h a x Hh Ha).
  destruct (T <? _).
  - exists (h ++ [addToArchive x a]), emptyArchive. simpl.
    rewrite <- app_assoc, length_app. simpl. repeat split; [lia| |done].
    intros r Hr. apply elem_of_app.
    destruct (decide (r = length h)) as [->|Hne].
    + right. apply list_elem_of_here.
    + left. apply Hp. lia.
  - exists h, (addToArchive x a). simpl. by repeat split.
Qed.

Lemma processPage_allPushed this T st page :
  allPushed false st → allPushed true (processPage this T st page).
Proof.
  intros Hst. unfold processPage.
  assert (allPushed false (fold_left (addAsset T) (withMotion this page) st))
    as (h & a & Hh & Ha & Hp & _).
  { clear -Hst. revert st Hst.
    induction (withMotion this page) as [|x xs IH]; intros st Hst; simpl; [done|].
    by apply IH, addAsset_allPushed. }
  rewrite Hh, Ha, deref_last.
  destruct (0 <? length (DownloadArchiveInfo.assetIds a))%nat eqn:E.
  - exists h, a. simpl. repeat split; [done..| |].
    + intros r Hr. apply elem_of_app. left. by apply Hp.
    + intros _ _. apply elem_of_app. right. apply list_elem_of_here.
  - exists h, a. repeat split; [done..|].
    intros _ Hne. apply Nat.ltb_ge in E.
    destruct (DownloadArchiveInfo.assetIds a); [done | simpl in E; lia].
Qed.

Lemma allPushed_weaken st : allPushed true st → allPushed false st.
Proof. intros (h & a & Hh & Ha & Hp & _). exists h, a. by repeat split. Qed.

Lemma batchPages_state this T pages :
  ∀ st, writesLast st → pushedNonEmpty st → allPushed true st →
        let st' := fold_left (processPage this T) pages st in
        writesLast st' ∧ pushedNonEmpty st' ∧ allPushed true st'.
Proof.
  induction pages as [|page pages IH]; intros st Hw Hn Hp; simpl; [done|].
  apply IH.
  - by apply processPage_writesLast.
  - by apply processPage_pushedNonEmpty.
  - by apply processPage_allPushed, allPushed_weaken.
Qed.

(** X24. However the assets are split into pages, the ids listed in the
    response are exactly the ids of the assets of the pages and of the
    companions fetched for them: no asset is left out of the archives and
    no other id gets in. *)
Theorem X24_listed_ids_are_the_page_ids this T pages x :
  x ∈ allIds (DownloadResponseDto.archives (downloadResponse (batchPages this T pages)))
  ↔ ∃ page, page ∈ pages
            ∧ x ∈ map AssetEntity.id (page ++ companionsOf this page).
Proof.
  assert (writesLast initialBatcher) as Hw by (by exists [], emptyArchive).
  assert (pushedNonEmpty initialBatcher) as Hn by constructor.
  assert (allPushed true initialBatcher) as Hp.
  { exists [], emptyArchive. simpl. repeat split; [by intros r ?; lia | done]. }
  destruct (batchPages_state this T pages _ Hw Hn Hp)
    as (_ & Hn' & (h & a & Hh & Ha & Hp1 & Hp2)).
  pose proof (batchPages_ids this T pages _ Hw) as Hids. simpl in Hids.
  fold (batchPages this T pages) in *.
  assert (x ∈ allIds (heap (batchPages this T pages))
          ↔ ∃ page, page ∈ pages
                    ∧ x ∈ map AssetEntity.id (page ++ companionsOf this page))
    as <-.
  { rewrite Hids, list_elem_of_In, in_concat. split.
    - intros (l & Hl & Hx). apply in_map_iff in Hl as (page & <- & Hpage).
      exists page. by rewrite !list_elem_of_In.
    - intros (page & Hpage & Hx). exists (map AssetEntity.id (page ++ companionsOf this page)).
      split; [|by apply list_elem_of_In].
      apply in_map_iff. exists page. split; [done | by apply list_elem_of_In]. }
  unfold downloadResponse. simpl. rewrite !elem_of_allIds. split.
  - intros (b & Hb & Hx). apply list_elem_of_fmap in Hb as (r & -> & Hr).
    unfold pushedNonEmpty in Hn'. rewrite Forall_forall in Hn'.
    destruct (Hn' r Hr) as [Hlt _].
    exists (deref (heap (batchPages this T pages)) r). split; [|done].
    unfold deref. destruct (lookup_lt_is_Some_2 _ _ Hlt) as [b Hb]. rewrite Hb. simpl.
    by apply list_elem_of_lookup_2 in Hb.
  - intros (b & Hb & Hx). apply list_elem_of_lookup_1 in Hb as (r & Hr).
    exists b. split; [|done]. apply list_elem_of_fmap. exists r.
    split; [unfold deref; by rewrite Hr|].
    assert (r < length (heap (batchPages this T pages)))%nat as Hlt
      by (by apply lookup_lt_Some in Hr).
    rewrite Hh, length_app in Hlt. simpl in Hlt.
    destruct (decide (r = length h)) as [->|Hne]; [|apply Hp1; lia].
    apply Hp2; [done|]. rewrite Hh, list_lookup_middle in Hr by done.
    injection Hr as ->. intros Hnil. rewrite Hnil in Hx. by apply elem_of_nil in Hx.
Qed.
